(** * Sundance ticket monitor: state differ, auto-purchase matcher and
      checkout automation engine

    A shallow embedding of [src/monitor.js] and [src/auto-purchase.js],
    with the page script and the configuration of the generator
    ([generate-auto-purchase.js]) and the matcher of the earlier engine.

    - JavaScript strings are [string]s; [toLowerCase], [toUpperCase] and
      [trim] act on the ASCII range.
    - Plain objects used as records are [Record]s, an absent property is
      [None], and an object used as a map is an association list of its
      own properties in [Object.entries] order; reading [map[key]] also
      finds the members of [Object.prototype].
    - [async] browser code is written in a state monad over the browser
      world and the console, with a thrown exception and a loop that never
      ends as outcomes of their own. *)

From Stdlib Require Import Bool Arith ZArith Lia List Ascii String.
From Stdlib Require Import DecimalString DecimalZ DecimalPos.
Import ListNotations.

Local Open Scope string_scope.
Local Open Scope Z_scope.

Set Implicit Arguments.
Set Maximal Implicit Insertion.

(* ================================================================== *)
(** * JavaScript strings *)
(* ================================================================== *)

Module Js.

Definition lowerAscii (c : ascii) : ascii :=
  let n := nat_of_ascii c in
  if ((65 <=? n) && (n <=? 90))%nat then ascii_of_nat (n + 32) else c.

Definition upperAscii (c : ascii) : ascii :=
  let n := nat_of_ascii c in
  if ((97 <=? n) && (n <=? 122))%nat then ascii_of_nat (n - 32) else c.

Fixpoint mapString (f : ascii -> ascii) (s : string) : string :=
  match s with
  | EmptyString => EmptyString
  | String c r => String (f c) (mapString f r)
  end.

Definition toLowerCase : string -> string := mapString lowerAscii.
Definition toUpperCase : string -> string := mapString upperAscii.

(** White space removed by [trim] and matched by [\s]: TAB, LF, VT, FF, CR
    and SPACE. *)
Definition isSpace (c : ascii) : bool :=
  let n := nat_of_ascii c in
  (((9 <=? n) && (n <=? 13)) || (n =? 32))%nat.

Fixpoint trimStart (s : string) : string :=
  match s with
  | EmptyString => EmptyString
  | String c r => if isSpace c then trimStart r else s
  end.

(** [trimEnd] keeps a character when it is not a space or when something
    is kept after it. *)
Fixpoint trimEnd (s : string) : string :=
  match s with
  | EmptyString => EmptyString
  | String c r =>
      match trimEnd r with
      | EmptyString => if isSpace c then EmptyString else String c EmptyString
      | r' => String c r'
      end
  end.

Definition trim (s : string) : string := trimEnd (trimStart s).

(** [hay.includes(needle)] *)
Fixpoint includes (hay needle : string) : bool :=
  if String.prefix needle hay then true
  else match hay with
       | EmptyString => false
       | String _ r => includes r needle
       end.

(** [xs.some(p => hay.includes(p))] *)
Definition includesAny (hay : string) (needles : list string) : bool :=
  existsb (includes hay) needles.

(** [String(n)] for an integer [n]. *)
Definition ofZ (n : Z) : string := NilZero.string_of_int (Z.to_int n).

(** Truthiness of a possibly absent string, number and flag. *)
Definition truthyString (o : option string) : bool :=
  match o with
  | Some s => negb (s =? "")%string
  | None => false
  end.

Definition truthyZ (o : option Z) : bool :=
  match o with
  | Some n => negb (n =? 0)
  | None => false
  end.

(** [o || d] *)
Definition orString (o : option string) (d : string) : string :=
  if truthyString o then match o with Some s => s | None => d end else d.

Definition orZ (o : option Z) (d : Z) : Z :=
  if truthyZ o then match o with Some n => n | None => d end else d.

(** [a || b] on two possibly absent strings. *)
Definition orElse (a b : option string) : option string :=
  if truthyString a then a else b.

End Js.

(* ================================================================== *)
(** * Data model *)
(* ================================================================== *)

Inductive Status := UNKNOWN | AVAILABLE | SOLD_OUT | WAITLIST.

Definition Status_eqb (a b : Status) : bool :=
  match a, b with
  | UNKNOWN, UNKNOWN | AVAILABLE, AVAILABLE
  | SOLD_OUT, SOLD_OUT | WAITLIST, WAITLIST => true
  | _, _ => false
  end.

Record ScreeningRecord := {
  title : string;
  screeningTime : string;
  status : Status;
  buttonText : string;
  url : string
}.

Inductive ChangeType :=
  NEW_AVAILABLE | NOW_AVAILABLE | PURCHASE_SUCCESS | PURCHASE_FAILED.

(** A change is [{ type, ...record }]; the purchase notifications of the
    engine carry no [status]. *)
Record ChangeEvent := {
  ev_type : ChangeType;
  ev_title : string;
  ev_screeningTime : string;
  ev_status : option Status;
  ev_buttonText : string;
  ev_url : string
}.

(** A snapshot in [Object.entries] order. *)
Definition ScheduleSnapshot := list (string * ScreeningRecord).

(** The own entry of [state] under [key]. *)
Fixpoint lookup (state : ScheduleSnapshot) (key : string)
  : option ScreeningRecord :=
  match state with
  | [] => None
  | (k, r) :: rest => if (k =? key)%string then Some r else lookup rest key
  end.

(** The property names that every plain object inherits from
    [Object.prototype]. *)
Definition inheritedNames : list string :=
  ["constructor"; "__defineGetter__"; "__defineSetter__"; "hasOwnProperty";
   "__lookupGetter__"; "__lookupSetter__"; "isPrototypeOf";
   "propertyIsEnumerable"; "toString"; "valueOf"; "__proto__";
   "toLocaleString"].

Definition isInherited (key : string) : bool :=
  existsb (String.eqb key) inheritedNames.

(** What reading [state[key]] gives: the own entry, or else a member of
    [Object.prototype] (a function, or the prototype itself: truthy, and
    without a [status]), or else [undefined]. *)
Inductive Member :=
| Own (record : ScreeningRecord)
| Inherited
| Undefined.

(** [state[key]] *)
Definition get (state : ScheduleSnapshot) (key : string) : Member :=
  match lookup state key with
  | Some record => Own record
  | None => if isInherited key then Inherited else Undefined
  end.

Definition keys (state : ScheduleSnapshot) : list string := map fst state.

Record FilmRule := {
  f_title : string;
  f_screeningTime : option string;
  f_autoPurchase : bool
}.

Record Payment := {
  pay_cardNumber : option string;
  pay_exp : option string;
  pay_cvc : option string;
  pay_name : option string;
  pay_zip : option string
}.

Record Settings := {
  ticketQuantity : option Z;
  notifyOnPurchaseUpdates : option bool;
  debugScreenshots : option bool;
  debugButtonDump : option bool;
  keepCheckoutOpen : option bool;
  maxSteps : option Z;
  stepWaitMs : option Z;
  waitForBuyAdditionalMs : option Z;
  payment : option Payment
}.

(** [{}] *)
Definition noSettings : Settings :=
  {| ticketQuantity := None; notifyOnPurchaseUpdates := None;
     debugScreenshots := None; debugButtonDump := None;
     keepCheckoutOpen := None; maxSteps := None; stepWaitMs := None;
     waitForBuyAdditionalMs := None; payment := None |}.

(** [{ ...settings, payment }] *)
Definition withPayment (settings : Settings) (p : option Payment) : Settings :=
  {| ticketQuantity := ticketQuantity settings;
     notifyOnPurchaseUpdates := notifyOnPurchaseUpdates settings;
     debugScreenshots := debugScreenshots settings;
     debugButtonDump := debugButtonDump settings;
     keepCheckoutOpen := keepCheckoutOpen settings;
     maxSteps := maxSteps settings; stepWaitMs := stepWaitMs settings;
     waitForBuyAdditionalMs := waitForBuyAdditionalMs settings;
     payment := p |}.

Record AutoPurchaseConfig := {
  enabled : bool;
  films : option (list FilmRule);
  settings : option Settings
}.

Record CheckoutResult := {
  success : bool;
  reason : string;
  res_url : option string
}.

(* ================================================================== *)
(** * State differ ([src/monitor.js]) *)
(* ================================================================== *)

Module Differ.

(** [{ type, ...current }] *)
Definition change (t : ChangeType) (current : ScreeningRecord) : ChangeEvent :=
  {| ev_type := t;
     ev_title := title current;
     ev_screeningTime := screeningTime current;
     ev_status := Some (status current);
     ev_buttonText := buttonText current;
     ev_url := url current |}.

(** One turn of the [for ... of Object.entries(currentState)] loop: the
    array [changes] after the turn. *)
Definition visit (previousState : ScheduleSnapshot)
    (changes : list ChangeEvent) (entry : string * ScreeningRecord)
  : list ChangeEvent :=
  let (key, current) := entry in
  match get previousState key with
  | Undefined =>
      if Status_eqb (status current) AVAILABLE
      then changes ++ [change NEW_AVAILABLE current]
      else changes
  | Own previous =>
      if Status_eqb (status previous) SOLD_OUT
         && Status_eqb (status current) AVAILABLE
      then changes ++ [change NOW_AVAILABLE current]
      else changes
  | Inherited =>
      (* [previous] is truthy and [previous.status] is [undefined] *)
      changes
  end.

Definition detectChanges (previousState currentState : ScheduleSnapshot)
  : list ChangeEvent :=
  fold_left (visit previousState) currentState [].

(** The contract of section 4.1 in its own words: which kind of event, if
    any, an entry of [current] gives rise to, by whether its key is a key
    of [previous]. *)
Definition contractKind (previous : ScheduleSnapshot)
    (entry : string * ScreeningRecord) : option ChangeType :=
  match lookup previous (fst entry), status (snd entry) with
  | None, AVAILABLE => Some NEW_AVAILABLE
  | Some p, AVAILABLE =>
      match status p with SOLD_OUT => Some NOW_AVAILABLE | _ => None end
  | _, _ => None
  end.

(** The kind of event that the code gives an entry of [current]: by what
    [previousState[key]] reads. *)
Definition eventKind (previous : ScheduleSnapshot)
    (entry : string * ScreeningRecord) : option ChangeType :=
  match get previous (fst entry), status (snd entry) with
  | Undefined, AVAILABLE => Some NEW_AVAILABLE
  | Own p, AVAILABLE =>
      match status p with SOLD_OUT => Some NOW_AVAILABLE | _ => None end
  | _, _ => None
  end.

Definition emits (previous : ScheduleSnapshot)
    (entry : string * ScreeningRecord) : bool :=
  match eventKind previous entry with Some _ => true | None => false end.

Definition eventOf (previous : ScheduleSnapshot)
    (entry : string * ScreeningRecord) : ChangeEvent :=
  change (match eventKind previous entry with
          | Some t => t
          | None => NEW_AVAILABLE
          end) (snd entry).

Definition diff_spec (previous current : ScheduleSnapshot)
  : list ChangeEvent :=
  map (eventOf previous) (filter (emits previous) current).

End Differ.

(* ================================================================== *)
(** * Auto-purchase matcher ([src/auto-purchase.js]) *)
(* ================================================================== *)

Module Matcher.

(** [(title || '').toLowerCase().trim()] *)
Definition normalizeTitle (title : option string) : string :=
  Js.trim (Js.toLowerCase (Js.orString title "")).

(** [normalizeTitle(f.title) === normalizedTitle &&
     normalizeTitle(f.screeningTime || '') === normalizedTime] *)
Definition exactMatch (normalizedTitle normalizedTime : string)
    (f : FilmRule) : bool :=
  (normalizeTitle (Some (f_title f)) =? normalizedTitle)%string
  && (normalizeTitle (Some (Js.orString (f_screeningTime f) ""))
        =? normalizedTime)%string.

(** [!f.screeningTime && normalizeTitle(f.title) === normalizedTitle] *)
Definition titleOnlyMatch (normalizedTitle : string) (f : FilmRule) : bool :=
  negb (Js.truthyString (f_screeningTime f))
  && (normalizeTitle (Some (f_title f)) =? normalizedTitle)%string.

Definition getFilmSettings (filmTitle : string)
    (screeningTime : option string) (config : option AutoPurchaseConfig)
  : option FilmRule :=
  match config with
  | None => None
  | Some config =>
      match films config with
      | None => None
      | Some films =>
          let normalizedTitle := normalizeTitle (Some filmTitle) in
          let normalizedTime :=
            normalizeTitle (Some (Js.orString screeningTime "")) in
          match find (exactMatch normalizedTitle normalizedTime) films with
          | Some exact => Some exact
          | None => find (titleOnlyMatch normalizedTitle) films
          end
      end
  end.

(** [film?.autoPurchase === true] *)
Definition shouldAutoPurchase (filmTitle : string)
    (screeningTime : option string) (config : option AutoPurchaseConfig)
  : bool :=
  match getFilmSettings filmTitle screeningTime config with
  | Some film => f_autoPurchase film
  | None => false
  end.

(** The normalized fields a rule is compared by. *)
Definition ruleTitle (f : FilmRule) : string :=
  normalizeTitle (Some (f_title f)).

Definition ruleTime (f : FilmRule) : string :=
  normalizeTitle (Some (Js.orString (f_screeningTime f) "")).

Definition queryTime (screeningTime : option string) : string :=
  normalizeTitle (Some (Js.orString screeningTime "")).

(** The films a configuration declares ([[]] when it declares none). *)
Definition rulesOf (config : option AutoPurchaseConfig) : list FilmRule :=
  match config with
  | Some c => match films c with Some fs => fs | None => [] end
  | None => []
  end.

End Matcher.

(* ================================================================== *)
(** * The page document and the scripts evaluated in it *)
(* ================================================================== *)

(** The part of a page's DOM that the [page.evaluate] scripts of
    [src/auto-purchase.js] read and write.  Elements are listed in document
    order, each with the properties the scripts look at. *)
Module Dom.

Record OptionEl := { opt_value : string; opt_textContent : string }.

Record SelectEl := {
  sel_id : string;
  sel_name : string;
  sel_className : string;
  sel_options : list OptionEl;
  sel_value : string
}.

(** [input[type="number"]] *)
Record NumberInput := {
  in_id : string;
  in_name : string;
  in_disabled : bool;
  in_max : string;
  in_value : string
}.

(** [input[type="checkbox"]] with the texts of its label ([closest('label')]
    or [label[for=id]]), its [aria-label] and its parent. *)
Record Checkbox := {
  cb_disabled : bool;
  cb_labelText : option string;
  cb_ariaLabel : option string;
  cb_parentInnerText : option string;
  cb_parentTextContent : option string;
  cb_checked : bool
}.

(** [input[type="radio"]] *)
Record Radio := {
  rd_disabled : bool;
  rd_labelText : option string;
  rd_ariaLabel : option string;
  rd_checked : bool
}.

(** An action control of a schedule row; [btn_target] is the
    [data-auto-purchase-target] attribute. *)
Record Button := { btn_textContent : string; btn_target : bool }.

(** [.sd_schedule_film_desc]: the text of its [h3], when it has one, and the
    action controls of its closest table row, when it has one. *)
Record FilmDesc := {
  fd_h3 : option string;
  fd_row : option (list Button)
}.

(** Any element, as [clickByTextContent] sees it: its text, the text of its
    own text nodes, whether it has no element children, and its closest
    clickable ancestor (or itself): whether that one is rendered
    ([offsetParent !== null]) and its text. *)
Record TextEl := {
  te_text : string;
  te_directText : string;
  te_childless : bool;
  te_clickableRendered : bool;
  te_clickableText : string
}.

(** What the scripts do to the page, in order. *)
Inductive DomEvent :=
| SelectChanged (index : nat)
| InputInput (index : nat)
| InputChanged (index : nat)
| CheckboxClicked (index : nat)
| RadioClicked (index : nat)
| ElementClicked (index : nat).

Record Document := {
  selects : list SelectEl;
  numberInputs : list NumberInput;
  checkboxes : list Checkbox;
  radios : list Radio;
  modalText : option string;
  filmDescs : list FilmDesc;
  elements : list TextEl;
  buttonTexts : list string;
  events : list DomEvent
}.

Definition emptyDocument : Document :=
  {| selects := []; numberInputs := []; checkboxes := []; radios := [];
     modalText := None; filmDescs := []; elements := []; buttonTexts := [];
     events := [] |}.

Definition setSelects (d : Document) (l : list SelectEl) : Document :=
  {| selects := l; numberInputs := numberInputs d;
     checkboxes := checkboxes d; radios := radios d;
     modalText := modalText d; filmDescs := filmDescs d;
     elements := elements d; buttonTexts := buttonTexts d;
     events := events d |}.

Definition setNumberInputs (d : Document) (l : list NumberInput) : Document :=
  {| selects := selects d; numberInputs := l;
     checkboxes := checkboxes d; radios := radios d;
     modalText := modalText d; filmDescs := filmDescs d;
     elements := elements d; buttonTexts := buttonTexts d;
     events := events d |}.

Definition setCheckboxes (d : Document) (l : list Checkbox) : Document :=
  {| selects := selects d; numberInputs := numberInputs d;
     checkboxes := l; radios := radios d;
     modalText := modalText d; filmDescs := filmDescs d;
     elements := elements d; buttonTexts := buttonTexts d;
     events := events d |}.

Definition setRadios (d : Document) (l : list Radio) : Document :=
  {| selects := selects d; numberInputs := numberInputs d;
     checkboxes := checkboxes d; radios := l;
     modalText := modalText d; filmDescs := filmDescs d;
     elements := elements d; buttonTexts := buttonTexts d;
     events := events d |}.

Definition setFilmDescs (d : Document) (l : list FilmDesc) : Document :=
  {| selects := selects d; numberInputs := numberInputs d;
     checkboxes := checkboxes d; radios := radios d;
     modalText := modalText d; filmDescs := l;
     elements := elements d; buttonTexts := buttonTexts d;
     events := events d |}.

(** [el.dispatchEvent(...)] and [el.click()] *)
Definition dispatch (d : Document) (es : list DomEvent) : Document :=
  {| selects := selects d; numberInputs := numberInputs d;
     checkboxes := checkboxes d; radios := radios d;
     modalText := modalText d; filmDescs := filmDescs d;
     elements := elements d; buttonTexts := buttonTexts d;
     events := events d ++ es |}.

(** [l] with its [i]-th element replaced. *)
Fixpoint setNth {A : Type} (i : nat) (x : A) (l : list A) : list A :=
  match l, i with
  | [], _ => []
  | _ :: r, O => x :: r
  | y :: r, S j => y :: setNth j x r
  end.

(** ** [setTicketQuantity]: the script *)

Record QuantityResult := { q_success : bool; q_quantity : option Z }.

Definition quantityFailure : QuantityResult :=
  {| q_success := false; q_quantity := None |}.

Definition quantitySet (qty : Z) : QuantityResult :=
  {| q_success := true; q_quantity := Some qty |}.

(** [o.value === String(qty) || o.textContent.trim() === String(qty)] *)
Definition offers (qty : Z) (o : OptionEl) : bool :=
  (opt_value o =? Js.ofZ qty)%string
  || (Js.trim (opt_textContent o) =? Js.ofZ qty)%string.

(** [id.includes('quantity') || name.includes('quantity') ||
     className.includes('quantity')] on the lower-cased attributes. *)
Definition isQuantitySelect (s : SelectEl) : bool :=
  Js.includes (Js.toLowerCase (sel_id s)) "quantity"
  || Js.includes (Js.toLowerCase (sel_name s)) "quantity"
  || Js.includes (Js.toLowerCase (sel_className s)) "quantity".

(** [select.value = option.value] *)
Definition choose (s : SelectEl) (o : OptionEl) : SelectEl :=
  {| sel_id := sel_id s; sel_name := sel_name s;
     sel_className := sel_className s; sel_options := sel_options s;
     sel_value := opt_value o |}.

(** [for (let qty = desired - 1; qty >= 1; qty--)]: [n] is the quantity to
    try next; the option found and its quantity. *)
Fixpoint degrade (options : list OptionEl) (n : nat) : option (OptionEl * Z) :=
  match n with
  | O => None
  | S m =>
      match find (offers (Z.of_nat n)) options with
      | Some o => Some (o, Z.of_nat n)
      | None => degrade options m
      end
  end.

(** The body of the [if] for the first quantity select: the select after
    the script and the result. *)
Definition pickQuantity (desired : Z) (s : SelectEl)
  : option SelectEl * QuantityResult :=
  match find (offers desired) (sel_options s) with
  | Some o => (Some (choose s o), quantitySet desired)
  | None =>
      match degrade (sel_options s) (Z.to_nat (desired - 1)) with
      | Some (o, qty) => (Some (choose s o), quantitySet qty)
      | None => (None, quantityFailure)
      end
  end.

(** The position of the first element satisfying [p]. *)
Fixpoint findIndex {A : Type} (p : A -> bool) (l : list A) : option (nat * A) :=
  match l with
  | [] => None
  | x :: r =>
      if p x then Some (O, x)
      else match findIndex p r with
           | Some (i, y) => Some (S i, y)
           | None => None
           end
  end.

Definition isDigit (c : ascii) : bool :=
  let n := nat_of_ascii c in ((48 <=? n) && (n <=? 57))%nat.

Fixpoint digitsValue (acc : Z) (seen : bool) (s : string) : option Z :=
  match s with
  | EmptyString => if seen then Some acc else None
  | String c r =>
      if isDigit c
      then digitsValue (10 * acc + Z.of_nat (nat_of_ascii c - 48)) true r
      else if seen then Some acc else None
  end.

(** The value of a hexadecimal digit. *)
Definition hexDigit (c : ascii) : option Z :=
  let n := nat_of_ascii c in
  if ((48 <=? n) && (n <=? 57))%nat then Some (Z.of_nat (n - 48))
  else if ((97 <=? n) && (n <=? 102))%nat then Some (Z.of_nat (n - 87))
  else if ((65 <=? n) && (n <=? 70))%nat then Some (Z.of_nat (n - 55))
  else None.

Fixpoint hexDigitsValue (acc : Z) (seen : bool) (s : string) : option Z :=
  match s with
  | EmptyString => if seen then Some acc else None
  | String c r =>
      match hexDigit c with
      | Some v => hexDigitsValue (16 * acc + v) true r
      | None => if seen then Some acc else None
      end
  end.

(** The digits of [parseInt] after the sign: with the prefix [0x] or [0X]
    the leading hexadecimal digits of the rest, else the leading decimal
    digits. *)
Definition unsignedInt (s : string) : option Z :=
  match s with
  | String "0" (String "x" r) => hexDigitsValue 0 false r
  | String "0" (String "X" r) => hexDigitsValue 0 false r
  | _ => digitsValue 0 false s
  end.

(** [parseInt(s)] with no radix: leading white space, an optional sign, an
    optional [0x], the leading digits; [None] is [NaN]. *)
Definition parseInt (s : string) : option Z :=
  match Js.trimStart s with
  | String "-" r => option_map Z.opp (unsignedInt r)
  | String "+" r => unsignedInt r
  | t => unsignedInt t
  end.

(** [input.max ? parseInt(input.max) : desired], then
    [Math.min(desired, max)]; [None] is [NaN]. *)
Definition actualQty (desired : Z) (i : NumberInput) : option Z :=
  if (in_max i =? "")%string then Some desired
  else option_map (Z.min desired) (parseInt (in_max i)).

(** The test on one number input, out of [count] of them: is it the
    quantity input, enabled, with a quantity of at least 1 to set? *)
Definition quantityInput (desired : Z) (count : nat) (i : NumberInput)
  : option Z :=
  let id := Js.toLowerCase (in_id i) in
  let name := Js.toLowerCase (in_name i) in
  if (id =? "")%string && (name =? "")%string && (1 <? count)%nat then None
  else if Js.includes id "quantity" || Js.includes name "quantity"
          || (count =? 1)%nat
  then if in_disabled i then None
       else match actualQty desired i with
            | Some qty => if 1 <=? qty then Some qty else None
            | None => None
            end
  else None.

(** [for (const input of inputs)]: the first input that takes a quantity. *)
Fixpoint firstQuantityInput (desired : Z) (count : nat) (index : nat)
    (inputs : list NumberInput) : option (nat * NumberInput * Z) :=
  match inputs with
  | [] => None
  | i :: rest =>
      match quantityInput desired count i with
      | Some qty => Some (index, i, qty)
      | None => firstQuantityInput desired count (S index) rest
      end
  end.

(** [input.value = String(qty)] *)
Definition typeValue (i : NumberInput) (v : string) : NumberInput :=
  {| in_id := in_id i; in_name := in_name i; in_disabled := in_disabled i;
     in_max := in_max i; in_value := v |}.

(** The function passed to [page.evaluate] by [setTicketQuantity]. *)
Definition setTicketQuantityScript (desired : Z) (d : Document)
  : Document * QuantityResult :=
  match findIndex isQuantitySelect (selects d) with
  | Some (i, s) =>
      match pickQuantity desired s with
      | (Some s', r) =>
          (dispatch (setSelects d (setNth i s' (selects d)))
                    [SelectChanged i], r)
      | (None, r) => (d, r)
      end
  | None =>
      match firstQuantityInput desired (List.length (numberInputs d)) O
                               (numberInputs d) with
      | Some (i, input, qty) =>
          (dispatch
             (setNumberInputs d
                (setNth i (typeValue input (Js.ofZ qty)) (numberInputs d)))
             [InputInput i; InputChanged i],
           quantitySet qty)
      | None => (d, quantityFailure)
      end
  end.

(** ** [checkTermsCheckboxes]: the script *)

Definition agreementPatterns : list string :=
  ["agree"; "terms"; "conditions"; "policy"; "purchasing"].

(** [[a, b, ...].filter(Boolean)] *)
Definition present (l : list (option string)) : list string :=
  flat_map (fun o => if Js.truthyString o
                     then match o with Some s => [s] | None => [] end
                     else []) l.

Definition textSources (box : Checkbox) : string :=
  Js.toLowerCase
    (String.concat " "
       (present [cb_labelText box; cb_ariaLabel box;
                 cb_parentInnerText box; cb_parentTextContent box])).

Definition check (box : Checkbox) : Checkbox :=
  {| cb_disabled := cb_disabled box; cb_labelText := cb_labelText box;
     cb_ariaLabel := cb_ariaLabel box;
     cb_parentInnerText := cb_parentInnerText box;
     cb_parentTextContent := cb_parentTextContent box;
     cb_checked := true |}.

(** Does [boxes.forEach] click this box? *)
Definition toCheck (box : Checkbox) : bool :=
  negb (cb_disabled box)
  && Js.includesAny (textSources box) agreementPatterns
  && negb (cb_checked box).

(** [boxes.forEach(...)] from position [index] on: the boxes and the
    clicks. *)
Fixpoint checkBoxes (index : nat) (boxes : list Checkbox)
  : list Checkbox * list DomEvent :=
  match boxes with
  | [] => ([], [])
  | box :: rest =>
      let (rest', clicks) := checkBoxes (S index) rest in
      if toCheck box then (check box :: rest', CheckboxClicked index :: clicks)
      else (box :: rest', clicks)
  end.

Definition checkTermsCheckboxesScript (d : Document) : Document * bool :=
  let (boxes, clicks) := checkBoxes O (checkboxes d) in
  (dispatch (setCheckboxes d boxes) clicks, existsb toCheck (checkboxes d)).

(** ** [selectSavedPayment]: the script *)

Definition cardPatterns : list string :=
  ["VISA"; "MASTERCARD"; "AMEX"; "AMERICAN EXPRESS"; "DISCOVER"; "ENDING";
   "****"; "CARD"].

(** [(label?.innerText || radio.getAttribute('aria-label') || '')
     .toUpperCase()] *)
Definition radioLabel (r : Radio) : string :=
  Js.toUpperCase (Js.orString (Js.orElse (rd_labelText r) (rd_ariaLabel r)) "").

Definition isSavedCard (r : Radio) : bool :=
  negb (rd_disabled r) && Js.includesAny (radioLabel r) cardPatterns.

Definition pick (r : Radio) : Radio :=
  {| rd_disabled := rd_disabled r; rd_labelText := rd_labelText r;
     rd_ariaLabel := rd_ariaLabel r; rd_checked := true |}.

Definition selectSavedPaymentScript (d : Document) : Document * bool :=
  match findIndex isSavedCard (radios d) with
  | Some (i, r) =>
      if rd_checked r then (d, true)
      else (dispatch (setRadios d (setNth i (pick r) (radios d)))
                     [RadioClicked i], true)
  | None => (d, false)
  end.

(** ** [detectBlockingError]: the script *)

Definition errorPatterns : list string :=
  ["no longer available"; "payment failed"; "declined"; "try again"; "error"].

Definition detectBlockingErrorScript (d : Document) : Document * bool :=
  match modalText d with
  | None => (d, false)
  | Some text => (d, Js.includesAny (Js.toLowerCase text) errorPatterns)
  end.

(** ** [clickByTextContent]: the script *)

Record ClickResult := { clicked : bool; clickedText : string }.

Definition holdsText (searchLower : string) (el : TextEl) : bool :=
  (Js.includes (Js.toLowerCase (te_directText el)) searchLower
   || (Js.includes (Js.toLowerCase (te_text el)) searchLower
       && te_childless el))
  && te_clickableRendered el.

Definition clickByTextContentScript (search : string) (d : Document)
  : Document * ClickResult :=
  match findIndex (holdsText (Js.toLowerCase search)) (elements d) with
  | Some (i, el) =>
      (dispatch d [ElementClicked i],
       {| clicked := true;
          clickedText := String.substring 0 50 (Js.trim (te_clickableText el))
       |})
  | None => (d, {| clicked := false; clickedText := "" |})
  end.

(** ** [dumpVisibleButtons]: the script *)

Definition dumpVisibleButtonsScript (d : Document) : Document * list string :=
  (d, firstn 20 (filter (fun t => negb (t =? "")%string)
                        (map Js.trim (buttonTexts d)))).

(** ** [clickOrderTicketsButton]: the script *)

(** [text.includes('ORDER') || text.includes('GET') ||
     (text.includes('BUY') && text.includes('TICKET'))] on the trimmed,
    upper-cased label. *)
Definition isOrderControl (btn : Button) : bool :=
  let text := Js.toUpperCase (Js.trim (btn_textContent btn)) in
  Js.includes text "ORDER" || Js.includes text "GET"
  || (Js.includes text "BUY" && Js.includes text "TICKET").

(** [filmTitle.toLowerCase().includes(title.toLowerCase())] *)
Definition titleContains (filmTitle : string) (h3 : string) : bool :=
  Js.includes (Js.toLowerCase (Js.trim h3)) (Js.toLowerCase filmTitle).

Definition mark (btn : Button) : Button :=
  {| btn_textContent := btn_textContent btn; btn_target := true |}.

(** The row of a description of the film, with the position of its first
    order control. *)
Definition orderControl (filmTitle : string) (desc : FilmDesc)
  : option (list Button * nat * Button) :=
  match fd_h3 desc with
  | None => None
  | Some h3 =>
      if titleContains filmTitle h3 then
        match fd_row desc with
        | None => None
        | Some row =>
            match findIndex isOrderControl row with
            | Some (j, btn) => Some (row, j, btn)
            | None => None
            end
        end
      else None
  end.

Definition hasOrderControl (filmTitle : string) (desc : FilmDesc) : bool :=
  match orderControl filmTitle desc with Some _ => true | None => false end.

Definition markTarget (filmTitle : string) (desc : FilmDesc) : FilmDesc :=
  match orderControl filmTitle desc with
  | Some (row, j, btn) =>
      {| fd_h3 := fd_h3 desc; fd_row := Some (setNth j (mark btn) row) |}
  | None => desc
  end.

Definition clickOrderTicketsScript (filmTitle : string) (d : Document)
  : Document * bool :=
  match findIndex (hasOrderControl filmTitle) (filmDescs d) with
  | Some (i, desc) =>
      (setFilmDescs d (setNth i (markTarget filmTitle desc) (filmDescs d)),
       true)
  | None => (d, false)
  end.

End Dom.

(* ================================================================== *)
(** * The world of the program: browser, file system, clock, console *)
(* ================================================================== *)

Module Runtime.

(** A thrown [Error]. *)
Record Exn := { message : string }.

Definition Page := nat.
Definition Frame := nat.

(** Where a locator searches: a page or one of its frames. *)
Inductive Context := OnPage (p : Page) | OnFrame (p : Page) (f : Frame).

(** [context.locator(selector, { hasText })]; a text pattern is kept as the
    source of its regular expression. *)
Record Locator := {
  within : Context;
  selector : string;
  hasText : option string
}.

(** The asynchronous calls the program makes to Playwright, and
    [readFileSync], by the type of their result.  Each may change the world and
    may throw. *)
Inductive Op : Type -> Type :=
| WaitForLoadState (p : Page) : Op unit
| WaitForTimeout (p : Page) (ms : Z) : Op unit
| Goto (p : Page) (address : string) : Op unit
| Count (l : Locator) : Op nat
| IsVisible (l : Locator) (nth : nat) : Op bool
| IsDisabled (l : Locator) (nth : nat) : Op bool
| InnerText (l : Locator) (nth : nat) : Op string
| Click (l : Locator) (nth : nat) : Op unit
| Fill (l : Locator) (nth : nat) (value : string) : Op unit
| ClickSelector (p : Page) (sel : string) : Op unit
| WaitForPage (p : Page) : Op Page
| GetDocument (p : Page) : Op Dom.Document
| SetDocument (p : Page) (d : Dom.Document) : Op unit
| Screenshot (p : Page) (path : string) : Op unit
| Close (p : Page) : Op unit
| ReadFileSync (path : string) : Op string.

(** The environment the program runs in.  [page.url()], [page.frames()],
    [page.mainFrame()], [Date.now()] and [existsSync(path)] read the world as
    it is.
    [JSON_parse] gives the parsed
    value as the program reads it, through its properties: [None] is
    [null], whose properties cannot be read; any other value is seen as the
    configuration object with the properties it has. *)
Record Env := {
  World : Type;
  call : forall A : Type, Op A -> World -> World * (Exn + A);
  urlOf : World -> Page -> string;
  framesOf : World -> Page -> list Frame;
  mainFrameOf : World -> Page -> Frame;
  now : World -> Z;
  fileExists : World -> string -> bool;
  processEnv : string -> option string;
  JSON_parse : string -> Exn + option AutoPurchaseConfig
}.

(** The lines written by [console.log] and [console.error]. *)
Inductive Log :=
| LogClicked (label text : string)
| LogClickedAfterWait (label : string)
| LogButtons (label : string) (items : list string)
| LogCheckedTerms
| LogOnlyAvailable (quantity requested : Z)
| LogSetQuantity (quantity : Z)
| LogFilledPayment
| LogLookingForBuyAdditional
| LogCheckoutModalOpen
| LogNoBuyAdditional
| LogCheckoutStep (step : Z)
| LogPurchaseStart (filmTitle : string)
| LogScreening (screeningTime : string)
| LogStep1
| LogStep2
| LogPurchaseError (msg : string)
| LogConfigError (msg : string)
| LogTriggered (filmTitle : string)
| LogPurchased (why : string)
| LogPurchasedUrl (address : string)
| LogPurchaseFailed (why : string).

Record St (E : Env) := {
  world : World E;
  console : list Log
}.

(** How a computation ends: with a value, with an exception, or not at all
    ([Spin]: a [while (true)] loop that is still turning when its fuel is
    spent). *)
Inductive Outcome (A : Type) :=
| Ret (a : A)
| Throw (e : Exn)
| Spin.

Arguments Ret {A} a.
Arguments Throw {A} e.
Arguments Spin {A}.

Section Monad.

Variable E : Env.

Definition M (A : Type) : Type := St E -> St E * Outcome A.

Definition ret {A : Type} (a : A) : M A := fun s => (s, Ret a).

Definition bind {A B : Type} (m : M A) (k : A -> M B) : M B :=
  fun s =>
    match m s with
    | (s', Ret a) => k a s'
    | (s', Throw e) => (s', Throw e)
    | (s', Spin) => (s', Spin)
    end.

Definition throw {A : Type} (e : Exn) : M A := fun s => (s, Throw e).

Definition spin {A : Type} : M A := fun s => (s, Spin).

(** One call to the world. *)
Definition perform {A : Type} (op : Op A) : M A :=
  fun s =>
    let (w, r) := call E op (world s) in
    ({| world := w; console := console s |},
     match r with inl e => Throw e | inr a => Ret a end).

Definition log (line : Log) : M unit :=
  fun s => ({| world := world s; console := console s ++ [line] |}, Ret tt).

(** [Date.now()] *)
Definition dateNow : M Z := fun s => (s, Ret (now E (world s))).

(** [page.url()] *)
Definition pageUrl (p : Page) : M string :=
  fun s => (s, Ret (urlOf E (world s) p)).

(** [page.frames()] *)
Definition pageFrames (p : Page) : M (list Frame) :=
  fun s => (s, Ret (framesOf E (world s) p)).

(** [existsSync(path)] *)
Definition existsSync (path : string) : M bool :=
  fun s => (s, Ret (fileExists E (world s) path)).

(** [page.mainFrame()] *)
Definition pageMainFrame (p : Page) : M Frame :=
  fun s => (s, Ret (mainFrameOf E (world s) p)).

(** [try { m; k } catch (e) { h }], where only [m] is inside the [try]. *)
Definition tryThen {A B : Type} (m : M A) (h : Exn -> M B) (k : A -> M B)
  : M B :=
  fun s =>
    match m s with
    | (s', Ret a) => k a s'
    | (s', Throw e) => h e s'
    | (s', Spin) => (s', Spin)
    end.

(** [try { m } catch (e) { h }] *)
Definition tryCatch {A : Type} (m : M A) (h : Exn -> M A) : M A :=
  tryThen m h ret.

(** [promise.catch(() => d)] *)
Definition orDefault {A : Type} (m : M A) (d : A) : M A :=
  tryCatch m (fun _ => ret d).

(** [page.evaluate(script)]: the script runs against the document of the
    page, in one piece: the page hands its document to the script and is
    left with the document the script has made of it, changed or not. *)
Definition evaluate {A : Type} (p : Page)
    (script : Dom.Document -> Dom.Document * A) : M A :=
  bind (perform (GetDocument p)) (fun d =>
  let (d', a) := script d in
  bind (perform (SetDocument p d')) (fun _ => ret a)).

(** [acted || await action]: the action runs only while nothing acted. *)
Definition orAwait (acted : bool) (action : M bool) : M bool :=
  if acted then ret true else action.

End Monad.

Arguments ret {E A} a.
Arguments bind {E A B} m k.
Arguments throw {E A} e.
Arguments spin {E A}.
Arguments perform {E A} op.
Arguments log {E} line.
Arguments dateNow {E}.
Arguments pageUrl {E} p.
Arguments pageFrames {E} p.
Arguments pageMainFrame {E} p.
Arguments existsSync {E} path.
Arguments tryThen {E A B} m h k.
Arguments tryCatch {E A} m h.
Arguments orDefault {E A} m d.
Arguments evaluate {E A} p script.
Arguments orAwait {E} acted action.

End Runtime.

Declare Scope js_scope.
Delimit Scope js_scope with js.
Notation "x <- m ;; k" := (Runtime.bind m (fun x => k))
  (at level 100, m at next level, right associativity) : js_scope.
Notation "m ;; k" := (Runtime.bind m (fun _ => k))
  (at level 100, right associativity) : js_scope.

(* ================================================================== *)
(** * Checkout automation engine ([src/auto-purchase.js]) *)
(* ================================================================== *)

Module Engine.

Import Runtime.
Local Open Scope js_scope.

(** [resolve('./auto-purchase.json')], relative to the working directory. *)
Definition AUTO_PURCHASE_PATH : string := "./auto-purchase.json".

(** A quoted attribute value of a selector. *)
Definition q (value : string) : string :=
  String (ascii_of_nat 34) (value ++ String (ascii_of_nat 34) EmptyString).

(** A selector that ends in a quoted attribute value: [open"value"]]. *)
Definition sel (open value : string) : string := open ++ q value ++ "]".

Definition BUTTON_SELECTOR : string :=
  "button, [role=" ++ q "button" ++ "], a, input[type=" ++ q "button"
  ++ "], input[type=" ++ q "submit" ++ "]".

(** [TEXT_PATTERNS], each pattern by its source; all are case-insensitive. *)
Definition TEXT_PATTERNS_buyAdditional : list string :=
  ["buy\s+additional\s+tickets"; "buy\s+additional"; "add\s+tickets?";
   "add\s+another"].

Definition TEXT_PATTERNS_continue : list string :=
  ["add\s+to\s+cart"; "continue"; "next"; "checkout"; "proceed"; "review"].

Definition TEXT_PATTERNS_final : list string :=
  ["complete\s+purchase"; "place\s+order"; "confirm\s+purchase"; "pay\s+now";
   "submit\s+order"; "buy\s+now"; "finish"].

(** [/sold\s*out/i.test(text)] *)
Fixpoint soldOutAt (lower : string) : bool :=
  (String.prefix "sold" lower
   && String.prefix "out"
        (Js.trimStart (String.substring 4 (String.length lower) lower)))
  || match lower with
     | EmptyString => false
     | String _ r => soldOutAt r
     end.

Definition isSoldOut (text : string) : bool := soldOutAt (Js.toLowerCase text).

Definition isAlnum (c : ascii) : bool :=
  let n := nat_of_ascii c in
  (((97 <=? n) && (n <=? 122)) || ((48 <=? n) && (n <=? 57)))%nat.

(** [.replace(/[^a-z0-9]+/g, '-')]; [inRun] tells that the last character
    read was replaced. *)
Fixpoint dashRuns (inRun : bool) (s : string) : string :=
  match s with
  | EmptyString => EmptyString
  | String c r =>
      if isAlnum c then String c (dashRuns false r)
      else if inRun then dashRuns true r
      else String "-" (dashRuns true r)
  end.

Fixpoint dropDashes (s : string) : string :=
  match s with
  | String "-" r => dropDashes r
  | _ => s
  end.

Fixpoint dropEndDashes (s : string) : string :=
  match s with
  | EmptyString => EmptyString
  | String c r =>
      match dropEndDashes r with
      | EmptyString =>
          if Ascii.eqb c "-" then EmptyString else String c EmptyString
      | r' => String c r'
      end
  end.

(** [normalizeTitle(title).replace(/[^a-z0-9]+/g, '-')
     .replace(/^-+|-+$/g, '').slice(0, 48)] *)
Definition slugify (title : string) : string :=
  String.substring 0 48
    (dropEndDashes (dropDashes
       (dashRuns false (Matcher.normalizeTitle (Some title))))).

Section WithEnv.

Variable E : Env.

Abbreviation M := (Runtime.M E).

(** [getPaymentConfig]: the card from the settings, else from the process
    environment. *)
Definition getPaymentConfig (settings : Settings) : Payment :=
  let payment :=
    match payment settings with
    | Some p => p
    | None => {| pay_cardNumber := None; pay_exp := None; pay_cvc := None;
                 pay_name := None; pay_zip := None |}
    end in
  {| pay_cardNumber :=
       Js.orElse (pay_cardNumber payment) (processEnv E "SUNDANCE_CARD_NUMBER");
     pay_exp := Js.orElse (pay_exp payment) (processEnv E "SUNDANCE_CARD_EXP");
     pay_cvc := Js.orElse (pay_cvc payment) (processEnv E "SUNDANCE_CARD_CVC");
     pay_name := Js.orElse (pay_name payment) (processEnv E "SUNDANCE_CARD_NAME");
     pay_zip :=
       Js.orElse (Js.orElse (pay_zip payment)
                            (processEnv E "SUNDANCE_BILLING_ZIP"))
                 (processEnv E "SUNDANCE_BILLING_POSTAL") |}.

(** [loadAutoPurchaseConfig] *)
Definition loadAutoPurchaseConfig : M (option AutoPurchaseConfig) :=
  found <- existsSync AUTO_PURCHASE_PATH;;
  if negb found then ret None
  else
    tryCatch
      (text <- perform (ReadFileSync AUTO_PURCHASE_PATH);;
       match JSON_parse E text with
       | inl error => throw error
       | inr None =>
           throw {| message :=
             "Cannot read properties of null (reading 'enabled')" |}
       | inr (Some config) =>
           if negb (enabled config) then ret None else ret (Some config)
       end)
      (fun error => log (LogConfigError (message error));; ret None).

(** [waitForPageSettled(page, waitMs = 1500)] *)
Definition waitForPageSettled (page : Page) (waitMs : Z) : M unit :=
  orDefault (perform (WaitForLoadState page)) tt;;
  perform (WaitForTimeout page waitMs).

(** The inner loop of [clickFirstMatching]: [for (let i = 0; i <
    Math.min(count, 6); i++)], over the positions still to visit. *)
Fixpoint clickFirstTarget (locator : Locator) (label : string) (quiet : bool)
    (positions : list nat) : M bool :=
  match positions with
  | [] => ret false
  | i :: rest =>
      visible <- orDefault (perform (IsVisible locator i)) false;;
      if negb visible then clickFirstTarget locator label quiet rest
      else
        disabled <- orDefault (perform (IsDisabled locator i)) false;;
        if disabled then clickFirstTarget locator label quiet rest
        else
          raw <- orDefault (perform (InnerText locator i)) "";;
          let text := Js.trim raw in
          if negb (text =? "")%string && isSoldOut text
          then clickFirstTarget locator label quiet rest
          else
            perform (Click locator i);;
            (if quiet then ret tt else log (LogClicked label text));;
            ret true
  end.

Fixpoint clickFirstMatching (context : Context) (patterns : list string)
    (label : string) (quiet : bool) : M bool :=
  match patterns with
  | [] => ret false
  | pattern :: rest =>
      let locator := {| within := context; selector := BUTTON_SELECTOR;
                        hasText := Some pattern |} in
      count <- orDefault (perform (Count locator)) O;;
      done <- clickFirstTarget locator label quiet (seq 0 (Nat.min count 6));;
      if done then ret true
      else clickFirstMatching context rest label quiet
  end.

(** [[page, ...page.frames().filter(f => f !== page.mainFrame())]] *)
Definition contexts (page : Page) : M (list Context) :=
  frames <- pageFrames page;;
  main <- pageMainFrame page;;
  ret (OnPage page
       :: map (OnFrame page) (filter (fun f => negb (f =? main)%nat) frames)).

(** [for (const context of contexts())] *)
Fixpoint clickInContexts (ctxs : list Context) (patterns : list string)
    (label : string) (quiet : bool) : M bool :=
  match ctxs with
  | [] => ret false
  | context :: rest =>
      done <- clickFirstMatching context patterns label quiet;;
      if done then ret true else clickInContexts rest patterns label quiet
  end.

(** The [while (true)] loop of [clickFirstMatchingAnyContext]; [fuel] bounds
    the number of turns the model follows. *)
Fixpoint pollContexts (fuel : nat) (page : Page) (patterns : list string)
    (label : string) (waitMs deadline : Z) : M bool :=
  match fuel with
  | O => spin
  | S fuel' =>
      ctxs <- contexts page;;
      done <- clickInContexts ctxs patterns label (0 <? waitMs);;
      if done then
        (if 0 <? waitMs then log (LogClickedAfterWait label) else ret tt);;
        ret true
      else
        t <- dateNow;;
        if deadline <=? t then ret false
        else
          perform (WaitForTimeout page 500);;
          pollContexts fuel' page patterns label waitMs deadline
  end.

(** [clickFirstMatchingAnyContext(page, patterns, label, { waitMs })] *)
Definition clickFirstMatchingAnyContext (fuel : nat) (page : Page)
    (patterns : list string) (label : string) (optionsWaitMs : option Z)
  : M bool :=
  let waitMs := Js.orZ optionsWaitMs 0 in
  t <- dateNow;;
  pollContexts fuel page patterns label waitMs (t + waitMs).

Definition clickByTextContent (page : Page) (searchText label : string)
  : M bool :=
  r <- evaluate page (Dom.clickByTextContentScript searchText);;
  if Dom.clicked r
  then log (LogClicked label (Dom.clickedText r));; ret true
  else ret false.

Definition dumpVisibleButtons (page : Page) (label : string) : M unit :=
  items <- evaluate page Dom.dumpVisibleButtonsScript;;
  match items with
  | [] => ret tt
  | _ => log (LogButtons label items)
  end.

Definition checkTermsCheckboxes (page : Page) : M bool :=
  checked <- evaluate page Dom.checkTermsCheckboxesScript;;
  (if checked then log LogCheckedTerms else ret tt);;
  ret checked.

(** [setTicketQuantity]; [!quantity || quantity <= 1] leaves at once. *)
Definition setTicketQuantity (page : Page) (quantity : option Z) : M bool :=
  match quantity with
  | None => ret false
  | Some quantity =>
      if (quantity =? 0) || (quantity <=? 1) then ret false
      else
        result <- evaluate page (Dom.setTicketQuantityScript quantity);;
        (if Dom.q_success result then
           match Dom.q_quantity result with
           | Some set =>
               if set <? quantity
               then log (LogOnlyAvailable set quantity);;
                    log (LogSetQuantity set)
               else log (LogSetQuantity set)
           | None => ret tt
           end
         else ret tt);;
        ret (Dom.q_success result)
  end.

Definition selectSavedPayment (page : Page) : M bool :=
  evaluate page Dom.selectSavedPaymentScript.

(** [fillInputs(frame, selectors, value)] *)
Fixpoint fillInputs (frame : Context) (selectors : list string)
    (value : string) : M bool :=
  match selectors with
  | [] => ret false
  | sel :: rest =>
      let locator := {| within := frame; selector := sel; hasText := None |} in
      count <- orDefault (perform (Count locator)) O;;
      if (count =? 0)%nat then fillInputs frame rest value
      else
        visible <- orDefault (perform (IsVisible locator 0)) false;;
        if negb visible then fillInputs frame rest value
        else orDefault (perform (Fill locator 0 value)) tt;; ret true
  end.

Definition cardNumberSelectors : list string :=
  [sel "input[name=" "cardnumber";
   sel "input[autocomplete=" "cc-number";
   sel "input[aria-label*=" "Card number";
   sel "input[placeholder*=" "Card number";
   sel "input[placeholder*=" "Card Number"].

Definition expSelectors : list string :=
  [sel "input[name=" "exp-date";
   sel "input[autocomplete=" "cc-exp";
   sel "input[aria-label*=" "Expiry";
   sel "input[aria-label*=" "Expiration";
   sel "input[placeholder*=" "MM";
   sel "input[placeholder*=" "MM/YY"].

Definition cvcSelectors : list string :=
  [sel "input[name=" "cvc";
   sel "input[name=" "cvv";
   sel "input[autocomplete=" "cc-csc";
   sel "input[aria-label*=" "CVC";
   sel "input[aria-label*=" "CVV";
   sel "input[placeholder*=" "CVC"].

Definition nameSelectors : list string :=
  [sel "input[name*=" "name";
   sel "input[autocomplete=" "cc-name";
   sel "input[aria-label*=" "Name on card";
   sel "input[placeholder*=" "Name"].

Definition zipSelectors : list string :=
  [sel "input[name*=" "zip";
   sel "input[name*=" "postal";
   sel "input[autocomplete=" "postal-code";
   sel "input[aria-label*=" "ZIP";
   sel "input[placeholder*=" "ZIP";
   sel "input[placeholder*=" "Postal"].

(** [if (value) { filled = await fillInputs(...); filledAny = filledAny ||
    filled }] *)
Definition fillField (frame : Context) (selectors : list string)
    (value : option string) (filledAny : bool) : M bool :=
  if Js.truthyString value then
    filled <- fillInputs frame selectors (Js.orString value "");;
    ret (filledAny || filled)
  else ret filledAny.

(** [for (const frame of frames)] of [fillCardDetails] *)
Fixpoint fillCardFrames (page : Page) (frames : list Frame)
    (payment : Payment) (filledAny : bool) : M bool :=
  match frames with
  | [] => ret filledAny
  | frame :: rest =>
      a <- fillField (OnFrame page frame) cardNumberSelectors
             (pay_cardNumber payment) filledAny;;
      b <- fillField (OnFrame page frame) expSelectors (pay_exp payment) a;;
      c <- fillField (OnFrame page frame) cvcSelectors (pay_cvc payment) b;;
      fillCardFrames page rest payment c
  end.

Definition fillCardDetails (page : Page) (payment : Payment) : M bool :=
  if negb (Js.truthyString (pay_cardNumber payment))
     && negb (Js.truthyString (pay_exp payment))
     && negb (Js.truthyString (pay_cvc payment))
  then ret false
  else
    frames <- pageFrames page;;
    a <- fillCardFrames page frames payment false;;
    b <- fillField (OnPage page) nameSelectors (pay_name payment) a;;
    filledAny <- fillField (OnPage page) zipSelectors (pay_zip payment) b;;
    (if filledAny then log LogFilledPayment else ret tt);;
    ret filledAny.

(** [page.locator(selector).first().isVisible().catch(() => false)] *)
Definition firstVisible (page : Page) (sel : string) : M bool :=
  orDefault
    (perform (IsVisible {| within := OnPage page; selector := sel;
                           hasText := None |} 0))
    false.

Definition detectLogin (page : Page) : M bool :=
  address <- pageUrl page;;
  if Js.includesAny (Js.toLowerCase address)
       ["login"; "sign-in"; "signin"; "auth"]
  then ret true
  else
    hasPassword <- firstVisible page (sel "input[type=" "password");;
    if hasPassword then ret true
    else firstVisible page "text=/sign in|log in/i".

Definition detectQueue (page : Page) : M bool :=
  address <- pageUrl page;;
  if Js.includesAny (Js.toLowerCase address) ["queue"; "waiting-room"]
  then ret true
  else firstVisible page "text=/waiting room|queue/i".

Definition detectConfirmation (page : Page) : M bool :=
  address <- pageUrl page;;
  if Js.includesAny (Js.toLowerCase address)
       ["confirmation"; "receipt"; "thank-you"; "order-complete";
        "purchase-complete"]
  then ret true
  else
    firstVisible page
      "text=/thank you|order confirmed|purchase complete|confirmation number|receipt/i".

Definition detectBlockingError (page : Page) : M bool :=
  evaluate page Dom.detectBlockingErrorScript.

(** The [helpers] argument of [runCheckoutFlow]. *)
Record Helpers := {
  debug : bool;
  screenshot : string -> M unit
}.

Definition queueFailure (address : string) : CheckoutResult :=
  {| success := false; reason := "Queue/waiting room encountered";
     res_url := Some address |}.

Definition loginFailure (address : string) : CheckoutResult :=
  {| success := false; reason := "Login required during checkout";
     res_url := Some address |}.

Definition purchaseConfirmed (address : string) : CheckoutResult :=
  {| success := true; reason := "Purchase confirmed";
     res_url := Some address |}.

Definition modalFailure (address : string) : CheckoutResult :=
  {| success := false; reason := "Checkout error in modal";
     res_url := Some address |}.

Definition flowIncomplete (address : string) : CheckoutResult :=
  {| success := false; reason := "Checkout flow incomplete";
     res_url := Some address |}.

(** [return { ..., url: page.url() }] out of the loop. *)
Definition leave (page : Page) (result : string -> CheckoutResult)
  : M (option CheckoutResult) :=
  address <- pageUrl page;;
  ret (Some (result address)).

(** The actions of one turn of the main loop, once the safety checks have
    passed; [Some result] is a [return] out of the loop. *)
Definition checkoutActions (fuel : nat) (page : Page) (settings : Settings)
    (helpers : option Helpers) (stepWaitMs step : Z)
  : M (option CheckoutResult) :=
  (* Step A: the terms checkbox *)
  actedA <- orAwait false (checkTermsCheckboxes page);;
  (* Step B: the final purchase button *)
  final <- clickFirstMatchingAnyContext fuel page TEXT_PATTERNS_final
             "Complete purchase" None;;
  afterB <-
    (if final then
       waitForPageSettled page (stepWaitMs + 1000);;
       isConfirmed <- detectConfirmation page;;
       if isConfirmed then
         address <- pageUrl page;;
         ret (inl (purchaseConfirmed address))
       else ret (inr true)
     else ret (inr actedA));;
  match afterB with
  | inl result => ret (Some result)
  | inr actedB =>
      actedC <- orAwait actedB
                  (setTicketQuantity page (ticketQuantity settings));;
      actedD <- orAwait actedC (selectSavedPayment page);;
      acted <- orAwait actedD
                 (clickFirstMatchingAnyContext fuel page
                    TEXT_PATTERNS_continue "Continue" None);;
      if negb acted then
        (if match debugScreenshots settings with Some b => b | None => false end
            || match debugButtonDump settings with Some b => b | None => false end
         then dumpVisibleButtons page
                ("Step " ++ Js.ofZ step ++ " - no action taken")
         else ret tt);;
        perform (WaitForTimeout page 1500);;
        ret None
      else
        waitForPageSettled page stepWaitMs;;
        match helpers with
        | Some h =>
            (if debug h then screenshot h ("step-" ++ Js.ofZ step)
             else ret tt);;
            ret None
        | None => ret None
        end
  end.

(** One turn of the main loop: the safety checks, then the actions. *)
Definition checkoutStep (fuel : nat) (page : Page) (settings : Settings)
    (helpers : option Helpers) (stepWaitMs step : Z)
  : M (option CheckoutResult) :=
  log (LogCheckoutStep step);;
  inQueue <- detectQueue page;;
  if inQueue then leave page queueFailure
  else
    atLogin <- detectLogin page;;
    if atLogin then leave page loginFailure
    else
      isConfirmed <- detectConfirmation page;;
      if isConfirmed then leave page purchaseConfirmed
      else
        blocked <- detectBlockingError page;;
        if blocked then leave page modalFailure
        else checkoutActions fuel page settings helpers stepWaitMs step.

(** [for (let step = 1; step <= maxSteps; step++)], with [remaining] turns
    to go from [step] on; [None] when the loop runs out. *)
Fixpoint checkoutLoop (fuel : nat) (page : Page) (settings : Settings)
    (helpers : option Helpers) (stepWaitMs : Z) (remaining : nat) (step : Z)
  : M (option CheckoutResult) :=
  match remaining with
  | O => ret None
  | S n =>
      returned <- checkoutStep fuel page settings helpers stepWaitMs step;;
      match returned with
      | Some result => ret (Some result)
      | None =>
          checkoutLoop fuel page settings helpers stepWaitMs n (step + 1)
      end
  end.

(** The part of [runCheckoutFlow] before the main loop. *)
Definition openCheckout (fuel : nat) (page : Page) (stepWaitMs
    waitForBuyAdditionalMs : Z) : M unit :=
  log LogLookingForBuyAdditional;;
  perform (WaitForTimeout page 1500);;
  byText <- clickByTextContent page "buy additional tickets"
              "Buy additional tickets";;
  clickedBuyAdditional <-
    (if negb byText then
       clickFirstMatchingAnyContext fuel page TEXT_PATTERNS_buyAdditional
         "Buy additional tickets" (Some waitForBuyAdditionalMs)
     else ret byText);;
  if clickedBuyAdditional then
    waitForPageSettled page stepWaitMs;;
    log LogCheckoutModalOpen
  else log LogNoBuyAdditional.

Definition runCheckoutFlow (fuel : nat) (page : Page) (settings : Settings)
    (helpers : option Helpers) : M CheckoutResult :=
  let maxSteps := Js.orZ (maxSteps settings) 12 in
  let stepWaitMs := Js.orZ (stepWaitMs settings) 1800 in
  let waitForBuyAdditionalMs :=
    Js.orZ (waitForBuyAdditionalMs settings) 15000 in
  let payment := getPaymentConfig settings in
  openCheckout fuel page stepWaitMs waitForBuyAdditionalMs;;
  returned <- checkoutLoop fuel page settings helpers stepWaitMs
                (Z.to_nat maxSteps) 1;;
  match returned with
  | Some result => ret result
  | None =>
      address <- pageUrl page;;
      ret (flowIncomplete address)
  end.

Inductive OrderResult :=
| OrderFailed (why : string)
| OrderReady (purchasePage : Page) (openedNewPage : bool).

Definition clickOrderTicketsButton (page : Page) (filmTitle : string)
  : M OrderResult :=
  found <- evaluate page (Dom.clickOrderTicketsScript filmTitle);;
  if negb found then ret (OrderFailed "Order tickets button not found")
  else
    perform (ClickSelector page
               (sel "[data-auto-purchase-target=" "true"));;
    popup <- orDefault (p <- perform (WaitForPage page);; ret (Some p)) None;;
    match popup with
    | Some purchasePage =>
        orDefault (perform (WaitForLoadState purchasePage)) tt;;
        ret (OrderReady purchasePage true)
    | None => ret (OrderReady page false)
    end.

Definition failed (why : string) : CheckoutResult :=
  {| success := false; reason := why; res_url := None |}.

(** The closure [screenshot] of [attemptPurchase], on the page that
    [currentPage] holds. *)
Definition debugScreenshot (debug : bool) (slug : string) (runId : Z)
    (currentPage : Page) (label : string) : M unit :=
  if negb debug then ret tt
  else
    orDefault
      (perform (Screenshot currentPage
                  ("auto-purchase-" ++ slug ++ "-" ++ Js.ofZ runId ++ "-"
                   ++ label ++ ".png")))
      tt.

(** The [catch] block of [attemptPurchase], on the page that [currentPage]
    holds when the exception arrives. *)
Definition purchaseError (runId : Z) (currentPage : Page) (error : Exn)
  : M CheckoutResult :=
  log (LogPurchaseError (message error));;
  orDefault
    (perform (Screenshot currentPage
                ("auto-purchase-error-" ++ Js.ofZ runId ++ ".png")))
    tt;;
  ret (failed (message error)).

(** The [try] block of [attemptPurchase] from [const purchasePage] on. *)
Definition checkout (fuel : nat) (page : Page) (filmTitle : string)
    (settings : Settings) (debug : bool) (slug : string) (runId : Z)
    (sendNotification : option (list ChangeEvent -> M unit))
    (purchasePage : Page) (openedNewPage : bool) : M CheckoutResult :=
  waitForPageSettled purchasePage 1500;;
  debugScreenshot debug slug runId purchasePage "after-order";;
  log LogStep2;;
  checkoutResult <-
    runCheckoutFlow fuel purchasePage settings
      (Some {| debug := debug;
               screenshot := debugScreenshot debug slug runId purchasePage |});;
  (if openedNewPage && negb (purchasePage =? page)%nat
      && negb match keepCheckoutOpen settings with
              | Some b => b
              | None => false
              end
   then orDefault (perform (Close purchasePage)) tt
   else ret tt);;
  match sendNotification with
  | Some send =>
      if match notifyOnPurchaseUpdates settings with
         | Some b => b
         | None => true
         end
      then
        address <- (if Js.truthyString (res_url checkoutResult)
                    then ret (Js.orString (res_url checkoutResult) "")
                    else pageUrl purchasePage);;
        send [{| ev_type := if success checkoutResult
                            then PURCHASE_SUCCESS else PURCHASE_FAILED;
                 ev_title := filmTitle;
                 ev_screeningTime := "";
                 ev_status := None;
                 ev_buttonText := reason checkoutResult;
                 ev_url := address |}];;
        ret checkoutResult
      else ret checkoutResult
  | None => ret checkoutResult
  end.

(** What reading a property of [null] throws. *)
Definition nullProperty (name : string) : Exn :=
  {| message := "Cannot read properties of null (reading '" ++ name ++ "')" |}.

(** [attemptPurchase].  The variable [currentPage] is [page] until the
    order control has been clicked and [purchasePage] from then on, so the
    [catch] block is written once for each.  [config.settings] is read
    before the [try]: with no [config] the [TypeError] of that read goes to
    the caller. *)
Definition attemptPurchase (fuel : nat) (page : Page) (filmTitle : string)
    (screeningTime : option string) (config : option AutoPurchaseConfig)
    (sendNotification : option (list ChangeEvent -> M unit))
  : M CheckoutResult :=
  log (LogPurchaseStart filmTitle);;
  (if Js.truthyString screeningTime
   then log (LogScreening (Js.orString screeningTime ""))
   else ret tt);;
  match config with
  | None => throw (nullProperty "settings")
  | Some config =>
  let settings :=
    match settings config with Some s => s | None => noSettings end in
  match Matcher.getFilmSettings filmTitle screeningTime (Some config) with
  | None => ret (failed "Film screening not found in auto-purchase list")
  | Some filmSettings =>
      if negb (f_autoPurchase filmSettings)
      then ret (failed "Auto-purchase disabled for this screening")
      else
        runId <- dateNow;;
        let slug := Js.orString (Some (slugify filmTitle)) "film" in
        let debug :=
          match debugScreenshots settings with
          | Some b => b
          | None => false
          end in
        tryThen
          (log LogStep1;; clickOrderTicketsButton page filmTitle)
          (purchaseError runId page)
          (fun orderResult =>
             match orderResult with
             | OrderFailed why => ret (failed why)
             | OrderReady purchasePage openedNewPage =>
                 tryCatch
                   (checkout fuel page filmTitle settings debug slug runId
                      sendNotification purchasePage openedNewPage)
                   (purchaseError runId purchasePage)
             end)
  end
  end.

End WithEnv.

End Engine.

(* ================================================================== *)
(** * Monitoring loop: the auto-purchase block ([src/monitor.js]) *)
(* ================================================================== *)

Module Monitor.

Import Runtime.
Local Open Scope js_scope.

Definition SCHEDULE_URL : string :=
  "https://festival.sundance.org/my-festival/my-schedule".

Section WithEnv.

Variable E : Env.

Abbreviation M := (Runtime.M E).

(** [sendEmailNotification], which goes out through the mail service. *)
Variable sendEmailNotification : list ChangeEvent -> M unit.

Definition isAvailability (t : ChangeType) : bool :=
  match t with
  | NOW_AVAILABLE | NEW_AVAILABLE => true
  | _ => false
  end.

(** The body of [for (const change of changes)]. *)
Definition purchaseChange (fuel : nat) (page : Page)
    (autoPurchaseConfig : AutoPurchaseConfig) (change : ChangeEvent)
  : M unit :=
  if isAvailability (ev_type change)
     && Matcher.shouldAutoPurchase (ev_title change)
          (Some (ev_screeningTime change)) (Some autoPurchaseConfig)
  then
    log (LogTriggered (ev_title change));;
    (if negb (ev_screeningTime change =? "")%string
     then log (LogScreening (ev_screeningTime change))
     else ret tt);;
    result <- Engine.attemptPurchase fuel page (ev_title change)
                (Some (ev_screeningTime change)) (Some autoPurchaseConfig)
                (Some sendEmailNotification);;
    (if success result then
       log (LogPurchased (reason result));;
       if Js.truthyString (res_url result)
       then log (LogPurchasedUrl (Js.orString (res_url result) ""))
       else ret tt
     else log (LogPurchaseFailed (reason result)));;
    perform (Goto page SCHEDULE_URL);;
    perform (WaitForTimeout page 3000)
  else ret tt.

Fixpoint purchaseChanges (fuel : nat) (page : Page)
    (autoPurchaseConfig : AutoPurchaseConfig) (changes : list ChangeEvent)
  : M unit :=
  match changes with
  | [] => ret tt
  | change :: rest =>
      purchaseChange fuel page autoPurchaseConfig change;;
      purchaseChanges fuel page autoPurchaseConfig rest
  end.

(** The block of [monitorSchedule] that follows [notifyChanges]:
    [const autoPurchaseConfig = loadAutoPurchaseConfig();
     if (autoPurchaseConfig) { for (const change of changes) ... }] *)
Definition autoPurchaseOpportunities (fuel : nat) (page : Page)
    (changes : list ChangeEvent) : M unit :=
  autoPurchaseConfig <- Engine.loadAutoPurchaseConfig;;
  match autoPurchaseConfig with
  | Some config => purchaseChanges fuel page config changes
  | None => ret tt
  end.

End WithEnv.

End Monitor.

(* ================================================================== *)
(** * A page double *)
(* ================================================================== *)

(** A small world to run the engine in: one document shared by all pages,
    a set of visible form fields, a list of visible controls by the text
    pattern that finds them, a clock that [waitForTimeout] moves, and the
    configuration file. *)
Module Double.

Import Runtime.

Record World := {
  clock : Z;
  address : string;
  document : Dom.Document;
  fields : list string;
  controls : list (string * string);
  filled : list (string * string);
  pressed : list string;
  clickError : option string;
  shots : list string;
  file : option string
}.

Definition tick (ms : Z) (w : World) : World :=
  {| clock := clock w + Z.max 0 ms; address := address w;
     document := document w; fields := fields w; controls := controls w;
     filled := filled w; pressed := pressed w; clickError := clickError w;
     shots := shots w; file := file w |}.

Definition withDocument (d : Dom.Document) (w : World) : World :=
  {| clock := clock w; address := address w;
     document := d; fields := fields w; controls := controls w;
     filled := filled w; pressed := pressed w; clickError := clickError w;
     shots := shots w; file := file w |}.

Definition fill (sel value : string) (w : World) : World :=
  {| clock := clock w; address := address w;
     document := document w; fields := fields w; controls := controls w;
     filled := filled w ++ [(sel, value)]; pressed := pressed w;
     clickError := clickError w; shots := shots w; file := file w |}.

Definition press (what : string) (w : World) : World :=
  {| clock := clock w; address := address w;
     document := document w; fields := fields w; controls := controls w;
     filled := filled w; pressed := pressed w ++ [what];
     clickError := clickError w; shots := shots w; file := file w |}.

Definition shoot (path : string) (w : World) : World :=
  {| clock := clock w; address := address w;
     document := document w; fields := fields w; controls := controls w;
     filled := filled w; pressed := pressed w;
     clickError := clickError w; shots := shots w ++ [path]; file := file w |}.

(** The texts of the elements a locator finds. *)
Definition found (l : Locator) (w : World) : list string :=
  match hasText l with
  | Some pattern =>
      map snd (filter (fun c => (fst c =? pattern)%string) (controls w))
  | None =>
      if existsb (String.eqb (selector l)) (fields w)
      then [EmptyString] else []
  end.

Definition clickOutcome (w : World) : Exn + unit :=
  match clickError w with
  | Some msg => inl {| message := msg |}
  | None => inr tt
  end.

Definition call (A : Type) (op : Op A) (w : World) : World * (Exn + A) :=
  match op in Op T return World * (Exn + T) with
  | WaitForLoadState _ => (w, inr tt)
  | WaitForTimeout _ ms => (tick ms w, inr tt)
  | Goto _ _ => (w, inr tt)
  | Count l => (w, inr (List.length (found l w)))
  | IsVisible l i => (w, inr (Nat.ltb i (List.length (found l w))))
  | IsDisabled _ _ => (w, inr false)
  | InnerText l i => (w, inr (nth i (found l w) EmptyString))
  | Click l i => (press (nth i (found l w) EmptyString) w, clickOutcome w)
  | Fill l _ value => (fill (selector l) value w, inr tt)
  | ClickSelector _ sel => (press sel w, clickOutcome w)
  | WaitForPage _ => (w, inl {| message := "Timeout 8000ms exceeded" |})
  | GetDocument _ => (w, inr (document w))
  | SetDocument _ d => (withDocument d w, inr tt)
  | Screenshot _ path => (shoot path w, inr tt)
  | Close _ => (w, inr tt)
  | ReadFileSync _ =>
      (w, match file w with
          | Some text => inr text
          | None => inl {| message := "ENOENT: no such file or directory" |}
          end)
  end.

(** A rule for one film, to be bought. *)
Definition rule : FilmRule :=
  {| f_title := "Film"; f_screeningTime := None; f_autoPurchase := true |}.

Definition config : AutoPurchaseConfig :=
  {| enabled := true; films := Some [rule]; settings := None |}.

(** The parser of the double knows three files. *)
Definition parse (text : string) : Exn + option AutoPurchaseConfig :=
  if (text =? "null")%string then inr None
  else if (text =? "on")%string then inr (Some config)
  else if (text =? "off")%string
  then inr (Some {| enabled := false; films := Some [rule];
                    settings := None |})
  else inl {| message := "Unexpected token" |}.

Definition env : Env :=
  {| Runtime.World := World;
     Runtime.call := @call;
     urlOf := fun w _ => address w;
     framesOf := fun _ _ => [O];
     mainFrameOf := fun _ _ => O;
     now := clock;
     fileExists :=
       fun w _ => match file w with Some _ => true | None => false end;
     processEnv := fun _ => None;
     JSON_parse := parse |}.

(** An empty page at a checkout address. *)
Definition blank : World :=
  {| clock := 0; address := "https://festival.sundance.org/checkout";
     document := Dom.emptyDocument; fields := []; controls := [];
     filled := []; pressed := []; clickError := None; shots := [];
     file := None |}.

Definition start (w : World) : St env := @Build_St env w [].

(** The schedule row of the film, with the given action controls. *)
Definition schedule (labels : list string) : Dom.Document :=
  Dom.setFilmDescs Dom.emptyDocument
    [{| Dom.fd_h3 := Some "Film";
        Dom.fd_row :=
          Some (map (fun t => {| Dom.btn_textContent := t;
                                 Dom.btn_target := false |}) labels) |}].

(** A payment page: a visible card number field on an otherwise empty
    page. *)
Definition cardPage : World :=
  {| clock := 0; address := "https://festival.sundance.org/checkout";
     document := Dom.emptyDocument;
     fields := [Engine.sel "input[autocomplete=" "cc-number"];
     controls := []; filled := []; pressed := []; clickError := None;
     shots := []; file := None |}.

Definition card : Payment :=
  {| pay_cardNumber := Some "4242424242424242"; pay_exp := None;
     pay_cvc := None; pay_name := None; pay_zip := None |}.

Definition cardSettings : Settings :=
  {| ticketQuantity := Some 1; notifyOnPurchaseUpdates := None;
     debugScreenshots := None; debugButtonDump := None;
     keepCheckoutOpen := None; maxSteps := None; stepWaitMs := None;
     waitForBuyAdditionalMs := None; payment := Some card |}.

(** A page in a waiting room that also shows a receipt. *)
Definition queuedReceipt : World :=
  {| clock := 0;
     address := "https://festival.sundance.org/queue/receipt";
     document := Dom.emptyDocument; fields := []; controls := [];
     filled := []; pressed := []; clickError := None; shots := [];
     file := None |}.

(** The schedule with an order control whose click fails. *)
Definition stuckOrder : World :=
  {| clock := 0; address := "https://festival.sundance.org/my-schedule";
     document := schedule ["Order tickets"]; fields := []; controls := [];
     filled := []; pressed := []; clickError := Some "Timeout 5000ms exceeded";
     shots := []; file := None |}.

(** The world with the given configuration file. *)
Definition withFile (text : option string) : World :=
  {| clock := 0; address := "https://festival.sundance.org/my-schedule";
     document := Dom.emptyDocument; fields := []; controls := [];
     filled := []; pressed := []; clickError := None; shots := [];
     file := text |}.

(** A page that shows a rendered line of text and nothing to act on. *)
Definition noticeDocument : Dom.Document :=
  {| Dom.selects := []; Dom.numberInputs := []; Dom.checkboxes := [];
     Dom.radios := []; Dom.modalText := None; Dom.filmDescs := [];
     Dom.elements :=
       [{| Dom.te_text := "Seating is general admission";
           Dom.te_directText := "Seating is general admission";
           Dom.te_childless := true;
           Dom.te_clickableRendered := true;
           Dom.te_clickableText := "Seating is general admission" |}];
     Dom.buttonTexts := []; Dom.events := [] |}.

Definition notice : World :=
  {| clock := 0; address := "https://festival.sundance.org/checkout";
     document := noticeDocument; fields := []; controls := [];
     filled := []; pressed := []; clickError := None; shots := [];
     file := None |}.

(** The worlds in which the page shows the notice, at any time. *)
Definition showsNotice (w : World) : Prop :=
  document w = noticeDocument
  /\ address w = "https://festival.sundance.org/checkout"
  /\ fields w = [] /\ controls w = [].

(** Settings with the given [maxSteps] and nothing else. *)
Definition budget (n : Z) : Settings :=
  {| ticketQuantity := None; notifyOnPurchaseUpdates := None;
     debugScreenshots := None; debugButtonDump := None;
     keepCheckoutOpen := None; maxSteps := Some n; stepWaitMs := None;
     waitForBuyAdditionalMs := None; payment := None |}.

(** A quantity select offering 1, 2 and 3. *)
Definition quantitySelect : Dom.SelectEl :=
  {| Dom.sel_id := "ticket-quantity"; Dom.sel_name := "qty";
     Dom.sel_className := EmptyString;
     Dom.sel_options :=
       [{| Dom.opt_value := "1"; Dom.opt_textContent := "1" |};
        {| Dom.opt_value := "2"; Dom.opt_textContent := "2" |};
        {| Dom.opt_value := "3"; Dom.opt_textContent := "3" |}];
     Dom.sel_value := "1" |}.

End Double.

(* ================================================================== *)
(** * An inert page *)
(* ================================================================== *)

(** A world that is nothing but a clock: its pages are empty and stay so. *)
Module Still.

Import Runtime.

Definition call (A : Type) (op : Op A) (w : Z) : Z * (Exn + A) :=
  match op in Op T return Z * (Exn + T) with
  | WaitForLoadState _ => (w, inr tt)
  | WaitForTimeout _ ms => (w + Z.max 0 ms, inr tt)
  | Goto _ _ => (w, inr tt)
  | Count _ => (w, inr O)
  | IsVisible _ _ => (w, inr false)
  | IsDisabled _ _ => (w, inr false)
  | InnerText _ _ => (w, inr EmptyString)
  | Click _ _ => (w, inl {| message := "Timeout 5000ms exceeded" |})
  | Fill _ _ _ => (w, inl {| message := "Timeout 5000ms exceeded" |})
  | ClickSelector _ _ => (w, inl {| message := "Timeout 30000ms exceeded" |})
  | WaitForPage _ => (w, inl {| message := "Timeout 8000ms exceeded" |})
  | GetDocument _ => (w, inr Dom.emptyDocument)
  | SetDocument _ _ => (w, inr tt)
  | Screenshot _ _ => (w, inr tt)
  | Close _ => (w, inr tt)
  | ReadFileSync _ =>
      (w, inl {| message := "ENOENT: no such file or directory" |})
  end.

Definition env : Env :=
  {| Runtime.World := Z;
     Runtime.call := @call;
     urlOf := fun _ _ => "about:blank";
     framesOf := fun _ _ => [O];
     mainFrameOf := fun _ _ => O;
     now := fun w => w;
     fileExists := fun _ _ => false;
     processEnv := fun _ => None;
     JSON_parse := fun _ => inl {| message := "Unexpected token" |} |}.

Definition start : St env := @Build_St env 0 [].

End Still.

(* ================================================================== *)
(** * A test double whose purchase control leads to another page *)
(* ================================================================== *)

(** A checkout page with one control, "Complete purchase".  The click on
    it takes the browser to the receipt, which the site serves from its
    queue host: the address of that page names both the queue and the
    receipt. *)
Module Landing.

Import Runtime.

Record World := { clock : Z; paid : bool }.

Definition checkoutAddress : string :=
  "https://festival.sundance.org/checkout".

Definition receiptAddress : string :=
  "https://queue.festival.sundance.org/order/receipt".

(** Is the purchase control there for the locator to find? *)
Definition finds (l : Locator) (w : World) : bool :=
  negb (paid w)
  && match hasText l with
     | Some pattern => (pattern =? "complete\s+purchase")%string
     | None => false
     end.

Definition call (A : Type) (op : Op A) (w : World) : World * (Exn + A) :=
  match op in Op T return World * (Exn + T) with
  | WaitForLoadState _ => (w, inr tt)
  | WaitForTimeout _ ms =>
      ({| clock := clock w + Z.max 0 ms; paid := paid w |}, inr tt)
  | Goto _ _ => (w, inr tt)
  | Count l => (w, inr (if finds l w then 1%nat else O))
  | IsVisible l i => (w, inr (finds l w && (i =? 0)%nat))
  | IsDisabled _ _ => (w, inr false)
  | InnerText l _ =>
      (w, inr (if finds l w then "Complete purchase" else EmptyString))
  | Click l _ =>
      if finds l w then ({| clock := clock w; paid := true |}, inr tt)
      else (w, inl {| message := "Timeout 5000ms exceeded" |})
  | Fill _ _ _ => (w, inl {| message := "Timeout 5000ms exceeded" |})
  | ClickSelector _ _ => (w, inl {| message := "Timeout 30000ms exceeded" |})
  | WaitForPage _ => (w, inl {| message := "Timeout 8000ms exceeded" |})
  | GetDocument _ => (w, inr Dom.emptyDocument)
  | SetDocument _ _ => (w, inr tt)
  | Screenshot _ _ => (w, inr tt)
  | Close _ => (w, inr tt)
  | ReadFileSync _ =>
      (w, inl {| message := "ENOENT: no such file or directory" |})
  end.

Definition env : Env :=
  {| Runtime.World := World;
     Runtime.call := @call;
     urlOf := fun w _ => if paid w then receiptAddress else checkoutAddress;
     framesOf := fun _ _ => [O];
     mainFrameOf := fun _ _ => O;
     now := clock;
     fileExists := fun _ _ => false;
     processEnv := fun _ => None;
     JSON_parse := fun _ => inl {| message := "Unexpected token" |} |}.

Definition start : St env := @Build_St env {| clock := 0; paid := false |} [].

End Landing.

(* ================================================================== *)
(** * Schedule extraction ([src/monitor.js]) *)
(* ================================================================== *)

(** The part of the schedule page that [extractTicketInfo] reads, and the
    script it evaluates there. *)
Module Extractor.

(** A [button], [a.button] or [.btn] of a table cell. *)
Record ActionButton := { ab_className : string; ab_textContent : string }.

(** A [.sd_schedule_film_desc]: the text of its [h3] and of its
    [.sd_start_end_date], when it has them, and the cells of its closest
    table row, when it has one, each with its buttons. *)
Record ScheduleDesc := {
  sd_h3 : option string;
  sd_date : option string;
  sd_row : option (list (list ActionButton))
}.

Record SchedulePage := {
  sd_descs : list ScheduleDesc;
  sd_href : string
}.

(** [.replace(/\s+/g, ' ')]; [inRun] tells that the last character read was
    white space. *)
Fixpoint squeeze (inRun : bool) (s : string) : string :=
  match s with
  | EmptyString => EmptyString
  | String c r =>
      if Js.isSpace c
      then if inRun then squeeze true r else String " " (squeeze true r)
      else String c (squeeze false r)
  end.

Definition isLetter (c : ascii) : bool :=
  let n := nat_of_ascii c in
  (((65 <=? n) && (n <=? 90)) || ((97 <=? n) && (n <=? 122)))%nat.

(** [!text.match(/^[^a-zA-Z]*$/)] *)
Fixpoint hasLetter (s : string) : bool :=
  match s with
  | EmptyString => false
  | String c r => isLetter c || hasLetter r
  end.

(** The [if ... else if ... else if] on the upper-cased label. *)
Definition classify (text : string) : option Status :=
  let upperText := Js.toUpperCase text in
  if Js.includes upperText "SOLD OUT" then Some SOLD_OUT
  else if Js.includes upperText "WAITLIST" || Js.includes upperText "WAIT LIST"
  then Some WAITLIST
  else if Js.includes upperText "ORDER" || Js.includes upperText "BUY"
          || Js.includes upperText "GET" || Js.includes upperText "TICKETS"
          || Js.includes upperText "TICKET" || Js.includes upperText "PURCHASE"
          || Js.includes upperText "AVAILABLE"
  then Some AVAILABLE
  else None.

(** The label of a button when it reads as an action: trimmed, not empty,
    with a letter, and classified. *)
Definition recognised (button : ActionButton) : option (Status * string) :=
  let text := Js.trim (ab_textContent button) in
  if negb (text =? "")%string && hasLetter text then
    match classify text with
    | Some st => Some (st, text)
    | None => None
    end
  else None.

(** The body of [buttons.forEach]: [status] and [buttonText] after it. *)
Definition look (found : Status * string) (button : ActionButton)
  : Status * string :=
  match recognised button with
  | Some now => now
  | None => found
  end.

(** [.filter(btn => !btn.className.includes('fav'))] *)
Definition notFavorite (button : ActionButton) : bool :=
  negb (Js.includes (ab_className button) "fav").

(** [tableCells.forEach(cell => ...)] from [status = 'UNKNOWN'] and
    [buttonText = '']. *)
Definition rowStatus (cells : list (list ActionButton)) : Status * string :=
  fold_left (fun found cell => fold_left look (filter notFavorite cell) found)
            cells (UNKNOWN, EmptyString).

(** Setting an own property: a key the object has keeps its place, a new
    key comes last (the keys written here hold an underscore, so none is an
    array index). *)
Fixpoint define (tickets : ScheduleSnapshot) (key : string)
    (record : ScreeningRecord) : ScheduleSnapshot :=
  match tickets with
  | [] => [(key, record)]
  | (k, r) :: rest =>
      if (k =? key)%string then (k, record) :: rest
      else (k, r) :: define rest key record
  end.

(** [tickets[key] = record]: writing [__proto__] replaces the prototype of
    the object and leaves its own properties, the ones the page hands back,
    as they are. *)
Definition assign (tickets : ScheduleSnapshot) (key : string)
    (record : ScreeningRecord) : ScheduleSnapshot :=
  if (key =? "__proto__")%string then tickets else define tickets key record.

(** [String(index)] *)
Definition ofIndex (index : nat) : string := Js.ofZ (Z.of_nat index).

(** The title of a description that is listed: [h3.textContent.trim()],
    unless it is missing or shorter than two characters. *)
Definition listedTitle (desc : ScheduleDesc) : option string :=
  match sd_h3 desc with
  | None => None
  | Some h3 =>
      let title := Js.trim h3 in
      if (title =? "")%string || (String.length title <? 2)%nat then None
      else Some title
  end.

(** [dateElement ? dateElement.textContent.trim().replace(/\s+/g, ' ') : ''] *)
Definition listedTime (desc : ScheduleDesc) : string :=
  match sd_date desc with
  | Some text => squeeze false (Js.trim text)
  | None => EmptyString
  end.

(** The key and the record that a listed description gives at position
    [index]. *)
Definition entryOf (href : string) (index : nat) (desc : ScheduleDesc)
    (title : string) : string * ScreeningRecord :=
  let screeningTime := listedTime desc in
  match sd_row desc with
  | None =>
      (title ++ "_" ++ ofIndex index,
       {| title := title; screeningTime := screeningTime; status := UNKNOWN;
          buttonText := "No row container found"; url := href |})
  | Some cells =>
      (title ++ "_"
       ++ (if (screeningTime =? "")%string then ofIndex index
           else screeningTime),
       {| title := title; screeningTime := screeningTime;
          status := fst (rowStatus cells); buttonText := snd (rowStatus cells);
          url := href |})
  end.

(** [filmDescs.forEach((filmDesc, index) => ...)] from position [index]
    on. *)
Fixpoint extractFrom (href : string) (index : nat) (descs : list ScheduleDesc)
    (tickets : ScheduleSnapshot) : ScheduleSnapshot :=
  match descs with
  | [] => tickets
  | desc :: rest =>
      extractFrom href (S index) rest
        match listedTitle desc with
        | None => tickets
        | Some title =>
            let (key, record) := entryOf href index desc title in
            assign tickets key record
        end
  end.

(** The object after the turn of the loop for one description. *)
Definition after (href : string) (index : nat) (desc : ScheduleDesc)
    (tickets : ScheduleSnapshot) : ScheduleSnapshot :=
  match listedTitle desc with
  | None => tickets
  | Some title =>
      assign tickets (fst (entryOf href index desc title))
        (snd (entryOf href index desc title))
  end.

(** The function [extractTicketInfo] evaluates in the page. *)
Definition extractTicketInfoScript (page : SchedulePage) : ScheduleSnapshot :=
  extractFrom (sd_href page) O (sd_descs page) [].

End Extractor.

(* ================================================================== *)
(** * Configuration generator ([generate-auto-purchase.js]) *)
(* ================================================================== *)

Module Generator.

(** The function [scrapeScheduleScreenings] evaluates in the page: title and
    screening time of every listed description. *)
Definition scrapeScript (page : Extractor.SchedulePage)
  : list (string * string) :=
  flat_map (fun desc =>
              match Extractor.listedTitle desc with
              | Some title => [(title, Extractor.listedTime desc)]
              | None => []
              end)
           (Extractor.sd_descs page).

(** [screenings.map(screening => ({ title, screeningTime, autoPurchase:
    false }))] *)
Definition filmsOf (screenings : list (string * string)) : list FilmRule :=
  map (fun screening =>
         {| f_title := fst screening; f_screeningTime := Some (snd screening);
            f_autoPurchase := false |})
      screenings.

(** The [config] that [main] writes. *)
Definition generatedConfig (screenings : list (string * string))
  : AutoPurchaseConfig :=
  {| enabled := true;
     films := Some (filmsOf screenings);
     settings :=
       Some {| ticketQuantity := Some 1; notifyOnPurchaseUpdates := Some true;
               debugScreenshots := Some false; debugButtonDump := None;
               keepCheckoutOpen := None; maxSteps := None; stepWaitMs := None;
               waitForBuyAdditionalMs := None; payment := None |} |}.

End Generator.

(* ================================================================== *)
(** * The matcher of the earlier engine *)
(* ================================================================== *)

(** [getFilmSettings(filmTitle, config)] of the engine that knows no
    screening times. *)
Module Legacy.

(** [normalizeTitle(f.title) === normalized] *)
Definition sameTitle (normalized : string) (f : FilmRule) : bool :=
  (Matcher.normalizeTitle (Some (f_title f)) =? normalized)%string.

(** [normalized.includes(normalizeTitle(f.title)) ||
     normalizeTitle(f.title).includes(normalized)] *)
Definition overlaps (normalized : string) (f : FilmRule) : bool :=
  Js.includes normalized (Matcher.normalizeTitle (Some (f_title f)))
  || Js.includes (Matcher.normalizeTitle (Some (f_title f))) normalized.

Definition getFilmSettings (filmTitle : string)
    (config : option AutoPurchaseConfig) : option FilmRule :=
  match config with
  | None => None
  | Some config =>
      match films config with
      | None => None
      | Some films =>
          let normalized := Matcher.normalizeTitle (Some filmTitle) in
          match find (sameTitle normalized) films with
          | Some exact => Some exact
          | None => find (overlaps normalized) films
          end
      end
  end.

Definition shouldAutoPurchase (filmTitle : string)
    (config : option AutoPurchaseConfig) : bool :=
  match getFilmSettings filmTitle config with
  | Some film => f_autoPurchase film
  | None => false
  end.

End Legacy.

(* ================================================================== *)
(** * Shapes of strings *)
(* ================================================================== *)

Module Shape.

(** A string of white space. *)
Fixpoint allSpaces (s : string) : bool :=
  match s with
  | EmptyString => true
  | String c r => Js.isSpace c && allSpaces r
  end.

(** Every character of the string passes the test. *)
Fixpoint allChars (p : ascii -> bool) (s : string) : bool :=
  match s with
  | EmptyString => true
  | String c r => p c && allChars p r
  end.

(** The last element of the list for which [f] has a value, with that
    value. *)
Fixpoint lastSome (A B : Type) (f : A -> option B) (l : list A) : option B :=
  match l with
  | [] => None
  | x :: rest =>
      match lastSome f rest with
      | Some y => Some y
      | None => f x
      end
  end.

(** A character of a slug: a lower-case letter, a digit or a dash. *)
Definition slugChar (c : ascii) : bool := Engine.isAlnum c || Ascii.eqb c "-".

(** The string does not start with a dash. *)
Definition noLeadingDash (s : string) : Prop :=
  match s with
  | EmptyString => True
  | String c _ => Ascii.eqb c "-" = false
  end.

(** A screening time as the schedule page is read: no white space at
    either end, and no white space inside but single spaces. *)
Definition normalTime (t : string) : Prop :=
  Js.trim t = t /\ Extractor.squeeze false t = t.

End Shape.

(* ================================================================== *)
(** * Results of computations *)
(* ================================================================== *)

Module Outcomes.




Section WithEnv.

Variable E : Runtime.Env.


(** A computation that writes to the console and never reads it: from a
    world it goes to one world with one outcome, and adds the same lines to
    whatever console it is given. *)
Definition writeOnly {A : Type} (m : Runtime.M E A) : Prop :=
  forall w : Runtime.World E,
  exists (w' : Runtime.World E) (lines : list Runtime.Log)
         (o : Runtime.Outcome A),
  forall c : list Runtime.Log,
    m {| Runtime.world := w; Runtime.console := c |}
    = ({| Runtime.world := w'; Runtime.console := (c ++ lines)%list |}, o).

(** The screenshot helper of the checkout flow does not read the
    console. *)
Definition quietHelpers (helpers : option (Engine.Helpers E)) : Prop :=
  match helpers with
  | Some h => forall label, writeOnly (Engine.screenshot h label)
  | None => True
  end.

(** The notification hook of [attemptPurchase] does not read the console
    either. *)
Definition quietHook
    (sendNotification : option (list ChangeEvent -> Runtime.M E unit))
  : Prop :=
  match sendNotification with
  | Some send => forall changes, writeOnly (send changes)
  | None => True
  end.

End WithEnv.

End Outcomes.

(* ================================================================== *)
(** * Clicks on the final purchase control, as the console shows them *)
(* ================================================================== *)

Module Clicks.

(** The line that [clickFirstMatching] writes after a click for the label
    "Complete purchase". *)
Definition isFinalClick (line : Runtime.Log) : bool :=
  match line with
  | Runtime.LogClicked label _ => (label =? "Complete purchase")%string
  | _ => false
  end.

Definition finalClicks (lines : list Runtime.Log) : nat :=
  List.length (filter isFinalClick lines).

Definition isFalse (o : Runtime.Outcome bool) : bool :=
  match o with
  | Runtime.Ret false => true
  | _ => false
  end.

Section WithEnv.

Variable E : Runtime.Env.

(** The computation adds at most [n] such lines to the console. *)
Definition adds (n : nat) {A : Type} (m : Runtime.M E A) : Prop :=
  forall s,
    (finalClicks (Runtime.console (fst (m s)))
     <= finalClicks (Runtime.console s) + n)%nat.

(** The computation adds at most one such line, and none when it returns
    [false]. *)
Definition clicksOnce (m : Runtime.M E bool) : Prop :=
  forall s,
    (finalClicks (Runtime.console (fst (m s)))
     <= finalClicks (Runtime.console s)
        + if isFalse (snd (m s)) then 0 else 1)%nat.

(** The screenshot helper and the notification hook add none. *)
Definition quietHelpers (helpers : option (Engine.Helpers E)) : Prop :=
  match helpers with
  | Some h => forall label, adds 0 (Engine.screenshot h label)
  | None => True
  end.

Definition quietHook
    (sendNotification : option (list ChangeEvent -> Runtime.M E unit))
  : Prop :=
  match sendNotification with
  | Some send => forall changes, adds 0 (send changes)
  | None => True
  end.

End WithEnv.

End Clicks.

(* ================================================================== *)
(** * Vocabulary of the properties *)
(* ================================================================== *)

Module Observe.

Import Runtime.

(** The steps of the main loop that a console shows, in order. *)
Definition isStep (line : Log) : bool :=
  match line with LogCheckoutStep _ => true | _ => false end.

Fixpoint steps (lines : list Log) : list Z :=
  match lines with
  | [] => []
  | LogCheckoutStep step :: rest => step :: steps rest
  | _ :: rest => steps rest
  end.

(** The steps [first], [first + 1], ... of [count] turns of the loop. *)
Fixpoint stepsFrom (first : Z) (count : nat) : list Z :=
  match count with
  | O => []
  | S n => first :: stepsFrom (first + 1) n
  end.

(** No description of the film has an order control in its row. *)
Definition noOrderControl (filmTitle : string) (d : Dom.Document) : Prop :=
  forall desc h3 row btn,
    In desc (Dom.filmDescs d) ->
    Dom.fd_h3 desc = Some h3 ->
    Dom.titleContains filmTitle h3 = true ->
    Dom.fd_row desc = Some row ->
    In btn row ->
    Dom.isOrderControl btn = false.

Section WithEnv.

Variable E : Env.

(** The clock never goes back, and a wait that returns has lasted its
    time. *)
Record ClockLaws : Prop := {
  clock_call :
    forall (A : Type) (op : Op A) (w : World E),
      now E w <= now E (fst (call E op w));
  clock_wait :
    forall (p : Page) (ms : Z) (w w' : World E),
      call E (WaitForTimeout p ms) w = (w', inr tt) ->
      now E w + ms <= now E w'
}.

(** [fuel] turns are enough for a wait of [waitMs] milliseconds polled
    every 500. *)
Definition enoughFor (waitMs : Z) (fuel : nat) : Prop :=
  waitMs <= 500 * (Z.of_nat fuel - 1).

Definition enough (settings : Settings) (fuel : nat) : Prop :=
  enoughFor (Z.max 0 (Js.orZ (waitForBuyAdditionalMs settings) 15000)) fuel.

(** A computation that, from a state whose world is in [Inv], returns [a]
    and leaves a world of [Inv]. *)
Definition settles (Inv : World E -> Prop) {A : Type} (m : M E A) (a : A)
  : Prop :=
  forall s, Inv (world s) -> exists s', m s = (s', Ret a) /\ Inv (world s').

(** What [contexts page] lists in the world [w]. *)
Definition contextsAt (page : Page) (w : World E) : list Context :=
  OnPage page
  :: map (OnFrame page)
       (filter (fun f => negb (f =? mainFrameOf E w page)%nat)
               (framesOf E w page)).

(** The controls that the checkout flow looks for by pattern, with the
    label it logs for each. *)
Definition soughtControls : list (list string * string) :=
  [(Engine.TEXT_PATTERNS_buyAdditional, "Buy additional tickets");
   (Engine.TEXT_PATTERNS_final, "Complete purchase");
   (Engine.TEXT_PATTERNS_continue, "Continue")].

(** [settings.debugScreenshots === true || settings.debugButtonDump === true] *)
Definition dumps (settings : Settings) : bool :=
  match debugScreenshots settings with Some b => b | None => false end
  || match debugButtonDump settings with Some b => b | None => false end.

(** A page on which no hazard detector ever fires and no action of the
    checkout flow ever has an effect, and which stays open.  [Inv] holds of
    the worlds that the page goes through.  In each of them the four
    detectors answer [false], and each action that the flow takes with
    [settings] finds nothing to do: the terms check, the search for the
    text of the additional-tickets control, the search for a control of one
    of the three pattern lists of the flow in a context that the page
    lists, the configured quantity, the saved payment; the waits of the
    flow and its listing of the buttons return.  Each of them leaves a
    world of [Inv]. *)
Record Inert (Inv : World E -> Prop) (page : Page) (settings : Settings)
  : Prop := {
  inert_queue : settles Inv (Engine.detectQueue page) false;
  inert_login : settles Inv (Engine.detectLogin page) false;
  inert_confirmation : settles Inv (Engine.detectConfirmation page) false;
  inert_error : settles Inv (Engine.detectBlockingError page) false;
  inert_terms : settles Inv (Engine.checkTermsCheckboxes page) false;
  inert_text :
    settles Inv
      (Engine.clickByTextContent page "buy additional tickets"
         "Buy additional tickets")
      false;
  inert_click :
    forall (w : World E) (context : Context) (patterns : list string)
           (label : string) (quiet : bool),
      Inv w ->
      In context (contextsAt page w) ->
      In (patterns, label) soughtControls ->
      settles Inv (Engine.clickFirstMatching context patterns label quiet)
        false;
  inert_quantity :
    settles Inv (Engine.setTicketQuantity page (ticketQuantity settings))
      false;
  inert_payment : settles Inv (Engine.selectSavedPayment page) false;
  inert_wait :
    forall ms, In ms [500; 1500] ->
      settles Inv (perform (WaitForTimeout page ms)) tt;
  inert_dump :
    forall step,
      dumps settings = true ->
      settles Inv
        (Engine.dumpVisibleButtons page
           ("Step " ++ Js.ofZ step ++ " - no action taken"))
        tt
}.

(** A computation that keeps a relation between the state it is given and
    the state it leaves, and that ends. *)
Definition sound (R : St E -> St E -> Prop) {A : Type} (m : M E A) : Prop :=
  forall s, R s (fst (m s)) /\ snd (m s) <> Spin.

(** A relation between states that every call to the world and every
    console line other than a step of the main loop keep. *)
Record Stable (R : St E -> St E -> Prop) : Prop := {
  stable_refl : forall s, R s s;
  stable_trans : forall a b c, R a b -> R b c -> R a c;
  stable_call :
    forall (A : Type) (op : Op A) (s : St E),
      R s {| world := fst (call E op (world s)); console := console s |};
  stable_log :
    forall (line : Log) (s : St E),
      isStep line = false ->
      R s {| world := world s; console := (console s ++ [line])%list |}
}.

(** A relation that the lines of the steps keep as well. *)
Definition keepsSteps (R : St E -> St E -> Prop) : Prop :=
  forall (step : Z) (s : St E),
    R s {| world := world s;
           console := (console s ++ [LogCheckoutStep step])%list |}.

(** Did the computation end with an exception? *)
Definition threw {A : Type} (o : Outcome A) : bool :=
  match o with Throw _ => true | _ => false end.

(** A computation that lets no exception out. *)
Definition catches {A : Type} (m : M E A) : Prop :=
  forall s, threw (snd (m s)) = false.

(** The console shows the same steps. *)
Definition sameSteps (s s' : St E) : Prop :=
  steps (console s') = steps (console s).

(** The clock has not gone back. *)
Definition later (s s' : St E) : Prop :=
  now E (world s) <= now E (world s').

End WithEnv.

End Observe.

(* ================================================================== *)
(** * Properties of the state differ *)
(* ================================================================== *)

Section DifferFacts.

Import Differ.

Lemma visit_spec (previous : ScheduleSnapshot) (changes : list ChangeEvent)
    (entry : string * ScreeningRecord) :
  visit previous changes entry
  = (changes ++ if emits previous entry then [eventOf previous entry]
                 else [])%list.
Proof.
  destruct entry as [key current].
  unfold visit, emits, eventOf, eventKind; simpl.
  destruct (get previous key) as [p| |];
    destruct (status current); try destruct (status p);
    simpl; now rewrite ?app_nil_r.
Qed.

Lemma fold_visit (previous current : ScheduleSnapshot) :
  forall changes,
    fold_left (visit previous) current changes
    = (changes ++ diff_spec previous current)%list.
Proof.
  induction current as [|entry rest IH]; intro changes; simpl.
  - now rewrite app_nil_r.
  - rewrite IH, visit_spec. unfold diff_spec; simpl.
    destruct (emits previous entry); simpl.
    + now rewrite <- app_assoc.
    + now rewrite app_nil_r.
Qed.

Lemma get_own (state : ScheduleSnapshot) (key : string)
    (record : ScreeningRecord) :
  get state key = Own record <-> lookup state key = Some record.
Proof.
  unfold get. destruct (lookup state key) as [r|].
  - split; intros [= ->]; reflexivity.
  - destruct (isInherited key); split; discriminate.
Qed.

Lemma get_undefined (state : ScheduleSnapshot) (key : string) :
  get state key = Undefined
  <-> lookup state key = None /\ isInherited key = false.
Proof.
  unfold get. destruct (lookup state key) as [r|].
  - split; [discriminate | intros [H _]; discriminate H].
  - destruct (isInherited key); split; try discriminate; auto.
    intros [_ H]; discriminate H.
Qed.

(** What [detectChanges] computes: in the order of the entries of
    [current], one event for each entry that emits and nothing else; an
    entry emits [NEW_AVAILABLE] exactly when [previous[key]] is [undefined]
    (no own entry, and no name of [Object.prototype]) and its status is
    [AVAILABLE], it emits [NOW_AVAILABLE] exactly when its key has an entry
    in [previous] with status [SOLD_OUT] and its own status is [AVAILABLE],
    and it emits nothing in every other case; the event carries the fields
    of the current record. *)
Lemma detectChanges_events (previous current : ScheduleSnapshot) :
  detectChanges previous current
  = map (eventOf previous) (filter (emits previous) current)
  /\ forall (key : string) (r : ScreeningRecord),
       (eventKind previous (key, r) = Some NEW_AVAILABLE
        <-> lookup previous key = None /\ isInherited key = false
            /\ status r = AVAILABLE)
       /\ (eventKind previous (key, r) = Some NOW_AVAILABLE
           <-> exists p, lookup previous key = Some p
                         /\ status p = SOLD_OUT /\ status r = AVAILABLE)
       /\ (emits previous (key, r) = true
           <-> eventKind previous (key, r) = Some NEW_AVAILABLE
               \/ eventKind previous (key, r) = Some NOW_AVAILABLE)
       /\ (forall t, eventKind previous (key, r) = Some t ->
             eventOf previous (key, r)
             = {| ev_type := t; ev_title := title r;
                  ev_screeningTime := screeningTime r;
                  ev_status := Some (status r);
                  ev_buttonText := buttonText r; ev_url := url r |}).
Proof.
  split.
  - unfold detectChanges. now rewrite fold_visit.
  - intros key r. unfold emits, eventOf, eventKind, change, get; simpl.
    destruct (lookup previous key) as [p|] eqn:Hp;
      [|destruct (isInherited key) eqn:Hi];
      destruct (status r) eqn:Hr;
      try destruct (status p) eqn:Hs;
      repeat split; intros;
      repeat match goal with
             | H : _ /\ _ |- _ => destruct H
             | H : _ \/ _ |- _ => destruct H
             | H : exists _, _ |- _ => destruct H
             | H : Some _ = Some _ |- _ => inversion H; clear H; subst
             end;
      try discriminate; try congruence; auto.
    all: try (eexists; repeat split; eauto; congruence).
Qed.

(** On keys that are no names of [Object.prototype], the code follows the
    contract. *)
Lemma eventKind_contract (previous : ScheduleSnapshot)
    (entry : string * ScreeningRecord) :
  isInherited (fst entry) = false \/ lookup previous (fst entry) <> None ->
  eventKind previous entry = contractKind previous entry.
Proof.
  unfold eventKind, contractKind, get.
  destruct (lookup previous (fst entry)) as [p|]; [reflexivity|].
  intros [->|H]; [reflexivity | now destruct H].
Qed.

(** The transitions of section 8 of the specification. *)
Example detectChanges_transitions (r : ScreeningRecord) (key : string) :
  let at_ st := [(key, {| title := title r; screeningTime := screeningTime r;
                          status := st; buttonText := buttonText r;
                          url := url r |})] in
  isInherited key = false ->
  List.length (detectChanges [] (at_ AVAILABLE)) = 1%nat
  /\ List.length (detectChanges (at_ SOLD_OUT) (at_ AVAILABLE)) = 1%nat
  /\ detectChanges (at_ AVAILABLE) (at_ AVAILABLE) = []
  /\ detectChanges (at_ AVAILABLE) (at_ SOLD_OUT) = []
  /\ detectChanges (at_ WAITLIST) (at_ AVAILABLE) = [].
Proof.
  intros at_ Hkey. unfold detectChanges, at_, visit, get; simpl.
  rewrite String.eqb_refl, Hkey; simpl. tauto.
Qed.

(** [detectChanges] on a schedule with a screening that was sold out, a new
    one and a new sold-out one. *)
Lemma detectChanges_events_witness :
  let screening (name : string) (st : Status) :=
    (name, {| title := name; screeningTime := "7:00 PM"; status := st;
              buttonText := "Order tickets"; url := "" |}) in
  detectChanges [screening "A" SOLD_OUT; screening "D" AVAILABLE]
    [screening "A" AVAILABLE; screening "B" AVAILABLE;
     screening "C" SOLD_OUT; screening "D" SOLD_OUT]
  = [change NOW_AVAILABLE (snd (screening "A" AVAILABLE));
     change NEW_AVAILABLE (snd (screening "B" AVAILABLE))].
Proof.
  intro screening.
  rewrite (proj1 (detectChanges_events _ _)). reflexivity.
Defined.

End DifferFacts.

(** C4.  The claim fails on the code for a key that names a member of
    [Object.prototype].  A schedule page lists the title [__defineGetter]
    with the date [_] and an order button: the snapshot taken from it has
    the one key [__defineGetter__], with status [AVAILABLE]; the empty
    previous snapshot has no such key, so the contract asks for one
    [NEW_AVAILABLE] event; [previousState[key]] reads the inherited function,
    which is truthy and has no [status], and [detectChanges] reports
    nothing. *)
Theorem detectChanges_misses_inherited_key :
  let page :=
    {| Extractor.sd_descs :=
         [{| Extractor.sd_h3 := Some "__defineGetter";
             Extractor.sd_date := Some "_";
             Extractor.sd_row :=
               Some [[{| Extractor.ab_className := "button";
                         Extractor.ab_textContent := "Order tickets" |}]] |}];
       Extractor.sd_href := "https://festival.sundance.org/tickets" |} in
  let record :=
    {| title := "__defineGetter"; screeningTime := "_"; status := AVAILABLE;
       buttonText := "Order tickets";
       url := "https://festival.sundance.org/tickets" |} in
  let current := Extractor.extractTicketInfoScript page in
  let previous : ScheduleSnapshot := [] in
  current = [("__defineGetter__", record)]
  /\ ~ In "__defineGetter__" (keys previous)
  /\ lookup previous "__defineGetter__" = None
  /\ Differ.contractKind previous ("__defineGetter__", record)
     = Some NEW_AVAILABLE
  /\ get previous "__defineGetter__" = Inherited
  /\ Differ.detectChanges previous current = [].
Proof.
  intros page record current previous.
  assert (Hcurrent : current = [("__defineGetter__", record)])
    by (vm_compute; reflexivity).
  split; [exact Hcurrent|].
  split; [intros []|].
  split; [reflexivity|].
  split; [reflexivity|].
  split; [reflexivity|].
  rewrite Hcurrent. unfold Differ.detectChanges, previous.
  cbn [fold_left Differ.visit].
  change (get [] "__defineGetter__") with Inherited.
  reflexivity.
Qed.

(* ================================================================== *)
(** * Properties of the matcher *)
(* ================================================================== *)

Section MatcherFacts.

Import Matcher.

Lemma exactMatch_iff (nTitle nTime : string) (f : FilmRule) :
  exactMatch nTitle nTime f = true
  <-> ruleTitle f = nTitle /\ ruleTime f = nTime.
Proof.
  unfold exactMatch, ruleTitle, ruleTime.
  rewrite andb_true_iff, !String.eqb_eq. tauto.
Qed.

Lemma titleOnlyMatch_iff (nTitle : string) (f : FilmRule) :
  titleOnlyMatch nTitle f = true
  <-> Js.truthyString (f_screeningTime f) = false /\ ruleTitle f = nTitle.
Proof.
  unfold titleOnlyMatch, ruleTitle.
  rewrite andb_true_iff, negb_true_iff, String.eqb_eq. tauto.
Qed.

(** A rule without a screening time is compared by the empty time. *)
Lemma ruleTime_absent (f : FilmRule) :
  Js.truthyString (f_screeningTime f) = false -> ruleTime f = EmptyString.
Proof.
  unfold ruleTime, Js.orString. intros ->. reflexivity.
Qed.

(** The first element that [find] meets: nothing before it passes. *)
Lemma find_first {A : Type} (p : A -> bool) (l : list A) (x : A) :
  find p l = Some x ->
  exists before after,
    l = (before ++ x :: after)%list
    /\ p x = true
    /\ forall y, In y before -> p y = false.
Proof.
  induction l as [|a rest IH]; simpl; [discriminate|].
  destruct (p a) eqn:Ha.
  - intros [= <-]. exists [], rest. repeat split; auto. intros y [].
  - intro H. destruct (IH H) as (before & after & -> & Hx & Hbefore).
    exists (a :: before), after. repeat split; auto.
    intros y [<- | Hy]; auto.
Qed.

(** C3.  What [getFilmSettings] returns is a rule of the configuration with
    the normalized title of the query.  A returned rule with a screening
    time has the normalized time of the query.  A rule without one is
    returned for a query with a time only when no rule of the configuration
    has both the normalized title and the normalized time of the query;
    rules of that title for other times may be there.  In the order of the
    configuration, the returned rule is the first rule with the title and
    the time of the query, or else, when there is no such rule, the first
    rule of that title without a screening time.  [null] is returned only
    when no rule matches title and time and every rule of that title has a
    screening time. *)
Theorem getFilmSettings_exact_then_fallback
    (filmTitle : string) (screeningTime : option string)
    (config : option AutoPurchaseConfig) :
  let matches (f : FilmRule) : Prop :=
    ruleTitle f = normalizeTitle (Some filmTitle)
    /\ ruleTime f = queryTime screeningTime in
  let untimed (f : FilmRule) : Prop :=
    Js.truthyString (f_screeningTime f) = false
    /\ ruleTitle f = normalizeTitle (Some filmTitle) in
  match getFilmSettings filmTitle screeningTime config with
  | Some r =>
      In r (rulesOf config)
      /\ ruleTitle r = normalizeTitle (Some filmTitle)
      /\ (Js.truthyString (f_screeningTime r) = true ->
          ruleTime r = queryTime screeningTime)
      /\ (Js.truthyString (f_screeningTime r) = false ->
          queryTime screeningTime <> EmptyString ->
          forall f, In f (rulesOf config) -> ~ matches f)
      /\ exists before after,
           rulesOf config = (before ++ r :: after)%list
           /\ ((matches r /\ forall f, In f before -> ~ matches f)
               \/ (untimed r
                   /\ (forall f, In f (rulesOf config) -> ~ matches f)
                   /\ forall f, In f before -> ~ untimed f))
  | None =>
      forall f, In f (rulesOf config) ->
        ruleTitle f = normalizeTitle (Some filmTitle) ->
        ruleTime f <> queryTime screeningTime
        /\ Js.truthyString (f_screeningTime f) = true
  end.
Proof.
  intros matches untimed. unfold matches, untimed.
  unfold getFilmSettings, rulesOf.
  destruct config as [c|]; [|intros f []].
  destruct (films c) as [fs|]; [|intros f []].
  fold (queryTime screeningTime).
  destruct (find (exactMatch _ _) fs) as [r|] eqn:Hexact.
  - destruct (find_first _ _ Hexact) as (before & after & Hfs & Hm & Hfirst).
    apply find_some in Hexact as [Hin _].
    apply exactMatch_iff in Hm as [Ht Htime].
    split; [exact Hin|]. split; [exact Ht|]. split; [auto|]. split.
    + intros Habsent Hquery. apply ruleTime_absent in Habsent. congruence.
    + exists before, after. split; [exact Hfs|]. left.
      split; [split; assumption|].
      intros f Hf Hboth. apply exactMatch_iff in Hboth.
      rewrite (Hfirst f Hf) in Hboth. discriminate.
  - pose proof (find_none _ _ Hexact) as Hno.
    assert (Hnone : forall f, In f fs ->
              ~ (ruleTitle f = normalizeTitle (Some filmTitle)
                 /\ ruleTime f = queryTime screeningTime)).
    { intros f Hf Hboth. apply exactMatch_iff in Hboth.
      rewrite (Hno f Hf) in Hboth. discriminate. }
    destruct (find (titleOnlyMatch _) fs) as [r|] eqn:Htitle.
    + destruct (find_first _ _ Htitle)
        as (before & after & Hfs & Hm & Hfirst).
      apply find_some in Htitle as [Hin _].
      apply titleOnlyMatch_iff in Hm as [Habsent Ht].
      split; [exact Hin|]. split; [exact Ht|]. split; [|split].
      * intros Hhas. congruence.
      * intros _ _. exact Hnone.
      * exists before, after. split; [exact Hfs|]. right.
        split; [split; assumption|]. split; [exact Hnone|].
        intros f Hf Hboth. apply titleOnlyMatch_iff in Hboth.
        rewrite (Hfirst f Hf) in Hboth. discriminate.
    + pose proof (find_none _ _ Htitle) as Hnot.
      intros f Hf Ht. split.
      * intro Htime. apply (Hnone f Hf). split; assumption.
      * specialize (Hnot f Hf).
        destruct (Js.truthyString (f_screeningTime f)) eqn:Hs; auto.
        assert (titleOnlyMatch (normalizeTitle (Some filmTitle)) f = true)
          by (apply titleOnlyMatch_iff; auto).
        congruence.
Qed.

(** C3 on a configuration with a rule for one screening of a film and a
    rule for the film without a time. *)
Lemma getFilmSettings_exact_then_fallback_witness :
  let timed := {| f_title := "Film"; f_screeningTime := Some "Jan 22, 7:00 PM";
                  f_autoPurchase := true |} in
  let untimed := {| f_title := "Film"; f_screeningTime := None;
                    f_autoPurchase := false |} in
  let config := Some {| enabled := true; films := Some [timed; untimed];
                        settings := None |} in
  getFilmSettings " film" (Some "jan 22, 7:00 pm ") config = Some timed
  /\ ruleTime timed = queryTime (Some "jan 22, 7:00 pm ")
  /\ getFilmSettings "Film" (Some "Jan 23, 9:00 PM") config = Some untimed
  /\ ~ (ruleTitle timed = normalizeTitle (Some "Film")
        /\ ruleTime timed = queryTime (Some "Jan 23, 9:00 PM"))
  /\ getFilmSettings "Other" None config = None.
Proof.
  intros timed untimed config.
  pose proof (getFilmSettings_exact_then_fallback
                " film" (Some "jan 22, 7:00 pm ") config) as Hexact.
  pose proof (getFilmSettings_exact_then_fallback
                "Film" (Some "Jan 23, 9:00 PM") config) as Hfallback.
  cbv zeta in Hexact, Hfallback.
  change (getFilmSettings " film" (Some "jan 22, 7:00 pm ") config)
    with (Some timed) in Hexact.
  change (getFilmSettings "Film" (Some "Jan 23, 9:00 PM") config)
    with (Some untimed) in Hfallback.
  destruct Hexact as (_ & _ & Htime & _).
  destruct Hfallback as (_ & _ & _ & Hnone & _).
  split; [reflexivity|]. split; [exact (Htime eq_refl)|].
  split; [reflexivity|]. split; [|reflexivity].
  apply (Hnone eq_refl); [discriminate | left; reflexivity].
Defined.

(** The claim C3 as it stands fails for a film with a rule for one
    screening and a rule without a time: asked about another screening of
    the film, [getFilmSettings] returns the rule without a time, although a
    rule with an exact time is there for that title. *)
Lemma getFilmSettings_exact_then_fallback_counterexample :
  let timed := {| f_title := "Film"; f_screeningTime := Some "Jan 22, 7:00 PM";
                  f_autoPurchase := true |} in
  let untimed := {| f_title := "Film"; f_screeningTime := None;
                    f_autoPurchase := false |} in
  let config := Some {| enabled := true; films := Some [timed; untimed];
                        settings := None |} in
  getFilmSettings "Film" (Some "Jan 23, 9:00 PM") config = Some untimed
  /\ f_screeningTime untimed = None
  /\ In timed (rulesOf config)
  /\ ruleTitle timed = normalizeTitle (Some "Film")
  /\ f_screeningTime timed = Some "Jan 22, 7:00 PM"
  /\ ~ (forall f, In f (rulesOf config) ->
          ruleTitle f = normalizeTitle (Some "Film") ->
          Js.truthyString (f_screeningTime f) = false).
Proof.
  intros timed untimed config.
  split; [reflexivity|]. split; [reflexivity|].
  split; [left; reflexivity|]. split; [reflexivity|].
  split; [reflexivity|].
  intro Hall. specialize (Hall timed (or_introl eq_refl) eq_refl).
  discriminate Hall.
Qed.

(** A screening time of white space only is a screening time for the
    fallback and the empty time for the exact match: such a rule ties with
    the rules without a time on a screening without a time, and the first
    of them in the list is returned. *)
Example getFilmSettings_blank_time :
  let untimed := {| f_title := "Film"; f_screeningTime := None;
                    f_autoPurchase := false |} in
  let blank := {| f_title := "Film"; f_screeningTime := Some " ";
                  f_autoPurchase := true |} in
  getFilmSettings "Film" None
    (Some {| enabled := true; films := Some [untimed; blank];
             settings := None |}) = Some untimed
  /\ getFilmSettings "Film" None
       (Some {| enabled := true; films := Some [blank; untimed];
                settings := None |}) = Some blank
  /\ ruleTime blank = EmptyString.
Proof. repeat split. Qed.

End MatcherFacts.

(* ================================================================== *)
(** * Properties of the quantity script *)
(* ================================================================== *)

Section QuantityFacts.

Import Dom.

(** Is the quantity [q] among the options? *)
Lemma find_offers (options : list OptionEl) (q : Z) :
  existsb (offers q) options = false -> find (offers q) options = None.
Proof.
  induction options as [|o rest IH]; simpl; auto.
  destruct (offers q o); simpl; [discriminate | exact IH].
Qed.

Lemma find_offered (options : list OptionEl) (q : Z) :
  existsb (offers q) options = true ->
  exists o, find (offers q) options = Some o /\ offers q o = true.
Proof.
  induction options as [|o rest IH]; simpl; [discriminate|].
  destruct (offers q o) eqn:Ho; simpl; eauto.
Qed.

(** [degrade] stops at the highest offered quantity from [n] down. *)
Lemma degrade_highest (options : list OptionEl) (q : Z) (o : OptionEl) :
  forall n : nat,
    1 <= q <= Z.of_nat n ->
    find (offers q) options = Some o ->
    (forall q', q < q' <= Z.of_nat n -> existsb (offers q') options = false) ->
    degrade options n = Some (o, q).
Proof.
  induction n as [|m IH]; intros Hq Ho Habove; [lia|].
  cbn [degrade].
  destruct (Z.eq_dec q (Z.of_nat (S m))) as [->|Hne].
  - now rewrite Ho.
  - rewrite find_offers by (apply Habove; lia).
    apply IH; [lia | exact Ho | intros; apply Habove; lia].
Qed.

Lemma degrade_none (options : list OptionEl) :
  forall n : nat,
    (forall q', 1 <= q' <= Z.of_nat n -> existsb (offers q') options = false) ->
    degrade options n = None.
Proof.
  induction n as [|m IH]; intros Hnone; [reflexivity|].
  cbn [degrade]. rewrite find_offers by (apply Hnone; lia).
  apply IH. intros; apply Hnone; lia.
Qed.

(** The script on a document whose first quantity select lacks [desired]
    and offers [q] as its highest quantity below. *)
Lemma script_degrades (d : Document) (i : nat) (sel : SelectEl)
    (desired q : Z) :
  findIndex isQuantitySelect (selects d) = Some (i, sel) ->
  1 <= q < desired ->
  existsb (offers q) (sel_options sel) = true ->
  (forall q', q < q' <= desired ->
     existsb (offers q') (sel_options sel) = false) ->
  exists o,
    find (offers q) (sel_options sel) = Some o
    /\ setTicketQuantityScript desired d
       = (dispatch (setSelects d (setNth i (choose sel o) (selects d)))
                   [SelectChanged i],
          {| q_success := true; q_quantity := Some q |}).
Proof.
  intros Hsel Hq Hoffered Habove.
  destruct (find_offered _ _ Hoffered) as (o & Ho & _).
  exists o; split; [exact Ho|].
  unfold setTicketQuantityScript, pickQuantity. rewrite Hsel.
  rewrite find_offers by (apply Habove; lia).
  rewrite (@degrade_highest (sel_options sel) q o); auto.
  - lia.
  - intros q' Hq'. apply Habove. lia.
Qed.

(** A number input caps the quantity at its [max]. *)
Example script_caps_input :
  let input := {| in_id := "quantity"; in_name := EmptyString;
                  in_disabled := false; in_max := "3"; in_value := "1" |} in
  setTicketQuantityScript 4 (setNumberInputs emptyDocument [input])
  = (dispatch
       (setNumberInputs emptyDocument [typeValue input "3"])
       [InputInput 0; InputChanged 0],
     {| q_success := true; q_quantity := Some 3 |}).
Proof. reflexivity. Qed.

End QuantityFacts.

(* ================================================================== *)
(** * Running computations *)
(* ================================================================== *)

Section RunFacts.

Import Runtime.

Variable E : Env.

Lemma bind_Ret {A B : Type} (m : M E A) (k : A -> M E B)
    (s s' : St E) (a : A) :
  m s = (s', Ret a) -> bind m k s = k a s'.
Proof. unfold bind. now intros ->. Qed.

Lemma bind_Throw {A B : Type} (m : M E A) (k : A -> M E B)
    (s s' : St E) (e : Exn) :
  m s = (s', Throw e) -> bind m k s = (s', Throw e).
Proof. unfold bind. now intros ->. Qed.

Lemma bind_Spin {A B : Type} (m : M E A) (k : A -> M E B) (s s' : St E) :
  m s = (s', Spin) -> bind m k s = (s', Spin).
Proof. unfold bind. now intros ->. Qed.

Lemma bind_inv {A B : Type} (m : M E A) (k : A -> M E B)
    (s s' : St E) (o : Outcome B) :
  bind m k s = (s', o) ->
  (exists s1 a, m s = (s1, Ret a) /\ k a s1 = (s', o))
  \/ (exists e, m s = (s', Throw e) /\ o = Throw e)
  \/ (m s = (s', Spin) /\ o = Spin).
Proof.
  unfold bind. destruct (m s) as [s1 [a|e|]]; intros H.
  - left; eauto.
  - inversion H; subst. right; left; eauto.
  - inversion H; subst. right; right; eauto.
Qed.

(** A script that finds its document and may write it back. *)
Lemma evaluate_run {A : Type} (page : Page)
    (script : Dom.Document -> Dom.Document * A) (s : St E)
    (w1 w2 : World E) (d : Dom.Document) :
  call E (GetDocument page) (world s) = (w1, inr d) ->
  call E (SetDocument page (fst (script d))) w1 = (w2, inr tt) ->
  evaluate page script s
  = ({| world := w2; console := console s |}, Ret (snd (script d))).
Proof.
  intros Hget Hset. unfold evaluate, bind, perform, ret.
  rewrite Hget. destruct (script d) as [d' a]; simpl in *.
  now rewrite Hset.
Qed.

Lemma run_sound (R : St E -> St E -> Prop) {A : Type} (m : M E A)
    (s s' : St E) (o : Outcome A) :
  Observe.sound R m -> m s = (s', o) -> R s s' /\ o <> Spin.
Proof. intros Hm Hs. specialize (Hm s). now rewrite Hs in Hm. Qed.

End RunFacts.

Arguments run_sound {E R A m s s' o} _ _.

Arguments bind_Ret {E A B} m k {s s' a} _.
Arguments bind_Throw {E A B} m k {s s' e} _.
Arguments bind_Spin {E A B} m k {s s'} _.

(* ================================================================== *)
(** * Properties of [setTicketQuantity] and [loadAutoPurchaseConfig] *)
(* ================================================================== *)

Section QuantityAndConfig.

Import Runtime Dom Engine.

(** C9.  With the configured quantity absent, zero or one,
    [setTicketQuantity] returns [false] and the state it returns is the
    state it was given: no call reaches the page and nothing is logged. *)
Theorem setTicketQuantity_skips_one (E : Env) (page : Page) (s : St E) :
  setTicketQuantity page None s = (s, Ret false)
  /\ setTicketQuantity page (Some 0) s = (s, Ret false)
  /\ setTicketQuantity page (Some 1) s = (s, Ret false).
Proof. repeat split. Qed.

(** C8.  When the first select of the document with [quantity] in its id,
    name or class offers exactly the quantities 1 to 3, the script asked
    for 4 takes the first option that offers 3, sets the value of that
    select to the value of the option and leaves the rest of the select and
    of the document as they were, dispatches [change] on it and returns
    [{ success: true, quantity: 3 }], and [setTicketQuantity] logs the two
    lines of a reduced quantity and returns [true].  In general, when that
    select lacks the desired quantity and [q] is the highest quantity it
    offers below, down to 1, the script sets the select to the first option
    offering [q] in the same way and reports [q]. *)
Theorem setTicketQuantity_degrades (d : Document) (i : nat) (sel : SelectEl) :
  let chosen (o : OptionEl) : SelectEl :=
    {| sel_id := sel_id sel; sel_name := sel_name sel;
       sel_className := sel_className sel; sel_options := sel_options sel;
       sel_value := opt_value o |} in
  let changed (o : OptionEl) : Document :=
    {| selects := setNth i (chosen o) (selects d);
       numberInputs := numberInputs d; checkboxes := checkboxes d;
       radios := radios d; modalText := modalText d;
       filmDescs := filmDescs d; elements := elements d;
       buttonTexts := buttonTexts d;
       events := (events d ++ [SelectChanged i])%list |} in
  findIndex isQuantitySelect (selects d) = Some (i, sel) ->
  ((forall q, existsb (offers q) (sel_options sel) = true <-> 1 <= q <= 3) ->
   exists o,
     find (offers 3) (sel_options sel) = Some o
     /\ In o (sel_options sel) /\ offers 3 o = true
     /\ setTicketQuantityScript 4 d
        = (changed o, {| q_success := true; q_quantity := Some 3 |})
     /\ nth_error (selects (changed o)) i = Some (chosen o)
     /\ (forall j, j <> i ->
           nth_error (selects (changed o)) j = nth_error (selects d) j)
     /\ forall (E : Env) (page : Page) (s : St E) (w1 w2 : World E),
          call E (GetDocument page) (world s) = (w1, inr d) ->
          call E (SetDocument page (changed o)) w1 = (w2, inr tt) ->
          setTicketQuantity page (Some 4) s
          = ({| world := w2;
                console := (console s
                            ++ [LogOnlyAvailable 3 4; LogSetQuantity 3])%list |},
             Ret true))
  /\ (forall desired q,
        1 <= q < desired ->
        existsb (offers q) (sel_options sel) = true ->
        (forall q', q < q' <= desired ->
           existsb (offers q') (sel_options sel) = false) ->
        exists o,
          find (offers q) (sel_options sel) = Some o
          /\ In o (sel_options sel) /\ offers q o = true
          /\ setTicketQuantityScript desired d
             = (changed o, {| q_success := true; q_quantity := Some q |})
          /\ nth_error (selects (changed o)) i = Some (chosen o)
          /\ (forall j, j <> i ->
                nth_error (selects (changed o)) j = nth_error (selects d) j)).
Proof.
  intros chosen changed Hsel.
  assert (Hat : nth_error (selects d) i = Some sel).
  { clear - Hsel. revert i Hsel.
    induction (selects d) as [|x r IH]; intros i; simpl; [discriminate|].
    destruct (isQuantitySelect x).
    - intros [= <- <-]. reflexivity.
    - destruct (findIndex isQuantitySelect r) as [[j y]|]; [|discriminate].
      intros [= <- <-]. simpl. now apply IH. }
  assert (Hnth : forall o, nth_error (selects (changed o)) i = Some (chosen o)).
  { intro o. cbn [changed selects]. clear - Hat. revert i Hat.
    induction (selects d) as [|x r IH]; intros [|i]; simpl;
      try discriminate; auto. }
  assert (Hother : forall o j, j <> i ->
            nth_error (selects (changed o)) j = nth_error (selects d) j).
  { intros o j. cbn [changed selects]. clear. revert i j.
    induction (selects d) as [|x r IH]; intros [|i] [|j] Hj; simpl;
      try reflexivity; try (now destruct Hj).
    apply IH. congruence. }
  assert (Hgeneral : forall desired q,
            1 <= q < desired ->
            existsb (offers q) (sel_options sel) = true ->
            (forall q', q < q' <= desired ->
               existsb (offers q') (sel_options sel) = false) ->
            exists o,
              find (offers q) (sel_options sel) = Some o
              /\ In o (sel_options sel) /\ offers q o = true
              /\ setTicketQuantityScript desired d
                 = (changed o, {| q_success := true; q_quantity := Some q |})).
  { intros desired q Hq Hoffered Hnone.
    destruct (@script_degrades d i sel desired q Hsel Hq Hoffered Hnone)
      as (o & Ho & Hscript).
    exists o. destruct (find_some _ _ Ho) as [Hin Hoff].
    repeat split; auto. }
  split.
  - intros Hexact.
    destruct (Hgeneral 4 3) as (o & Ho & Hin & Hoff & Hscript).
    + lia.
    + apply Hexact; lia.
    + intros q' Hq'.
      destruct (existsb (offers q') (sel_options sel)) eqn:Hx; auto.
      apply Hexact in Hx. lia.
    + exists o. repeat split; auto.
      intros E page s w1 w2 Hget Hset.
      unfold setTicketQuantity. simpl.
      erewrite bind_Ret.
      2:{ apply evaluate_run with (w1 := w1) (d := d); [exact Hget|].
          rewrite Hscript. exact Hset. }
      rewrite Hscript. unfold bind, log, ret; simpl.
      now rewrite <- app_assoc.
  - intros desired q Hq Hoffered Hnone.
    destruct (Hgeneral desired q Hq Hoffered Hnone)
      as (o & Ho & Hin & Hoff & Hscript).
    exists o. repeat split; auto.
Qed.

Lemma ofZ_inj (a b : Z) : Js.ofZ a = Js.ofZ b -> a = b.
Proof.
  unfold Js.ofZ. intros H.
  apply (f_equal NilZero.int_of_string) in H.
  rewrite !NilZero.isi in H.
  - injection H as H. now apply DecimalZ.to_int_inj.
  - destruct b; simpl; try discriminate.
    intros Hb; injection Hb as Hb. now apply DecimalPos.Unsigned.to_uint_nonnil in Hb.
  - destruct b; simpl; try discriminate.
    intros Hb; injection Hb as Hb. now apply DecimalPos.Unsigned.to_uint_nonnil in Hb.
  - destruct a; simpl; try discriminate.
    intros Ha; injection Ha as Ha. now apply DecimalPos.Unsigned.to_uint_nonnil in Ha.
  - destruct a; simpl; try discriminate.
    intros Ha; injection Ha as Ha. now apply DecimalPos.Unsigned.to_uint_nonnil in Ha.
Qed.

(** The quantity select of the double offers exactly 1, 2 and 3. *)
Lemma quantitySelect_offers (q : Z) :
  existsb (offers q) (sel_options Double.quantitySelect) = true
  <-> 1 <= q <= 3.
Proof.
  split.
  - cbn [existsb Double.quantitySelect sel_options]. unfold offers.
    cbn [opt_value opt_textContent].
    change (Js.trim "1") with (Js.ofZ 1).
    change (Js.trim "2") with (Js.ofZ 2).
    change (Js.trim "3") with (Js.ofZ 3).
    change "1"%string with (Js.ofZ 1).
    change "2"%string with (Js.ofZ 2).
    change "3"%string with (Js.ofZ 3).
    rewrite !orb_true_iff, !String.eqb_eq.
    intros H.
    repeat match goal with
           | H : _ \/ _ |- _ => destruct H
           | H : Js.ofZ _ = Js.ofZ _ |- _ => apply ofZ_inj in H
           end; try discriminate; lia.
  - intros Hq. assert (q = 1 \/ q = 2 \/ q = 3) as [->|[->| ->]] by lia;
      reflexivity.
Qed.

End QuantityAndConfig.

(* ================================================================== *)
(** * Sound computations *)
(* ================================================================== *)

Section Sound.

Import Runtime Observe.

Variable E : Env.
Variable R : St E -> St E -> Prop.
Hypothesis HR : Stable R.

Lemma sound_ret {A : Type} (a : A) : sound R (ret a).
Proof. intro s; split; [apply HR | discriminate]. Qed.

Lemma sound_throw {A : Type} (e : Exn) : sound R (@throw E A e).
Proof. intro s; split; [apply HR | discriminate]. Qed.

Lemma sound_bind {A B : Type} (m : M E A) (k : A -> M E B) :
  sound R m -> (forall a, sound R (k a)) -> sound R (bind m k).
Proof.
  intros Hm Hk s. unfold bind.
  destruct (Hm s) as [Rm Sm]. destruct (m s) as [s1 [a|e|]]; simpl in *.
  - destruct (Hk a s1) as [Rk Sk]. split; [|exact Sk].
    eapply stable_trans; eauto.
  - split; [exact Rm | discriminate].
  - congruence.
Qed.

Lemma sound_perform {A : Type} (op : Op A) : sound R (perform op).
Proof.
  intro s. unfold perform.
  pose proof (stable_call HR op s) as Hc.
  destruct (call E op (world s)) as [w [e|a]]; simpl in *;
    (split; [exact Hc | discriminate]).
Qed.

Lemma sound_log (line : Log) : isStep line = false -> sound R (log line).
Proof.
  intros Hl s; split; [now apply (stable_log HR) | discriminate].
Qed.

Lemma sound_dateNow : sound R (@dateNow E).
Proof. intro s; split; [apply HR | discriminate]. Qed.

Lemma sound_pageUrl (p : Page) : sound R (@pageUrl E p).
Proof. intro s; split; [apply HR | discriminate]. Qed.

Lemma sound_pageFrames (p : Page) : sound R (@pageFrames E p).
Proof. intro s; split; [apply HR | discriminate]. Qed.

Lemma sound_pageMainFrame (p : Page) : sound R (@pageMainFrame E p).
Proof. intro s; split; [apply HR | discriminate]. Qed.

Lemma sound_existsSync (path : string) : sound R (@existsSync E path).
Proof. intro s; split; [apply HR | discriminate]. Qed.

Lemma sound_tryThen {A B : Type} (m : M E A) (h : Exn -> M E B)
    (k : A -> M E B) :
  sound R m -> (forall e, sound R (h e)) -> (forall a, sound R (k a)) ->
  sound R (tryThen m h k).
Proof.
  intros Hm Hh Hk s. unfold tryThen.
  destruct (Hm s) as [Rm Sm]. destruct (m s) as [s1 [a|e|]]; simpl in *.
  - destruct (Hk a s1) as [Rk Sk]. split; [|exact Sk].
    eapply stable_trans; eauto.
  - destruct (Hh e s1) as [Rh Sh]. split; [|exact Sh].
    eapply stable_trans; eauto.
  - congruence.
Qed.

Lemma sound_tryCatch {A : Type} (m : M E A) (h : Exn -> M E A) :
  sound R m -> (forall e, sound R (h e)) -> sound R (tryCatch m h).
Proof.
  intros Hm Hh. apply sound_tryThen; auto. intro a; apply sound_ret.
Qed.

Lemma sound_orDefault {A : Type} (m : M E A) (d : A) :
  sound R m -> sound R (orDefault m d).
Proof.
  intros Hm. apply sound_tryCatch; auto. intro e; apply sound_ret.
Qed.

Lemma sound_evaluate {A : Type} (p : Page)
    (script : Dom.Document -> Dom.Document * A) :
  sound R (evaluate p script).
Proof.
  unfold evaluate. apply sound_bind; [apply sound_perform|].
  intro d. destruct (script d) as [d' a].
  apply sound_bind; [apply sound_perform|]. intros _; apply sound_ret.
Qed.

Lemma sound_orAwait (acted : bool) (action : M E bool) :
  sound R action -> sound R (orAwait acted action).
Proof. destruct acted; simpl; auto. intros _; apply sound_ret. Qed.

End Sound.

(** Takes a goal [sound R m] apart along the shape of [m]. *)
Ltac sound_step :=
  lazymatch goal with
  | H : Observe.sound ?R ?m |- Observe.sound ?R ?m => exact H
  | |- Observe.sound _ (Runtime.ret _) => apply sound_ret; assumption
  | |- Observe.sound _ (Runtime.throw _) => apply sound_throw; assumption
  | |- Observe.sound _ (Runtime.perform _) => apply sound_perform; assumption
  | |- Observe.sound _ Runtime.dateNow => apply sound_dateNow; assumption
  | |- Observe.sound _ (Runtime.pageUrl _) => apply sound_pageUrl; assumption
  | |- Observe.sound _ (Runtime.pageFrames _) =>
      apply sound_pageFrames; assumption
  | |- Observe.sound _ (Runtime.pageMainFrame _) =>
      apply sound_pageMainFrame; assumption
  | |- Observe.sound _ (Runtime.existsSync _) =>
      apply sound_existsSync; assumption
  | |- Observe.sound _ (Runtime.evaluate _ _) =>
      apply sound_evaluate; assumption
  | |- Observe.sound _ (Runtime.log _) =>
      apply sound_log; [assumption | reflexivity]
  | |- Observe.sound _ (Runtime.orDefault _ _) =>
      apply sound_orDefault; [assumption |]
  | |- Observe.sound _ (Runtime.orAwait _ _) =>
      apply sound_orAwait; [assumption |]
  | |- Observe.sound _ (Runtime.tryCatch _ _) =>
      apply sound_tryCatch; [assumption | | intro]
  | |- Observe.sound _ (Runtime.tryThen _ _ _) =>
      apply sound_tryThen; [assumption | | intro | intro]
  | |- Observe.sound _ (Runtime.bind _ _) =>
      apply sound_bind; [assumption | | intro]
  | |- Observe.sound _ (if ?b then _ else _) => destruct b
  | |- Observe.sound _ (match ?x with _ => _ end) => destruct x
  end.

Ltac sound := repeat sound_step.

Section SoundHelpers.

Import Runtime Observe Engine.

Variable E : Env.
Variable R : St E -> St E -> Prop.
Hypothesis HR : Stable R.

Lemma sound_waitForPageSettled (page : Page) (waitMs : Z) :
  sound R (waitForPageSettled page waitMs).
Proof. unfold waitForPageSettled. sound. Qed.

Lemma sound_clickFirstTarget (locator : Locator) (label : string)
    (quiet : bool) (positions : list nat) :
  sound R (clickFirstTarget locator label quiet positions).
Proof.
  induction positions as [|i rest IH]; cbn [clickFirstTarget]; sound.
Qed.

Lemma sound_clickFirstMatching (context : Context) (patterns : list string)
    (label : string) (quiet : bool) :
  sound R (clickFirstMatching context patterns label quiet).
Proof.
  induction patterns as [|pattern rest IH]; cbn [clickFirstMatching]; sound.
  apply sound_clickFirstTarget.
Qed.

Lemma sound_contexts (page : Page) : sound R (contexts page).
Proof. unfold contexts. sound. Qed.

Lemma sound_clickInContexts (ctxs : list Context) (patterns : list string)
    (label : string) (quiet : bool) :
  sound R (clickInContexts ctxs patterns label quiet).
Proof.
  induction ctxs as [|context rest IH]; cbn [clickInContexts]; sound.
  apply sound_clickFirstMatching.
Qed.

Lemma sound_clickByTextContent (page : Page) (searchText label : string) :
  sound R (clickByTextContent page searchText label).
Proof. unfold clickByTextContent. sound. Qed.

Lemma sound_dumpVisibleButtons (page : Page) (label : string) :
  sound R (dumpVisibleButtons page label).
Proof. unfold dumpVisibleButtons. sound. Qed.

Lemma sound_checkTermsCheckboxes (page : Page) :
  sound R (checkTermsCheckboxes page).
Proof. unfold checkTermsCheckboxes. sound. Qed.

Lemma sound_setTicketQuantity (page : Page) (quantity : option Z) :
  sound R (setTicketQuantity page quantity).
Proof. unfold setTicketQuantity. sound. Qed.

Lemma sound_selectSavedPayment (page : Page) :
  sound R (selectSavedPayment page).
Proof. unfold selectSavedPayment. sound. Qed.

Lemma sound_firstVisible (page : Page) (sel : string) :
  sound R (firstVisible page sel).
Proof. unfold firstVisible. sound. Qed.

Lemma sound_detectLogin (page : Page) : sound R (detectLogin page).
Proof. unfold detectLogin. sound; apply sound_firstVisible. Qed.

Lemma sound_detectQueue (page : Page) : sound R (detectQueue page).
Proof. unfold detectQueue. sound; apply sound_firstVisible. Qed.

Lemma sound_detectConfirmation (page : Page) :
  sound R (detectConfirmation page).
Proof. unfold detectConfirmation. sound; apply sound_firstVisible. Qed.

Lemma sound_detectBlockingError (page : Page) :
  sound R (detectBlockingError page).
Proof. unfold detectBlockingError. sound. Qed.

Lemma sound_clickOrderTicketsButton (page : Page) (filmTitle : string) :
  sound R (clickOrderTicketsButton page filmTitle).
Proof. unfold clickOrderTicketsButton. sound. Qed.

Lemma sound_debugScreenshot (debug : bool) (slug : string) (runId : Z)
    (currentPage : Page) (label : string) :
  sound R (debugScreenshot debug slug runId currentPage label).
Proof. unfold debugScreenshot. sound. Qed.

Lemma sound_purchaseError (runId : Z) (currentPage : Page) (error : Exn) :
  sound R (purchaseError runId currentPage error).
Proof. unfold purchaseError. sound. Qed.

End SoundHelpers.

(* ================================================================== *)
(** * The polling loop ends *)
(* ================================================================== *)

Section Polling.

Import Runtime Observe Engine.

Variable E : Env.
Hypothesis clock : ClockLaws E.

Lemma later_stable : Stable (@later E).
Proof.
  constructor; unfold later; simpl; intros.
  - lia.
  - lia.
  - apply (clock_call clock).
  - lia.
Qed.

Lemma perform_wait (page : Page) (ms : Z) (s s' : St E) :
  perform (WaitForTimeout page ms) s = (s', Ret tt) ->
  now E (world s) + ms <= now E (world s').
Proof.
  unfold perform.
  destruct (call E (WaitForTimeout page ms) (world s)) as [w [e|[]]] eqn:Hc;
    intros H; inversion H; subst; simpl.
  eapply clock_wait; eauto.
Qed.

Variable R : St E -> St E -> Prop.
Hypothesis HR : Stable R.

(** While the deadline is at most [fuel - 1] waits away, the loop ends
    before its fuel does. *)
Lemma pollContexts_run (page : Page) (patterns : list string)
    (label : string) (waitMs deadline : Z) :
  forall (fuel : nat) (s s' : St E) (o : Outcome bool),
    pollContexts fuel page patterns label waitMs deadline s = (s', o) ->
    deadline - now E (world s) <= 500 * (Z.of_nat fuel - 1) ->
    (1 <= fuel)%nat ->
    R s s' /\ o <> Spin.
Proof.
  induction fuel as [|fuel IH]; intros s s' o Hrun Hdeadline Hfuel; [lia|].
  cbn [pollContexts] in Hrun.
  apply bind_inv in Hrun as [(s1 & ctxs & H1 & Hrun)|[(e & H1 & ->)|[H1 ->]]].
  2:{ split; [|discriminate]. apply (run_sound (sound_contexts HR page) H1). }
  2:{ now apply (run_sound (sound_contexts HR page)) in H1. }
  destruct (run_sound (sound_contexts HR page) H1) as [R1 _].
  destruct (run_sound (sound_contexts later_stable page) H1) as [L1 _].
  apply bind_inv in Hrun as [(s2 & done & H2 & Hrun)|[(e & H2 & ->)|[H2 ->]]].
  2:{ split; [|discriminate]. eapply stable_trans; eauto.
      apply (run_sound (sound_clickInContexts HR _ _ _ _) H2). }
  2:{ now apply (run_sound (sound_clickInContexts HR _ _ _ _)) in H2. }
  destruct (run_sound (sound_clickInContexts HR _ _ _ _) H2) as [R2 _].
  destruct (run_sound (sound_clickInContexts later_stable _ _ _ _) H2)
    as [L2 _].
  assert (R02 : R s s2) by (eapply stable_trans; eauto).
  destruct done.
  - assert (Hs : sound R
                   (bind (if 0 <? waitMs then log (LogClickedAfterWait label)
                          else ret tt)
                         (fun _ => @ret E bool true))) by sound.
    destruct (run_sound Hs Hrun) as [R3 S3]. split; [|exact S3].
    eapply stable_trans; eauto.
  - apply bind_inv in Hrun
      as [(s3 & t & H3 & Hrun)|[(e & H3 & ->)|[H3 ->]]];
      try discriminate.
    unfold dateNow in H3. inversion H3; subst s3 t; clear H3.
    destruct (deadline <=? now E (world s2)) eqn:Hd.
    + inversion Hrun; subst. split; [exact R02|discriminate].
    + apply Z.leb_gt in Hd.
      apply bind_inv in Hrun
        as [(s3 & [] & H3 & Hrun)|[(e & H3 & ->)|[H3 ->]]].
      * destruct (run_sound (sound_perform HR _) H3) as [R3 _].
        apply perform_wait in H3. unfold later in *.
        destruct (IH _ _ _ Hrun) as [R4 S4]; [lia|lia|].
        split; [|exact S4].
        eapply (stable_trans HR); [|exact R4].
        eapply (stable_trans HR); eauto.
      * split; [|discriminate]. eapply stable_trans; eauto.
        apply (run_sound (sound_perform HR _) H3).
      * now apply (run_sound (sound_perform HR _)) in H3.
Qed.

Lemma sound_pollContexts (page : Page) (patterns : list string)
    (label : string) (waitMs deadline : Z) (fuel : nat) (s : St E) :
  deadline - now E (world s) <= 500 * (Z.of_nat fuel - 1) ->
  (1 <= fuel)%nat ->
  R s (fst (pollContexts fuel page patterns label waitMs deadline s))
  /\ snd (pollContexts fuel page patterns label waitMs deadline s) <> Spin.
Proof.
  intros Hd Hf.
  destruct (pollContexts fuel page patterns label waitMs deadline s)
    as [s' o] eqn:Hrun.
  eapply pollContexts_run; eauto.
Qed.

Lemma orZ_Some_0 (w : Z) : Js.orZ (Some w) 0 = w.
Proof.
  unfold Js.orZ, Js.truthyZ. destruct (w =? 0) eqn:Hw; simpl; auto.
  apply Z.eqb_eq in Hw. auto.
Qed.

Lemma sound_clickFirstMatchingAnyContext (fuel : nat) (page : Page)
    (patterns : list string) (label : string) (optionsWaitMs : option Z) :
  enoughFor (Z.max 0 (Js.orZ optionsWaitMs 0)) fuel ->
  sound R (clickFirstMatchingAnyContext fuel page patterns label
             optionsWaitMs).
Proof.
  unfold enoughFor. intros Hfuel s.
  unfold clickFirstMatchingAnyContext, bind, dateNow.
  apply sound_pollContexts; lia.
Qed.

(** The users of the polling loop, for a relation that the step lines keep
    and a budget that covers the longest wait. *)
Hypothesis Rsteps : keepsSteps R.

Variable settings : Settings.
Variable fuel : nat.
Hypothesis Hfuel : enough settings fuel.

Lemma enough_click : enoughFor (Z.max 0 (Js.orZ None 0)) fuel.
Proof.
  unfold enough, enoughFor in *. change (Js.orZ None 0) with 0. lia.
Qed.

Lemma enough_open :
  enoughFor
    (Z.max 0 (Js.orZ (Some (Js.orZ (waitForBuyAdditionalMs settings) 15000)) 0))
    fuel.
Proof. rewrite orZ_Some_0. exact Hfuel. Qed.

Lemma sound_step_line (step : Z) : sound R (@log E (LogCheckoutStep step)).
Proof. intro s; split; [apply Rsteps | discriminate]. Qed.

Variable helpers : option (Helpers E).
Hypothesis Hhelpers :
  forall h label, helpers = Some h -> sound R (screenshot h label).

Lemma sound_checkoutActions (page : Page) (stepWaitMs step : Z) :
  sound R (checkoutActions fuel page settings helpers stepWaitMs step).
Proof.
  unfold checkoutActions.
  apply sound_bind; [assumption | sound; apply sound_checkTermsCheckboxes; auto |].
  intro actedA.
  apply sound_bind;
    [assumption
    | apply sound_clickFirstMatchingAnyContext; apply enough_click |].
  intro final.
  apply sound_bind; [assumption | |].
  { destruct final; sound.
    - apply sound_waitForPageSettled; auto.
    - apply sound_detectConfirmation; auto. }
  intros [result|actedB]; [sound|].
  apply sound_bind; [assumption | sound; apply sound_setTicketQuantity; auto |].
  intro actedC.
  apply sound_bind; [assumption | sound; apply sound_selectSavedPayment; auto |].
  intro actedD.
  apply sound_bind; [assumption | sound |].
  { apply sound_clickFirstMatchingAnyContext; apply enough_click. }
  intro acted. destruct (negb acted).
  - apply sound_bind; [assumption | | intro; sound].
    destruct (_ || _); [apply sound_dumpVisibleButtons; auto | sound].
  - apply sound_bind; [assumption | apply sound_waitForPageSettled; auto |].
    intros _. destruct helpers as [h|] eqn:Hh; [|sound].
    apply sound_bind; [assumption | | intro; sound].
    destruct (debug h); [eapply Hhelpers; reflexivity | sound].
Qed.

Lemma sound_leave (page : Page) (result : string -> CheckoutResult) :
  sound R (leave page result).
Proof. unfold leave. sound. Qed.

Lemma sound_checkoutStep (page : Page) (stepWaitMs step : Z) :
  sound R (checkoutStep fuel page settings helpers stepWaitMs step).
Proof.
  unfold checkoutStep.
  apply sound_bind; [assumption | apply sound_step_line |]. intros _.
  apply sound_bind; [assumption | apply sound_detectQueue; auto |].
  intros [|]; [apply sound_leave|].
  apply sound_bind; [assumption | apply sound_detectLogin; auto |].
  intros [|]; [apply sound_leave|].
  apply sound_bind; [assumption | apply sound_detectConfirmation; auto |].
  intros [|]; [apply sound_leave|].
  apply sound_bind; [assumption | apply sound_detectBlockingError; auto |].
  intros [|]; [apply sound_leave|].
  apply sound_checkoutActions.
Qed.

Lemma sound_checkoutLoop (page : Page) (stepWaitMs : Z) :
  forall (remaining : nat) (step : Z),
    sound R (checkoutLoop fuel page settings helpers stepWaitMs remaining
               step).
Proof.
  induction remaining as [|n IH]; intro step; cbn [checkoutLoop]; [sound|].
  apply sound_bind; [assumption | apply sound_checkoutStep |].
  intros [result|]; [sound | apply IH].
Qed.

Lemma sound_openCheckout (page : Page) (stepWaitMs : Z) :
  sound R (openCheckout fuel page stepWaitMs
             (Js.orZ (waitForBuyAdditionalMs settings) 15000)).
Proof.
  unfold openCheckout. sound.
  - apply sound_clickByTextContent; auto.
  - apply sound_clickFirstMatchingAnyContext. apply enough_open.
  - apply sound_waitForPageSettled; auto.
Qed.

Lemma sound_runCheckoutFlow (page : Page) :
  sound R (runCheckoutFlow fuel page settings helpers).
Proof.
  unfold runCheckoutFlow.
  apply sound_bind; [assumption | apply sound_openCheckout |]. intros _.
  apply sound_bind; [assumption | apply sound_checkoutLoop |].
  intros [result|]; sound.
Qed.

End Polling.

(* ================================================================== *)
(** * The checkout loop on an inert page *)
(* ================================================================== *)

Section Steps.

Import Runtime Observe.

Variable E : Env.

Lemma steps_app (a b : list Log) : steps (a ++ b) = (steps a ++ steps b)%list.
Proof.
  induction a as [|line a IH]; simpl; auto.
  destruct line; simpl; now rewrite ?IH.
Qed.

Lemma steps_line (lines : list Log) (line : Log) :
  isStep line = false -> steps (lines ++ [line]) = steps lines.
Proof.
  intros H. rewrite steps_app. destruct line; try discriminate;
    simpl; now rewrite app_nil_r.
Qed.

Lemma sameSteps_stable : Stable (@sameSteps E).
Proof.
  constructor; unfold sameSteps; simpl; intros; try congruence.
  now apply steps_line.
Qed.

(** The relation that holds of any two states: what is sound for it ends. *)
Lemma any_stable : Stable (fun _ _ : St E => True).
Proof. constructor; auto. Qed.

Lemma stepsFrom_length (count : nat) :
  forall first, List.length (stepsFrom first count) = count.
Proof. induction count; intros; simpl; auto. Qed.

Lemma stepsFrom_nth (count : nat) :
  forall first i, (i < count)%nat ->
    nth i (stepsFrom first count) 0 = first + Z.of_nat i.
Proof.
  induction count as [|n IH]; intros first i Hi; [lia|].
  destruct i as [|j]; simpl stepsFrom; cbn [nth]; [lia|].
  rewrite IH by lia. lia.
Qed.

End Steps.

Section InertPage.

Import Runtime Observe Engine.

Variable E : Env.
Hypothesis clock : ClockLaws E.
Variable page : Page.
Variable Inv : World E -> Prop.
Variable settings : Settings.
Hypothesis inert : @Inert E Inv page settings.

(** One call on the inert page: it returns what [Hinert] says, and what
    [Hsound] says of its states holds. *)
Ltac inert_call Hinert Hsound :=
  lazymatch goal with
  | HI : Inv (world ?s) |- exists s', (bind ?m ?k ?s = _ /\ _) /\ _ =>
      let s1 := fresh "s" in
      let H := fresh "H" in
      let S := fresh "S" in
      let I := fresh "I" in
      destruct (Hinert s HI) as (s1 & H & I);
      pose proof (proj1 (run_sound (Hsound _ (sameSteps_stable E)) H)) as S;
      rewrite (bind_Ret _ _ H); clear HI
  end.

Lemma clickInContexts_inert (patterns : list string) (label : string)
    (quiet : bool) :
  In (patterns, label) soughtControls ->
  forall (ctxs : list Context) (s : St E),
    (forall context, In context ctxs ->
       exists w, Inv w /\ In context (@contextsAt E page w)) ->
    Inv (world s) ->
    exists s',
      clickInContexts ctxs patterns label quiet s = (s', Ret false)
      /\ Inv (world s').
Proof.
  intros Hsought.
  induction ctxs as [|context rest IH]; intros s Hctxs HI;
    cbn [clickInContexts].
  - exists s. split; [reflexivity | exact HI].
  - destruct (Hctxs context (or_introl eq_refl)) as (w & Hw & Hin).
    destruct (@inert_click E Inv page settings inert w context patterns
                label quiet Hw Hin Hsought s HI) as (s1 & H1 & I1).
    rewrite (bind_Ret _ _ H1). apply IH; [|exact I1].
    intros c Hc. apply Hctxs. now right.
Qed.

Lemma pollContexts_inert (patterns : list string) (label : string)
    (waitMs deadline : Z) :
  In (patterns, label) soughtControls ->
  forall (fuel : nat) (s : St E),
    deadline - now E (world s) <= 500 * (Z.of_nat fuel - 1) ->
    (1 <= fuel)%nat ->
    Inv (world s) ->
    exists s',
      pollContexts fuel page patterns label waitMs deadline s
      = (s', Ret false)
      /\ Inv (world s').
Proof.
  intros Hsought.
  induction fuel as [|fuel IH]; intros s Hdeadline Hfuel HI; [lia|].
  cbn [pollContexts].
  rewrite (bind_Ret (s' := s) _ _ eq_refl).
  destruct (@clickInContexts_inert patterns label (0 <? waitMs) Hsought
              (@contextsAt E page (world s)) s) as (s2 & H2 & I2).
  { intros context Hin. exists (world s). now split. }
  { exact HI. }
  change (@contextsAt E page (world s))
    with (OnPage page
          :: map (OnFrame page)
               (filter (fun f => negb (f =? mainFrameOf E (world s) page)%nat)
                       (framesOf E (world s) page))) in H2.
  rewrite (bind_Ret _ _ H2).
  destruct (run_sound (sound_clickInContexts (later_stable clock) _ _ _ _) H2)
    as [L2 _].
  rewrite (bind_Ret (s' := s2) _ _ eq_refl).
  destruct (deadline <=? now E (world s2)) eqn:Hd.
  - exists s2. split; [reflexivity | exact I2].
  - apply Z.leb_gt in Hd.
    destruct (@inert_wait E Inv page settings inert 500
                (or_introl eq_refl) s2 I2) as (s3 & H3 & I3).
    rewrite (bind_Ret _ _ H3).
    apply (perform_wait clock) in H3. unfold later in *.
    apply IH; [lia | lia | exact I3].
Qed.

Lemma clickFirstMatchingAnyContext_inert (fuel : nat)
    (patterns : list string) (label : string) (optionsWaitMs : option Z) :
  In (patterns, label) soughtControls ->
  enoughFor (Z.max 0 (Js.orZ optionsWaitMs 0)) fuel ->
  @settles E Inv bool
    (clickFirstMatchingAnyContext fuel page patterns label optionsWaitMs)
    false.
Proof.
  unfold enoughFor. intros Hsought Hfuel s HI.
  unfold clickFirstMatchingAnyContext.
  rewrite (bind_Ret (s' := s) _ _ eq_refl).
  apply pollContexts_inert; [exact Hsought | lia | lia | exact HI].
Qed.

Variable fuel : nat.
Hypothesis Hfuel : enough settings fuel.
Variable helpers : option (Helpers E).

Lemma openCheckout_inert (stepWaitMs : Z) (s : St E) :
  Inv (world s) ->
  exists s',
    (openCheckout fuel page stepWaitMs
       (Js.orZ (waitForBuyAdditionalMs settings) 15000) s = (s', Ret tt)
     /\ sameSteps s s')
    /\ Inv (world s').
Proof.
  intro HI.
  unfold openCheckout.
  rewrite (bind_Ret (log LogLookingForBuyAdditional) _ eq_refl).
  change (Inv (world {| world := world s;
                        console := (console s
                                    ++ [LogLookingForBuyAdditional])%list |}))
    in HI.
  inert_call (@inert_wait E Inv page settings inert 1500
                (or_intror (or_introl eq_refl)))
             (fun R HR => @sound_perform E R HR _ (WaitForTimeout page 1500)).
  inert_call (@inert_text E Inv page settings inert)
             (fun R HR => @sound_clickByTextContent E R HR page
                "buy additional tickets" "Buy additional tickets").
  cbn [negb].
  inert_call (@clickFirstMatchingAnyContext_inert fuel
                TEXT_PATTERNS_buyAdditional "Buy additional tickets"
                (Some (Js.orZ (waitForBuyAdditionalMs settings) 15000))
                (or_introl eq_refl) (enough_open Hfuel))
             (fun R HR => @sound_clickFirstMatchingAnyContext E clock R HR
                fuel page TEXT_PATTERNS_buyAdditional "Buy additional tickets"
                (Some (Js.orZ (waitForBuyAdditionalMs settings) 15000))
                (enough_open Hfuel)).
  eexists; split; [split; [reflexivity|] | eassumption].
  unfold sameSteps in *; simpl in *.
  rewrite steps_line by reflexivity.
  rewrite S1, S0, S. now rewrite steps_line by reflexivity.
Qed.

(** A turn of the loop on the inert page logs its step and goes on. *)
Lemma checkoutStep_inert (stepWaitMs step : Z) (s : St E) :
  Inv (world s) ->
  exists s',
    (checkoutStep fuel page settings helpers stepWaitMs step s = (s', Ret None)
     /\ steps (console s') = (steps (console s) ++ [step])%list)
    /\ Inv (world s').
Proof.
  intro HI.
  unfold checkoutStep.
  rewrite (bind_Ret (log (LogCheckoutStep step)) _ eq_refl).
  change (Inv (world {| world := world s;
                        console := (console s
                                    ++ [LogCheckoutStep step])%list |}))
    in HI.
  inert_call (@inert_queue E Inv page settings inert)
             (fun R HR => @sound_detectQueue E R HR page).
  inert_call (@inert_login E Inv page settings inert)
             (fun R HR => @sound_detectLogin E R HR page).
  inert_call (@inert_confirmation E Inv page settings inert)
             (fun R HR => @sound_detectConfirmation E R HR page).
  inert_call (@inert_error E Inv page settings inert)
             (fun R HR => @sound_detectBlockingError E R HR page).
  unfold checkoutActions. cbn [orAwait].
  inert_call (@inert_terms E Inv page settings inert)
             (fun R HR => @sound_checkTermsCheckboxes E R HR page).
  inert_call (@clickFirstMatchingAnyContext_inert fuel TEXT_PATTERNS_final
                "Complete purchase" None
                (or_intror (or_introl eq_refl)) (enough_click Hfuel))
             (fun R HR => @sound_clickFirstMatchingAnyContext E clock R HR
                fuel page TEXT_PATTERNS_final "Complete purchase" None
                (enough_click Hfuel)).
  rewrite (bind_Ret (s' := s5) _ _ eq_refl). cbn [orAwait].
  inert_call (@inert_quantity E Inv page settings inert)
             (fun R HR => @sound_setTicketQuantity E R HR page
                (ticketQuantity settings)).
  cbn [orAwait].
  inert_call (@inert_payment E Inv page settings inert)
             (fun R HR => @sound_selectSavedPayment E R HR page).
  cbn [orAwait].
  inert_call (@clickFirstMatchingAnyContext_inert fuel TEXT_PATTERNS_continue
                "Continue" None
                (or_intror (or_intror (or_introl eq_refl)))
                (enough_click Hfuel))
             (fun R HR => @sound_clickFirstMatchingAnyContext E clock R HR
                fuel page TEXT_PATTERNS_continue "Continue" None
                (enough_click Hfuel)).
  cbn [negb].
  assert (Hdump :
    exists s9,
      ((if match debugScreenshots settings with Some b => b | None => false end
           || match debugButtonDump settings with Some b => b | None => false end
        then dumpVisibleButtons page
               ("Step " ++ Js.ofZ step ++ " - no action taken")
        else ret tt) s8 = (s9, Ret tt)
       /\ sameSteps s8 s9)
      /\ Inv (world s9)).
  { pose proof (@inert_dump E Inv page settings inert step) as Hd.
    unfold dumps in Hd.
    destruct (_ || _).
    - destruct (Hd eq_refl s8 ltac:(eassumption)) as (s9 & H9 & I9).
      exists s9; split; [split; [exact H9|] | exact I9].
      apply (run_sound (sound_dumpVisibleButtons (sameSteps_stable E) _ _) H9).
    - exists s8; split; [split; reflexivity | eassumption]. }
  destruct Hdump as (s9 & (H9 & S9) & I9).
  rewrite (bind_Ret _ _ H9).
  match goal with HI : Inv (world s8) |- _ => clear HI end.
  inert_call (@inert_wait E Inv page settings inert 1500
                (or_intror (or_introl eq_refl)))
             (fun R HR => @sound_perform E R HR _ (WaitForTimeout page 1500)).
  eexists; split; [split; [reflexivity|] | eassumption].
  unfold sameSteps in *; simpl in *.
  repeat match goal with
         | H : steps (console ?a) = _ |- context [steps (console ?a)] =>
             rewrite H; clear H
         end.
  rewrite steps_app. reflexivity.
Qed.

Lemma checkoutLoop_inert (stepWaitMs : Z) :
  forall (remaining : nat) (step : Z) (s : St E),
    Inv (world s) ->
    exists s',
      (checkoutLoop fuel page settings helpers stepWaitMs remaining step s
       = (s', Ret None)
       /\ steps (console s')
          = (steps (console s) ++ stepsFrom step remaining)%list)
      /\ Inv (world s').
Proof.
  induction remaining as [|n IH]; intros step s HI;
    cbn [checkoutLoop stepsFrom].
  - exists s; split; [split; [reflexivity | now rewrite app_nil_r] | exact HI].
  - destruct (@checkoutStep_inert stepWaitMs step s HI)
      as (s1 & (H1 & S1) & I1).
    rewrite (bind_Ret _ _ H1).
    destruct (IH (step + 1) s1 I1) as (s2 & (H2 & S2) & I2).
    exists s2; split; [split; [exact H2|] | exact I2].
    rewrite S2, S1, <- app_assoc. reflexivity.
Qed.

End InertPage.

(** C1.  On a page where no hazard detector ever fires and no action of
    the flow ever has an effect, [runCheckoutFlow] takes the turns [1] to
    [settings.maxSteps || 12] of its main loop and then returns the failure
    "Checkout flow incomplete": [maxSteps] turns when [maxSteps] is
    positive, twelve when it is absent or [0], and none when it is
    negative.  It takes no turn beyond that, and it ends: with a clock that
    goes on, any fuel that covers the wait for the additional-tickets
    prompt gives this result. *)
Theorem runCheckoutFlow_exhausts (E : Runtime.Env) (page : Runtime.Page)
    (settings : Settings) (helpers : option (Engine.Helpers E)) (fuel : nat)
    (Inv : Runtime.World E -> Prop) (s : Runtime.St E) :
  Observe.ClockLaws E ->
  Observe.Inert E Inv page settings ->
  Inv (Runtime.world s) ->
  Observe.enough settings fuel ->
  let iterations := Z.to_nat (Js.orZ (maxSteps settings) 12) in
  exists s',
    Engine.runCheckoutFlow fuel page settings helpers s
    = (s', Runtime.Ret
             {| success := false; reason := "Checkout flow incomplete";
                res_url := Some (Runtime.urlOf E (Runtime.world s') page) |})
    /\ Observe.steps (Runtime.console s')
       = (Observe.steps (Runtime.console s)
          ++ Observe.stepsFrom 1 iterations)%list
    /\ List.length (Observe.stepsFrom 1 iterations) = iterations
    /\ (forall i, (i < iterations)%nat ->
          nth i (Observe.stepsFrom 1 iterations) 0 = 1 + Z.of_nat i)
    /\ Z.of_nat iterations = Z.max 0 (Js.orZ (maxSteps settings) 12)
    /\ (maxSteps settings = None -> iterations = 12%nat)
    /\ (maxSteps settings = Some 0 -> iterations = 12%nat)
    /\ (forall n, maxSteps settings = Some n -> 0 < n ->
          Z.of_nat iterations = n)
    /\ (forall n, maxSteps settings = Some n -> n < 0 -> iterations = O)
    /\ Inv (Runtime.world s').
Proof.
  intros clock inert HI Hfuel iterations.
  unfold Engine.runCheckoutFlow.
  destruct (@openCheckout_inert E clock page Inv settings inert fuel Hfuel
              (Js.orZ (stepWaitMs settings) 1800) s HI)
    as (s1 & (H1 & S1) & I1).
  rewrite (bind_Ret _ _ H1).
  destruct (@checkoutLoop_inert E clock page Inv settings inert fuel Hfuel
              helpers (Js.orZ (stepWaitMs settings) 1800) iterations 1 s1 I1)
    as (s2 & (H2 & S2) & I2).
  fold iterations. rewrite (bind_Ret _ _ H2).
  exists s2. repeat split.
  - rewrite S2. unfold Observe.sameSteps in S1. now rewrite S1.
  - apply stepsFrom_length.
  - intros i Hi. now apply stepsFrom_nth.
  - unfold iterations. lia.
  - intros Hnone. unfold iterations. now rewrite Hnone.
  - intros Hzero. unfold iterations. now rewrite Hzero.
  - intros n Hn Hpos. unfold iterations. rewrite Hn.
    destruct n as [|n|n]; try lia.
    change (Js.orZ (Some (Z.pos n)) 12) with (Z.pos n). lia.
  - intros n Hn Hneg. unfold iterations. rewrite Hn.
    destruct n as [|n|n]; try lia. reflexivity.
  - exact I2.
Qed.

(** The world that is only a clock satisfies the hypotheses of C1. *)
Section StillFacts.

Import Runtime Observe Engine.

Lemma still_clock : ClockLaws Still.env.
Proof.
  constructor.
  - intros A op w. destruct op; simpl; lia.
  - intros p ms w w' H. cbn in *. inversion H; subst.
    apply Z.add_le_mono_l, Z.le_max_r.
Qed.

Lemma still_click (context : Context) (label : string) (quiet : bool) :
  forall (patterns : list string) (s : St Still.env),
    exists s',
      clickFirstMatching context patterns label quiet s = (s', Ret false).
Proof.
  induction patterns as [|pattern rest IH]; intro s.
  - eexists; reflexivity.
  - cbn [clickFirstMatching].
    rewrite (bind_Ret (s' := s) (a := O) _ _); [|destruct s; reflexivity].
    cbn [Nat.min seq clickFirstTarget].
    rewrite (bind_Ret (s' := s) (a := false) _ _); [|reflexivity].
    apply IH.
Qed.

Lemma still_inert (page : Page) (settings : Settings) :
  @Inert Still.env (fun _ => True) page settings.
Proof.
  constructor.
  - intros [w c] _; eexists; split; [reflexivity | exact I].
  - intros [w c] _; eexists; split; [reflexivity | exact I].
  - intros [w c] _; eexists; split; [reflexivity | exact I].
  - intros [w c] _; eexists; split; [reflexivity | exact I].
  - intros [w c] _; eexists; split; [reflexivity | exact I].
  - intros [w c] _; eexists; split; [reflexivity | exact I].
  - intros w context patterns label quiet _ _ _ s _.
    destruct (still_click context label quiet patterns s) as [s' Hs].
    exists s'. split; [exact Hs | exact I].
  - intros [w c] _. destruct (ticketQuantity settings) as [q|];
      [|eexists; split; [reflexivity | exact I]].
    unfold setTicketQuantity.
    destruct ((q =? 0) || (q <=? 1));
      eexists; (split; [reflexivity | exact I]).
  - intros [w c] _; eexists; split; [reflexivity | exact I].
  - intros ms _ [w c] _; eexists; split; [reflexivity | exact I].
  - intros step _ [w c] _; eexists; split; [reflexivity | exact I].
Qed.

Lemma still_enough : enough noSettings 40.
Proof.
  unfold enough, enoughFor.
  change (Js.orZ (waitForBuyAdditionalMs noSettings) 15000) with 15000. lia.
Qed.

End StillFacts.

(** The page of the double that shows a line of text and no control is
    inert, whatever the settings. *)
Section NoticeFacts.

Import Runtime Observe Engine.

Lemma double_clock_laws : ClockLaws Double.env.
Proof.
  constructor.
  - intros A op w. destruct op; simpl; lia.
  - intros p ms w w' H. cbn in *. inversion H; subst. cbn. lia.
Qed.

(** What is left to prove of a call on the notice: it returns, and the
    page still shows the notice. *)
Ltac on_notice :=
  let w := fresh "w" in
  let c := fresh "c" in
  let HI := fresh "HI" in
  intros [w c] HI; destruct w; unfold Double.showsNotice in HI;
  cbn [world Double.document Double.address Double.fields Double.controls]
    in HI;
  destruct HI as (? & ? & ? & ?); subst;
  lazymatch goal with
  | |- exists s', ?run = (s', Ret ?a) /\ _ =>
      exists (fst run); split;
      [ transitivity (fst run, snd run);
        [ apply surjective_pairing | f_equal; vm_compute; reflexivity ]
      | vm_compute; repeat split ]
  end.

Lemma notice_click (context : Context) (quiet : bool)
    (patterns : list string) (label : string) :
  In (patterns, label) soughtControls ->
  @settles Double.env Double.showsNotice bool
    (clickFirstMatching context patterns label quiet) false.
Proof.
  intros [H | [H | [H | []]]]; injection H as <- <-; on_notice.
Qed.

Lemma notice_inert (page : Page) (settings : Settings) :
  @Inert Double.env Double.showsNotice page settings.
Proof.
  constructor.
  - on_notice.
  - on_notice.
  - on_notice.
  - on_notice.
  - on_notice.
  - on_notice.
  - intros w context patterns label quiet _ _ Hsought.
    now apply notice_click.
  - destruct (ticketQuantity settings) as [q|]; [|on_notice].
    unfold setTicketQuantity.
    destruct ((q =? 0) || (q <=? 1)); on_notice.
  - on_notice.
  - intros ms _. on_notice.
  - intros step _. on_notice.
Qed.

Lemma notice_enough (n : Z) : enough (Double.budget n) 40.
Proof.
  unfold enough, enoughFor.
  change (Js.orZ (waitForBuyAdditionalMs (Double.budget n)) 15000)
    with 15000.
  lia.
Qed.

End NoticeFacts.

(** C1 on the page that shows a line of text and no control, with a budget
    of three turns. *)
Lemma runCheckoutFlow_exhausts_witness :
  exists s',
    Engine.runCheckoutFlow 40 O (Double.budget 3) None
      (Double.start Double.notice)
    = (s', Runtime.Ret
             {| success := false; reason := "Checkout flow incomplete";
                res_url := Some "https://festival.sundance.org/checkout" |})
    /\ Observe.steps (Runtime.console s') = [1; 2; 3].
Proof.
  destruct (@runCheckoutFlow_exhausts Double.env O (Double.budget 3) None 40
              Double.showsNotice (Double.start Double.notice)
              double_clock_laws (@notice_inert O (Double.budget 3))
              ltac:(repeat split) (@notice_enough 3))
    as (s' & Hrun & Hsteps & _ & _ & _ & _ & _ & _ & _ & Hshows).
  exists s'. split; [|exact Hsteps].
  rewrite Hrun. destruct Hshows as (_ & Haddress & _).
  cbn [Runtime.urlOf Double.env]. now rewrite Haddress.
Defined.

(** The claim C1 as it stands fails for a budget of [0]: the page shows a
    line of text and no control, so that no detector fires and no action
    has an effect, [settings.maxSteps] is [0], and the flow takes the
    twelve turns of the default before it returns "Checkout flow
    incomplete". *)
Lemma runCheckoutFlow_exhausts_counterexample :
  let settings := Double.budget 0 in
  let run :=
    Engine.runCheckoutFlow 40 O settings None (Double.start Double.notice) in
  maxSteps settings = Some 0
  /\ Observe.Inert Double.env Double.showsNotice O settings
  /\ Double.showsNotice Double.notice
  /\ snd run
     = Runtime.Ret
         {| success := false; reason := "Checkout flow incomplete";
            res_url := Some "https://festival.sundance.org/checkout" |}
  /\ Observe.steps (Runtime.console (fst run))
     = [1; 2; 3; 4; 5; 6; 7; 8; 9; 10; 11; 12]
  /\ Z.of_nat (List.length (Observe.steps (Runtime.console (fst run)))) <> 0.
Proof.
  intros settings run.
  assert (Hsteps : Observe.steps (Runtime.console (fst run))
                   = [1; 2; 3; 4; 5; 6; 7; 8; 9; 10; 11; 12])
    by (vm_compute; reflexivity).
  split; [reflexivity|].
  split; [apply notice_inert|].
  split; [repeat split|].
  split; [vm_compute; reflexivity|].
  split; [exact Hsteps|].
  rewrite Hsteps. discriminate.
Qed.

(** The budget is [settings.maxSteps || 12]: a configured [0] gives the
    twelve turns of the default, and a negative budget gives no turn. *)
Example runCheckoutFlow_zero_and_negative_maxSteps :
  let turns (n : Z) :=
    Observe.steps
      (Runtime.console
         (fst (Engine.runCheckoutFlow 40 O (Double.budget n) None
                 Still.start))) in
  turns 3 = [1; 2; 3]
  /\ turns 0 = [1; 2; 3; 4; 5; 6; 7; 8; 9; 10; 11; 12]
  /\ turns (-1) = [].
Proof. vm_compute. repeat split. Qed.

(* ================================================================== *)
(** * The order of the hazard checks *)
(* ================================================================== *)

(** C2.  A turn of the main loop logs its step and then asks the queue,
    login, confirmation and modal-error detectors in this order; the first
    that answers [true] gives the result of the turn, and with it of the
    loop and of [runCheckoutFlow].  In particular, when the queue detector
    answers [true] there, the result is the queue failure, whatever the
    confirmation detector answers on the same state.  Once the four checks
    have passed and the final purchase control has been clicked, the turn
    waits for the page to settle and asks the confirmation detector alone:
    when it answers [true] the result is "Purchase confirmed", and the
    queue detector is not asked about that state. *)
Theorem checkoutStep_hazard_order (E : Runtime.Env) (fuel : nat)
    (page : Runtime.Page) (settings : Settings)
    (helpers : option (Engine.Helpers E)) (settleMs step : Z)
    (s : Runtime.St E) :
  let s0 : Runtime.St E :=
    {| Runtime.world := Runtime.world s;
       Runtime.console :=
         (Runtime.console s ++ [Runtime.LogCheckoutStep step])%list |} in
  let turn := Engine.checkoutStep fuel page settings helpers settleMs step in
  let at_ (s' : Runtime.St E) := Runtime.urlOf E (Runtime.world s') page in
  (forall s1,
     Engine.detectQueue page s0 = (s1, Runtime.Ret true) ->
     turn s = (s1, Runtime.Ret (Some (Engine.queueFailure (at_ s1)))))
  /\ (forall s1 s2,
        Engine.detectQueue page s0 = (s1, Runtime.Ret false) ->
        Engine.detectLogin page s1 = (s2, Runtime.Ret true) ->
        turn s = (s2, Runtime.Ret (Some (Engine.loginFailure (at_ s2)))))
  /\ (forall s1 s2 s3,
        Engine.detectQueue page s0 = (s1, Runtime.Ret false) ->
        Engine.detectLogin page s1 = (s2, Runtime.Ret false) ->
        Engine.detectConfirmation page s2 = (s3, Runtime.Ret true) ->
        turn s = (s3, Runtime.Ret (Some (Engine.purchaseConfirmed (at_ s3)))))
  /\ (forall s1 s2 s3 s4,
        Engine.detectQueue page s0 = (s1, Runtime.Ret false) ->
        Engine.detectLogin page s1 = (s2, Runtime.Ret false) ->
        Engine.detectConfirmation page s2 = (s3, Runtime.Ret false) ->
        Engine.detectBlockingError page s3 = (s4, Runtime.Ret true) ->
        turn s = (s4, Runtime.Ret (Some (Engine.modalFailure (at_ s4)))))
  /\ (forall s1 s' (remaining : nat),
        Engine.detectQueue page s0 = (s1, Runtime.Ret true) ->
        Engine.detectConfirmation page s0 = (s', Runtime.Ret true) ->
        Engine.checkoutLoop fuel page settings helpers settleMs
          (S remaining) step s
        = (s1, Runtime.Ret
                 (Some {| success := false;
                          reason := "Queue/waiting room encountered";
                          res_url := Some (at_ s1) |})))
  /\ (forall sa s1 s',
        step = 1 ->
        settleMs = Js.orZ (stepWaitMs settings) 1800 ->
        Engine.openCheckout fuel page settleMs
          (Js.orZ (waitForBuyAdditionalMs settings) 15000) sa
        = (s, Runtime.Ret tt) ->
        0 < Js.orZ (maxSteps settings) 12 ->
        Engine.detectQueue page s0 = (s1, Runtime.Ret true) ->
        Engine.detectConfirmation page s0 = (s', Runtime.Ret true) ->
        Engine.runCheckoutFlow fuel page settings helpers sa
        = (s1, Runtime.Ret
                 {| success := false;
                    reason := "Queue/waiting room encountered";
                    res_url := Some (at_ s1) |}))
  /\ (forall s1 s2 s3 s4 s5 s6 s7 s8 (checked : bool),
        Engine.detectQueue page s0 = (s1, Runtime.Ret false) ->
        Engine.detectLogin page s1 = (s2, Runtime.Ret false) ->
        Engine.detectConfirmation page s2 = (s3, Runtime.Ret false) ->
        Engine.detectBlockingError page s3 = (s4, Runtime.Ret false) ->
        Engine.checkTermsCheckboxes page s4 = (s5, Runtime.Ret checked) ->
        Engine.clickFirstMatchingAnyContext fuel page
          Engine.TEXT_PATTERNS_final "Complete purchase" None s5
        = (s6, Runtime.Ret true) ->
        Engine.waitForPageSettled page (settleMs + 1000) s6
        = (s7, Runtime.Ret tt) ->
        Engine.detectConfirmation page s7 = (s8, Runtime.Ret true) ->
        turn s
        = (s8, Runtime.Ret
                 (Some {| success := true; reason := "Purchase confirmed";
                          res_url := Some (at_ s8) |}))).
Proof.
  intros s0 turn at_. unfold turn, Engine.checkoutStep.
  assert (Hlog : Runtime.log (Runtime.LogCheckoutStep step) s
                 = (s0, Runtime.Ret tt)) by reflexivity.
  assert (Hqueue : forall s1,
            Engine.detectQueue page s0 = (s1, Runtime.Ret true) ->
            Engine.checkoutStep fuel page settings helpers settleMs step s
            = (s1, Runtime.Ret (Some (Engine.queueFailure (at_ s1))))).
  { intros s1 H1. unfold Engine.checkoutStep.
    rewrite (bind_Ret _ _ Hlog), (bind_Ret _ _ H1). reflexivity. }
  repeat split.
  - exact Hqueue.
  - intros s1 s2 H1 H2.
    rewrite (bind_Ret _ _ Hlog), (bind_Ret _ _ H1), (bind_Ret _ _ H2).
    reflexivity.
  - intros s1 s2 s3 H1 H2 H3.
    rewrite (bind_Ret _ _ Hlog), (bind_Ret _ _ H1), (bind_Ret _ _ H2),
      (bind_Ret _ _ H3).
    reflexivity.
  - intros s1 s2 s3 s4 H1 H2 H3 H4.
    rewrite (bind_Ret _ _ Hlog), (bind_Ret _ _ H1), (bind_Ret _ _ H2),
      (bind_Ret _ _ H3), (bind_Ret _ _ H4).
    reflexivity.
  - intros s1 s' remaining H1 _. cbn [Engine.checkoutLoop].
    rewrite (bind_Ret _ _ (Hqueue s1 H1)). reflexivity.
  - intros sa s1 s' -> -> Hopen Hmax H1 _.
    unfold Engine.runCheckoutFlow.
    rewrite (bind_Ret _ _ Hopen).
    destruct (Z.to_nat (Js.orZ (maxSteps settings) 12)) as [|n] eqn:Hn; [lia|].
    cbn [Engine.checkoutLoop]. unfold Runtime.bind at 1.
    rewrite (bind_Ret _ _ (Hqueue s1 H1)). reflexivity.
  - intros s1 s2 s3 s4 s5 s6 s7 s8 checked H1 H2 H3 H4 H5 H6 H7 H8.
    rewrite (bind_Ret _ _ Hlog), (bind_Ret _ _ H1), (bind_Ret _ _ H2),
      (bind_Ret _ _ H3), (bind_Ret _ _ H4).
    unfold Engine.checkoutActions. cbn [Runtime.orAwait].
    rewrite (bind_Ret _ _ H5), (bind_Ret _ _ H6).
    erewrite (@bind_Ret E _ _ _ _ _ s8
                (inl (Engine.purchaseConfirmed (at_ s8)))).
    + reflexivity.
    + rewrite (bind_Ret _ _ H7), (bind_Ret _ _ H8). reflexivity.
Qed.

(** C2 on a page in a waiting room that also shows a receipt. *)
Lemma checkoutStep_hazard_order_witness :
  let sa := Double.start Double.queuedReceipt in
  let s := fst (Engine.openCheckout 40 O 1800 15000 sa) in
  let s0 : Runtime.St Double.env :=
    {| Runtime.world := Runtime.world s;
       Runtime.console :=
         (Runtime.console s ++ [Runtime.LogCheckoutStep 1])%list |} in
  Engine.detectQueue O s0 = (s0, Runtime.Ret true)
  /\ Engine.detectConfirmation O s0 = (s0, Runtime.Ret true)
  /\ Engine.runCheckoutFlow 40 O noSettings None sa
     = (s0, Runtime.Ret
              {| success := false;
                 reason := "Queue/waiting room encountered";
                 res_url :=
                   Some "https://festival.sundance.org/queue/receipt" |}).
Proof.
  intros sa s s0.
  assert (Hq : Engine.detectQueue O s0 = (s0, Runtime.Ret true))
    by (vm_compute; reflexivity).
  assert (Hc : Engine.detectConfirmation O s0 = (s0, Runtime.Ret true))
    by (vm_compute; reflexivity).
  split; [exact Hq|]. split; [exact Hc|].
  refine (proj1 (proj2 (proj2 (proj2 (proj2 (proj2
            (@checkoutStep_hazard_order Double.env 40 O noSettings None
               1800 1 s))))))
            sa s0 s0 eq_refl eq_refl _ _ Hq Hc).
  - vm_compute; reflexivity.
  - reflexivity.
Defined.

(** The claim C2 as it stands fails for the page that the final purchase
    click leads to.  The checkout page has the one control "Complete
    purchase"; in the first turn no detector fires and the control is
    clicked; the page it leads to names the queue and the receipt in its
    address, so that both the queue detector and the confirmation detector
    hold of it; the confirmation detector alone is asked, and the flow
    returns "Purchase confirmed". *)
Lemma checkoutStep_hazard_order_counterexample :
  let run := Engine.runCheckoutFlow 40 O noSettings None Landing.start in
  let landed := fst run in
  Engine.detectQueue O landed = (landed, Runtime.Ret true)
  /\ Engine.detectConfirmation O landed = (landed, Runtime.Ret true)
  /\ Observe.steps (Runtime.console landed) = [1]
  /\ snd run
     = Runtime.Ret
         {| success := true; reason := "Purchase confirmed";
            res_url := Some Landing.receiptAddress |}
  /\ snd run
     <> Runtime.Ret
          {| success := false; reason := "Queue/waiting room encountered";
             res_url := Some Landing.receiptAddress |}.
Proof.
  intros run landed.
  assert (Hrun : snd run
                 = Runtime.Ret
                     {| success := true; reason := "Purchase confirmed";
                        res_url := Some Landing.receiptAddress |})
    by (vm_compute; reflexivity).
  split; [vm_compute; reflexivity|].
  split; [vm_compute; reflexivity|].
  split; [vm_compute; reflexivity|].
  split; [exact Hrun|].
  rewrite Hrun. discriminate.
Qed.

(* ================================================================== *)
(** * The attempt boundary *)
(* ================================================================== *)

Section Catches.

Import Runtime Observe.

Variable E : Env.

Lemma catches_ret {A : Type} (a : A) : catches (@ret E A a).
Proof. intro s; reflexivity. Qed.

Lemma catches_log (line : Log) : catches (@log E line).
Proof. intro s; reflexivity. Qed.

Lemma catches_dateNow : catches (@dateNow E).
Proof. intro s; reflexivity. Qed.

Lemma catches_bind {A B : Type} (m : M E A) (k : A -> M E B) :
  catches m -> (forall a, catches (k a)) -> catches (bind m k).
Proof.
  intros Hm Hk s. unfold bind.
  specialize (Hm s). destruct (m s) as [s1 [a|e1|]]; simpl in *.
  - apply Hk.
  - discriminate.
  - reflexivity.
Qed.

Lemma catches_tryThen {A B : Type} (m : M E A) (h : Exn -> M E B)
    (k : A -> M E B) :
  (forall e, catches (h e)) -> (forall a, catches (k a)) ->
  catches (tryThen m h k).
Proof.
  intros Hh Hk s. unfold tryThen.
  destruct (m s) as [s1 [a|e1|]]; simpl.
  - apply Hk.
  - apply Hh.
  - reflexivity.
Qed.

Lemma catches_orDefault {A : Type} (m : M E A) (d : A) :
  catches (orDefault m d).
Proof.
  intros s. unfold orDefault, tryCatch, tryThen.
  destruct (m s) as [s1 [a|e1|]]; reflexivity.
Qed.

Lemma catches_purchaseError (runId : Z) (currentPage : Page) (error : Exn) :
  catches (@Engine.purchaseError E runId currentPage error).
Proof.
  unfold Engine.purchaseError.
  apply catches_bind; [apply catches_log|]. intros _.
  apply catches_bind; [apply catches_orDefault|]. intros _.
  apply catches_ret.
Qed.

Lemma catches_attemptPurchase (fuel : nat) (page : Page)
    (filmTitle : string) (screeningTime : option string)
    (config : AutoPurchaseConfig)
    (sendNotification : option (list ChangeEvent -> M E unit)) :
  catches (Engine.attemptPurchase fuel page filmTitle screeningTime (Some config)
             sendNotification).
Proof.
  unfold Engine.attemptPurchase.
  apply catches_bind; [apply catches_log|]. intros _.
  apply catches_bind.
  { destruct (Js.truthyString screeningTime);
      [apply catches_log | apply catches_ret]. }
  intros _.
  destruct (Matcher.getFilmSettings _ _ _) as [filmSettings|];
    [|apply catches_ret].
  destruct (negb (f_autoPurchase filmSettings)); [apply catches_ret|].
  apply catches_bind; [apply catches_dateNow|]. intro runId.
  apply catches_tryThen.
  - intro e. apply catches_purchaseError.
  - intros [why|purchasePage openedNewPage]; [apply catches_ret|].
    apply catches_tryThen.
    + intro e. apply catches_purchaseError.
    + intro a. apply catches_ret.
Qed.

(** The [catch] block: the line of the error, a screenshot of the current
    page whatever comes of it, and the failure with the message. *)
Lemma purchaseError_run (runId : Z) (currentPage : Page) (error : Exn)
    (s : St E) :
  Engine.purchaseError runId currentPage error s
  = ({| world :=
          fst (call E
                 (Screenshot currentPage
                    ("auto-purchase-error-" ++ Js.ofZ runId ++ ".png"))
                 (world s));
        console := (console s ++ [LogPurchaseError (message error)])%list |},
     Ret {| success := false; reason := message error; res_url := None |}).
Proof.
  unfold Engine.purchaseError, bind, orDefault, tryCatch, tryThen, perform,
    log, ret; simpl.
  destruct (call E _ (world s)) as [w [e|[]]]; reflexivity.
Qed.

End Catches.

Section AttemptEnds.

Import Runtime Observe Engine.

Variable E : Env.
Hypothesis clock : ClockLaws E.
Variable R : St E -> St E -> Prop.
Hypothesis HR : Stable R.
Hypothesis Rsteps : keepsSteps R.
Variable fuel : nat.
Variable sendNotification : option (list ChangeEvent -> M E unit).
Hypothesis Hsend :
  forall send changes, sendNotification = Some send -> sound R (send changes).

Lemma sound_checkout (page : Page) (filmTitle : string) (settings : Settings)
    (debug : bool) (slug : string) (runId : Z) (purchasePage : Page)
    (openedNewPage : bool) :
  enough settings fuel ->
  sound R (checkout fuel page filmTitle settings debug slug runId
             sendNotification purchasePage openedNewPage).
Proof.
  intros Hfuel. unfold checkout.
  apply sound_bind; [assumption | apply sound_waitForPageSettled; auto |].
  intros _.
  apply sound_bind; [assumption | apply sound_debugScreenshot; auto |].
  intros _.
  apply sound_bind; [assumption | sound |]. intros _.
  apply sound_bind; [assumption | |].
  { apply sound_runCheckoutFlow; auto.
    intros h label Hh. inversion Hh; subst; simpl.
    apply sound_debugScreenshot; auto. }
  intro checkoutResult.
  apply sound_bind; [assumption | destruct (_ && _); sound |]. intros _.
  destruct sendNotification as [send|] eqn:Hs; [|sound].
  destruct (match notifyOnPurchaseUpdates settings with
            | Some b => b
            | None => true
            end); [|sound].
  apply sound_bind; [assumption | destruct (Js.truthyString _); sound |].
  intro address.
  apply sound_bind; [assumption | eapply Hsend; reflexivity | intro; sound].
Qed.

Lemma sound_attemptPurchase (page : Page) (filmTitle : string)
    (screeningTime : option string) (config : AutoPurchaseConfig) :
  enough match settings config with Some s => s | None => noSettings end
         fuel ->
  sound R (attemptPurchase fuel page filmTitle screeningTime (Some config)
             sendNotification).
Proof.
  intros Hfuel. unfold attemptPurchase.
  apply sound_bind; [assumption | sound |]. intros _.
  apply sound_bind;
    [assumption | destruct (Js.truthyString screeningTime); sound |].
  intros _.
  destruct (Matcher.getFilmSettings _ _ _) as [filmSettings|]; [|sound].
  destruct (negb (f_autoPurchase filmSettings)); [sound|].
  apply sound_bind; [assumption | sound |]. intro runId.
  apply sound_tryThen; [assumption | | |].
  - apply sound_bind; [assumption | sound |]. intros _.
    apply sound_clickOrderTicketsButton; auto.
  - intro e. apply sound_purchaseError; auto.
  - intros [why|purchasePage openedNewPage]; [sound|].
    apply sound_tryCatch; [assumption | |].
    + apply sound_checkout. exact Hfuel.
    + intro e. apply sound_purchaseError; auto.
Qed.

End AttemptEnds.

(** Given a configuration object, [attemptPurchase] lets no exception out.
    With a clock that goes
    on, a notifier that ends and fuel that covers the wait for the
    additional-tickets prompt, it returns one [CheckoutResult].  Its [catch]
    block logs the error, takes a screenshot of the current page whatever
    comes of it, and returns the failure whose reason is the message of the
    exception; an exception thrown while the order control is looked for
    and clicked reaches it with the schedule page as current page, and one
    thrown later with the purchase page. *)
Theorem attemptPurchase_returns_result (E : Runtime.Env) (fuel : nat)
    (page : Runtime.Page) (filmTitle : string)
    (screeningTime : option string) (config : AutoPurchaseConfig)
    (sendNotification : option (list ChangeEvent -> Runtime.M E unit))
    (s : Runtime.St E) :
  let attempt :=
    Engine.attemptPurchase fuel page filmTitle screeningTime (Some config)
      sendNotification in
  let options :=
    match settings config with Some x => x | None => noSettings end in
  let debug :=
    match debugScreenshots options with Some b => b | None => false end in
  let slug := Js.orString (Some (Engine.slugify filmTitle)) "film" in
  let runId := Runtime.now E (Runtime.world s) in
  let s0 : Runtime.St E :=
    {| Runtime.world := Runtime.world s;
       Runtime.console :=
         (Runtime.console s
          ++ Runtime.LogPurchaseStart filmTitle
             :: if Js.truthyString screeningTime
                then [Runtime.LogScreening (Js.orString screeningTime "")]
                else [])%list |} in
  Observe.threw (snd (attempt s)) = false
  /\ (Observe.ClockLaws E ->
      Observe.enough options fuel ->
      (forall send changes,
         sendNotification = Some send ->
         Observe.sound (fun _ _ => True) (send changes)) ->
      exists s' result, attempt s = (s', Runtime.Ret result))
  /\ (forall (id : Z) (currentPage : Runtime.Page) (error : Runtime.Exn)
        (s1 : Runtime.St E),
        Engine.purchaseError id currentPage error s1
        = ({| Runtime.world :=
                fst (Runtime.call E
                       (Runtime.Screenshot currentPage
                          ("auto-purchase-error-" ++ Js.ofZ id ++ ".png"))
                       (Runtime.world s1));
              Runtime.console :=
                (Runtime.console s1
                 ++ [Runtime.LogPurchaseError (Runtime.message error)])%list
           |},
           Runtime.Ret {| success := false;
                          reason := Runtime.message error;
                          res_url := None |}))
  /\ (forall rule,
        Matcher.getFilmSettings filmTitle screeningTime (Some config)
        = Some rule ->
        f_autoPurchase rule = true ->
        (forall s1 error,
                Runtime.bind (Runtime.log Runtime.LogStep1)
                  (fun _ => Engine.clickOrderTicketsButton page filmTitle) s0
                = (s1, Runtime.Throw error) ->
                attempt s = Engine.purchaseError runId page error s1)
        /\ (forall s1 purchasePage openedNewPage s2 error,
                Runtime.bind (Runtime.log Runtime.LogStep1)
                  (fun _ => Engine.clickOrderTicketsButton page filmTitle) s0
                = (s1, Runtime.Ret
                         (Engine.OrderReady purchasePage openedNewPage)) ->
                Engine.checkout fuel page filmTitle options debug slug runId
                  sendNotification purchasePage openedNewPage s1
                = (s2, Runtime.Throw error) ->
                attempt s = Engine.purchaseError runId purchasePage error s2)).
Proof.
  intros attempt options debug slug runId s0.
  assert (Hcatch : Observe.threw (snd (attempt s)) = false)
    by apply catches_attemptPurchase.
  split; [exact Hcatch|]. split; [|split].
  - intros clock Hfuel Hsend.
    assert (Hsound : Observe.sound (fun _ _ : Runtime.St E => True) attempt).
    { apply sound_attemptPurchase; auto.
      - apply any_stable.
      - intros step s1; exact I. }
    destruct (Hsound s) as [_ Hspin].
    destruct (attempt s) as [s' [result|e|]]; simpl in *;
      [eauto | discriminate | congruence].
  - intros. apply purchaseError_run.
  - intros rule Hrule Hauto.
    unfold attempt, Engine.attemptPurchase.
    rewrite Hrule, Hauto. cbn [negb].
    rewrite (bind_Ret (Runtime.log (Runtime.LogPurchaseStart filmTitle)) _
               eq_refl).
    assert (Hs0 :
      Runtime.bind
        (if Js.truthyString screeningTime
         then Runtime.log (Runtime.LogScreening (Js.orString screeningTime ""))
         else Runtime.ret tt)
        (fun _ => Runtime.ret tt)
        {| Runtime.world := Runtime.world s;
           Runtime.console :=
             (Runtime.console s
              ++ [Runtime.LogPurchaseStart filmTitle])%list |}
      = (s0, Runtime.Ret tt)).
    { unfold s0. destruct (Js.truthyString screeningTime).
      - unfold Runtime.bind, Runtime.log, Runtime.ret; simpl.
        now rewrite <- app_assoc.
      - reflexivity. }
    apply bind_inv in Hs0
      as [(sx & [] & Hlog & Hret)|[(e & _ & He)|[_ He]]];
      try discriminate.
    inversion Hret; subst sx; clear Hret.
    rewrite (bind_Ret _ _ Hlog).
    rewrite (bind_Ret Runtime.dateNow _ eq_refl).
    split.
    + intros s1 error Hthrow.
      unfold Runtime.tryThen. rewrite Hthrow. reflexivity.
    + intros s1 purchasePage openedNewPage s2 error Hready Hthrow.
      unfold Runtime.tryThen at 1. rewrite Hready.
      unfold Runtime.tryCatch, Runtime.tryThen.
      change (Runtime.now E (Runtime.world s0)) with runId.
      fold options. fold debug. fold slug.
      rewrite Hthrow. reflexivity.
Qed.

Lemma double_clock : Observe.ClockLaws Double.env.
Proof.
  constructor.
  - intros A op w. destruct op; cbn; try apply Z.le_refl.
    rewrite <- (Z.add_0_r (Double.clock w)) at 1.
    apply Z.add_le_mono_l, Z.le_max_l.
  - intros p ms w w' H. cbn in *. inversion H; subst. cbn.
    apply Z.add_le_mono_l, Z.le_max_r.
Qed.

Lemma double_enough : Observe.enough noSettings 40.
Proof.
  unfold Observe.enough, Observe.enoughFor.
  change (Js.orZ (waitForBuyAdditionalMs noSettings) 15000) with 15000. lia.
Qed.

(** An attempt on a schedule whose order control cannot be clicked: the
    timeout of the click comes back as the reason, and the error screenshot
    is taken. *)
Lemma attemptPurchase_returns_result_witness :
  let s := Double.start Double.stuckOrder in
  let attempt :=
    Engine.attemptPurchase 40 O "Film" None (Some Double.config) None in
  (exists s' result, attempt s = (s', Runtime.Ret result))
  /\ snd (attempt s)
     = Runtime.Ret {| success := false; reason := "Timeout 5000ms exceeded";
                      res_url := None |}
  /\ Double.shots (Runtime.world (fst (attempt s)))
     = ["auto-purchase-error-0.png"].
Proof.
  intros s attempt.
  destruct (@attemptPurchase_returns_result Double.env 40 O "Film" None
              Double.config None s) as (_ & Hends & _ & Hcatch).
  split.
  - apply Hends.
    + exact double_clock.
    + exact double_enough.
    + intros send changes Hsend. discriminate Hsend.
  - destruct (Hcatch Double.rule eq_refl eq_refl) as [Horder _].
    pose (order := Runtime.bind (Runtime.log Runtime.LogStep1)
                     (fun _ => Engine.clickOrderTicketsButton O "Film")
                     (@Runtime.Build_St Double.env Double.stuckOrder
                        [Runtime.LogPurchaseStart "Film"])).
    assert (Hthrow :
      order = (fst order,
               Runtime.Throw
                 {| Runtime.message := "Timeout 5000ms exceeded" |}))
      by (vm_compute; reflexivity).
    unfold attempt. rewrite (Horder _ _ Hthrow).
    split; vm_compute; reflexivity.
Defined.

(** C6.  The claim fails on the code when [config] is [null], as in the
    call [attemptPurchase(page, filmTitle, config, null)] of the checkout
    test of the repository, which hands its configuration in the place of
    [screeningTime] and [null] in the place of [config]: the start of the
    attempt is logged, and the screening when it is truthy; then
    [config.settings], which is read before the [try], throws its
    [TypeError] to the caller: no [CheckoutResult] is returned, the [catch]
    block is not entered, no screenshot is taken and nothing else is
    logged. *)
Theorem attemptPurchase_throws_without_config (E : Runtime.Env) (fuel : nat)
    (page : Runtime.Page) (filmTitle : string)
    (screeningTime : option string)
    (sendNotification : option (list ChangeEvent -> Runtime.M E unit))
    (s : Runtime.St E) :
  Engine.attemptPurchase fuel page filmTitle screeningTime None
    sendNotification s
  = ({| Runtime.world := Runtime.world s;
        Runtime.console :=
          (Runtime.console s
           ++ Runtime.LogPurchaseStart filmTitle
              :: if Js.truthyString screeningTime
                 then [Runtime.LogScreening (Js.orString screeningTime "")]
                 else [])%list |},
     Runtime.Throw
       {| Runtime.message :=
            "Cannot read properties of null (reading 'settings')" |}).
Proof.
  unfold Engine.attemptPurchase, Runtime.bind, Runtime.log, Runtime.throw,
    Runtime.ret.
  destruct (Js.truthyString screeningTime); cbn [fst snd Runtime.world
    Runtime.console].
  - rewrite <- app_assoc. reflexivity.
  - reflexivity.
Qed.

(** The call of the checkout test on the test double: the object handed as
    [screeningTime] is logged as a string, and the call throws. *)
Example attemptPurchase_checkout_test_call :
  @Engine.attemptPurchase Double.env 40 O "Film" (Some "[object Object]")
    None None (Double.start Double.stuckOrder)
  = ({| Runtime.world := Double.stuckOrder : Runtime.World Double.env;
        Runtime.console :=
          [Runtime.LogPurchaseStart "Film";
           Runtime.LogScreening "[object Object]"] |},
     Runtime.Throw
       {| Runtime.message :=
            "Cannot read properties of null (reading 'settings')" |}).
Proof. vm_compute. reflexivity. Qed.

(* ================================================================== *)
(** * A schedule without an order control *)
(* ================================================================== *)

Section EntryControl.

Import Runtime Dom Engine.

Lemma findIndex_none {A : Type} (p : A -> bool) (l : list A) :
  (forall x, In x l -> p x = false) -> findIndex p l = None.
Proof.
  induction l as [|x r IH]; intros H; simpl; auto.
  rewrite (H x) by (left; reflexivity).
  rewrite IH; auto. intros y Hy. apply H. now right.
Qed.

Lemma clickOrderTicketsScript_none (filmTitle : string) (d : Document) :
  Observe.noOrderControl filmTitle d ->
  clickOrderTicketsScript filmTitle d = (d, false).
Proof.
  intros Hnone. unfold clickOrderTicketsScript.
  rewrite findIndex_none; auto.
  intros desc Hdesc. unfold hasOrderControl, orderControl.
  destruct (fd_h3 desc) as [h3|] eqn:Hh3; auto.
  destruct (titleContains filmTitle h3) eqn:Ht; auto.
  destruct (fd_row desc) as [row|] eqn:Hrow; auto.
  rewrite findIndex_none; auto.
  intros btn Hbtn. eapply Hnone; eauto.
Qed.

End EntryControl.

(** C7, as the code has it.  When the film has a rule to buy it and no
    description of the film on the schedule has an order control in its
    row, [attemptPurchase] reads the document once, clicks nothing, logs
    neither the second stage nor any step of the checkout loop, and returns
    the failure "Order tickets button not found". *)
Theorem attemptPurchase_without_order_control (E : Runtime.Env) (fuel : nat)
    (page : Runtime.Page) (filmTitle : string)
    (screeningTime : option string) (config : AutoPurchaseConfig)
    (sendNotification : option (list ChangeEvent -> Runtime.M E unit))
    (s : Runtime.St E) (rule : FilmRule) (d : Dom.Document)
    (w1 w2 : Runtime.World E) :
  Matcher.getFilmSettings filmTitle screeningTime (Some config) = Some rule ->
  f_autoPurchase rule = true ->
  Runtime.call E (Runtime.GetDocument page) (Runtime.world s) = (w1, inr d) ->
  Runtime.call E (Runtime.SetDocument page d) w1 = (w2, inr tt) ->
  Observe.noOrderControl filmTitle d ->
  Engine.attemptPurchase fuel page filmTitle screeningTime (Some config)
    sendNotification s
  = ({| Runtime.world := w2;
        Runtime.console :=
          (Runtime.console s
           ++ Runtime.LogPurchaseStart filmTitle
              :: (if Js.truthyString screeningTime
                  then [Runtime.LogScreening (Js.orString screeningTime "")]
                  else [])
              ++ [Runtime.LogStep1])%list |},
     Runtime.Ret {| success := false;
                    reason := "Order tickets button not found";
                    res_url := None |}).
Proof.
  intros Hrule Hauto Hget Hset Hnone.
  pose proof (clickOrderTicketsScript_none Hnone) as Hscript.
  assert (Hclick : forall c : list Runtime.Log,
    Runtime.bind (Runtime.log Runtime.LogStep1)
      (fun _ => Engine.clickOrderTicketsButton page filmTitle)
      {| Runtime.world := Runtime.world s; Runtime.console := c |}
    = ({| Runtime.world := w2;
          Runtime.console := (c ++ [Runtime.LogStep1])%list |},
       Runtime.Ret (Engine.OrderFailed "Order tickets button not found"))).
  { intro c. rewrite (bind_Ret (Runtime.log Runtime.LogStep1) _ eq_refl).
    unfold Engine.clickOrderTicketsButton.
    erewrite bind_Ret.
    2:{ eapply evaluate_run; [exact Hget|]. rewrite Hscript. exact Hset. }
    rewrite Hscript. reflexivity. }
  unfold Engine.attemptPurchase. rewrite Hrule, Hauto. cbn [negb].
  rewrite (bind_Ret (Runtime.log (Runtime.LogPurchaseStart filmTitle)) _
             eq_refl).
  destruct (Js.truthyString screeningTime).
  - rewrite (bind_Ret (Runtime.log _) _ eq_refl).
    rewrite (bind_Ret Runtime.dateNow _ eq_refl).
    unfold Runtime.tryThen. cbn [Runtime.world Runtime.console].
    rewrite Hclick. unfold Runtime.ret, Engine.failed.
    repeat rewrite <- app_assoc. reflexivity.
  - rewrite (bind_Ret (Runtime.ret tt) _ eq_refl).
    rewrite (bind_Ret Runtime.dateNow _ eq_refl).
    unfold Runtime.tryThen. cbn [Runtime.world Runtime.console].
    rewrite Hclick. unfold Runtime.ret, Engine.failed.
    repeat rewrite <- app_assoc. reflexivity.
Qed.

(** C7 on a schedule whose row of the film only says "Sold out". *)
Lemma attemptPurchase_without_order_control_witness :
  let w := Double.withDocument (Double.schedule ["Sold out"]) Double.blank in
  Engine.attemptPurchase 40 O "Film" None (Some Double.config) None (Double.start w)
  = (@Runtime.Build_St Double.env w
       [Runtime.LogPurchaseStart "Film"; Runtime.LogStep1],
     Runtime.Ret {| success := false;
                    reason := "Order tickets button not found";
                    res_url := None |}).
Proof.
  intro w.
  refine (@attemptPurchase_without_order_control Double.env 40 O "Film" None
            Double.config None (Double.start w) Double.rule
            (Double.schedule ["Sold out"]) w w eq_refl eq_refl eq_refl
            eq_refl _).
  intros desc h3 row btn Hdesc Hh3 _ Hrow Hbtn.
  destruct Hdesc as [<-|[]]. simpl in Hrow. inversion Hrow; subst row.
  destruct Hbtn as [<-|[]]. vm_compute; reflexivity.
Defined.

(** The claim C7 names another reason than the code gives: on the schedule
    whose row of the film only says "Sold out", the film has no order
    control and the failure is "Order tickets button not found". *)
Lemma attemptPurchase_reason_counterexample :
  let w := Double.withDocument (Double.schedule ["Sold out"]) Double.blank in
  Observe.noOrderControl "Film" (Double.document w)
  /\ ~ (exists s',
          Engine.attemptPurchase 40 O "Film" None (Some Double.config) None
            (Double.start w)
          = (s', Runtime.Ret {| success := false;
                                reason := "entry control not found";
                                res_url := None |})).
Proof.
  intro w. split.
  - intros desc h3 row btn Hdesc Hh3 _ Hrow Hbtn.
    destruct Hdesc as [<-|[]]. simpl in Hrow. inversion Hrow; subst row.
    destruct Hbtn as [<-|[]]. vm_compute; reflexivity.
  - intros [s' H]. vm_compute in H. discriminate H.
Qed.

(* ================================================================== *)
(** * Loading the configuration *)
(* ================================================================== *)

(** C10.  [loadAutoPurchaseConfig] always returns, never throws.  It
    returns [null] when the file is absent (and then touches nothing), when
    the file cannot be read, when its text does not parse, when it parses
    to [null], and when [enabled] is falsy; otherwise it returns the parsed
    configuration.  The block of the monitoring loop that matches and
    purchases does nothing when the result is [null], and runs over the
    changes with the configuration otherwise. *)
Theorem loadAutoPurchaseConfig_returns (E : Runtime.Env) (s : Runtime.St E) :
  exists s' result,
    Engine.loadAutoPurchaseConfig s = (s', Runtime.Ret result)
    /\ (Runtime.fileExists E (Runtime.world s) Engine.AUTO_PURCHASE_PATH
        = false ->
        result = None /\ s' = s)
    /\ (forall w error,
          Runtime.fileExists E (Runtime.world s) Engine.AUTO_PURCHASE_PATH
          = true ->
          Runtime.call E (Runtime.ReadFileSync Engine.AUTO_PURCHASE_PATH)
            (Runtime.world s) = (w, inl error) ->
          result = None)
    /\ (forall w text,
          Runtime.fileExists E (Runtime.world s) Engine.AUTO_PURCHASE_PATH
          = true ->
          Runtime.call E (Runtime.ReadFileSync Engine.AUTO_PURCHASE_PATH)
            (Runtime.world s) = (w, inr text) ->
          result
          = match Runtime.JSON_parse E text with
            | inl _ => None
            | inr None => None
            | inr (Some config) =>
                if enabled config then Some config else None
            end)
    /\ (forall send fuel page changes,
          result = None ->
          Monitor.autoPurchaseOpportunities send fuel page changes s
          = (s', Runtime.Ret tt))
    /\ (forall send fuel page changes config,
          result = Some config ->
          Monitor.autoPurchaseOpportunities send fuel page changes s
          = Monitor.purchaseChanges send fuel page config changes s').
Proof.
  assert (Hrun : exists s' result,
    Engine.loadAutoPurchaseConfig s = (s', Runtime.Ret result)
    /\ (Runtime.fileExists E (Runtime.world s) Engine.AUTO_PURCHASE_PATH
        = false -> result = None /\ s' = s)
    /\ (forall w error,
          Runtime.fileExists E (Runtime.world s) Engine.AUTO_PURCHASE_PATH
          = true ->
          Runtime.call E (Runtime.ReadFileSync Engine.AUTO_PURCHASE_PATH)
            (Runtime.world s) = (w, inl error) ->
          result = None)
    /\ (forall w text,
          Runtime.fileExists E (Runtime.world s) Engine.AUTO_PURCHASE_PATH
          = true ->
          Runtime.call E (Runtime.ReadFileSync Engine.AUTO_PURCHASE_PATH)
            (Runtime.world s) = (w, inr text) ->
          result
          = match Runtime.JSON_parse E text with
            | inl _ => None
            | inr None => None
            | inr (Some config) =>
                if enabled config then Some config else None
            end)).
  { unfold Engine.loadAutoPurchaseConfig, Runtime.bind, Runtime.existsSync,
      Runtime.tryCatch, Runtime.tryThen, Runtime.perform, Runtime.throw,
      Runtime.log, Runtime.ret.
    destruct (Runtime.fileExists E (Runtime.world s) Engine.AUTO_PURCHASE_PATH)
      eqn:Hfile; cbn [negb].
    - destruct (Runtime.call E (Runtime.ReadFileSync _) (Runtime.world s))
        as [w [error|text]] eqn:Hread.
      + do 2 eexists. split; [reflexivity|].
        repeat split; intros; congruence.
      + destruct (Runtime.JSON_parse E text) as [error|[config|]] eqn:Hparse;
          [| destruct (enabled config) eqn:Hon |];
          cbn [negb];
          (do 2 eexists; split; [reflexivity|]);
          (split; [discriminate|]);
          (split; [intros; congruence|]);
          intros w' text' _ Hread'; inversion Hread'; subst;
          rewrite Hparse, ?Hon; reflexivity.
    - do 2 eexists. split; [reflexivity|].
      split; [auto|]. split; intros; discriminate. }
  destruct Hrun as (s' & result & Hload & Habsent & Hunread & Hread).
  exists s', result. repeat split; auto; try (now apply Habsent).
  - intros send fuel page changes ->.
    unfold Monitor.autoPurchaseOpportunities.
    rewrite (bind_Ret _ _ Hload). reflexivity.
  - intros send fuel page changes config ->.
    unfold Monitor.autoPurchaseOpportunities.
    rewrite (bind_Ret _ _ Hload). reflexivity.
Qed.

(** C10 on a configuration file that does not parse. *)
Lemma loadAutoPurchaseConfig_returns_witness :
  let s := Double.start (Double.withFile (Some "{ enabled: ")) in
  Engine.loadAutoPurchaseConfig s
  = (@Runtime.Build_St Double.env (Double.withFile (Some "{ enabled: "))
       [Runtime.LogConfigError "Unexpected token"],
     Runtime.Ret None)
  /\ Monitor.autoPurchaseOpportunities (fun _ => Runtime.ret tt) 40 O
       [Differ.change NEW_AVAILABLE
          {| title := "Film"; screeningTime := ""; status := AVAILABLE;
             buttonText := "Order tickets"; url := "" |}] s
     = (@Runtime.Build_St Double.env (Double.withFile (Some "{ enabled: "))
          [Runtime.LogConfigError "Unexpected token"],
        Runtime.Ret tt).
Proof.
  intro s.
  destruct (@loadAutoPurchaseConfig_returns Double.env s)
    as (s' & result & Hload & _ & _ & Hread & Hnull & _).
  assert (Hnone : result = None).
  { apply (Hread (Double.withFile (Some "{ enabled: ")) "{ enabled: ");
      reflexivity. }
  assert (Hs : s' = @Runtime.Build_St Double.env
                      (Double.withFile (Some "{ enabled: "))
                      [Runtime.LogConfigError "Unexpected token"]).
  { vm_compute in Hload. now inversion Hload. }
  subst. split.
  - exact Hload.
  - apply Hnull. reflexivity.
Defined.

(* ================================================================== *)
(** * Payment fields *)
(* ================================================================== *)

Lemma checkoutLoop_ignores_payment (E : Runtime.Env) (fuel : nat)
    (page : Runtime.Page) (settings : Settings) (p : option Payment)
    (helpers : option (Engine.Helpers E)) (settleMs : Z) :
  forall (remaining : nat) (step : Z),
    Engine.checkoutLoop fuel page (withPayment settings p) helpers settleMs
      remaining step
    = Engine.checkoutLoop fuel page settings helpers settleMs remaining step.
Proof.
  induction remaining as [|n IH]; intro step; cbn [Engine.checkoutLoop].
  - reflexivity.
  - rewrite IH. reflexivity.
Qed.

(** C5.  The payment settings have no part in [runCheckoutFlow]: with any
    other payment the flow is the same computation.  At a page whose only
    control is a visible card number field, with a card number configured,
    [fillCardDetails] fills the field and returns [true], but
    [runCheckoutFlow] takes its twelve turns without filling it and gives
    up. *)
Theorem runCheckoutFlow_leaves_card_fields :
  (forall (E : Runtime.Env) (fuel : nat) (page : Runtime.Page)
          (settings : Settings) (p : option Payment)
          (helpers : option (Engine.Helpers E)),
     Engine.runCheckoutFlow fuel page (withPayment settings p) helpers
     = Engine.runCheckoutFlow fuel page settings helpers)
  /\ let s := Double.start Double.cardPage in
     let payment := Engine.getPaymentConfig Double.env Double.cardSettings in
     let filled := Engine.fillCardDetails O payment s in
     let flow := Engine.runCheckoutFlow 40 O Double.cardSettings None s in
     snd filled = Runtime.Ret true
     /\ Double.filled (Runtime.world (fst filled))
        = [(Engine.sel "input[autocomplete=" "cc-number",
            "4242424242424242")]
     /\ snd flow
        = Runtime.Ret {| success := false;
                         reason := "Checkout flow incomplete";
                         res_url :=
                           Some "https://festival.sundance.org/checkout" |}
     /\ Double.filled (Runtime.world (fst flow)) = []
     /\ Observe.steps (Runtime.console (fst flow))
        = [1; 2; 3; 4; 5; 6; 7; 8; 9; 10; 11; 12].
Proof.
  split.
  - intros E fuel page settings p helpers.
    unfold Engine.runCheckoutFlow.
    cbn [withPayment maxSteps stepWaitMs waitForBuyAdditionalMs].
    now rewrite checkoutLoop_ignores_payment.
  - vm_compute. repeat split.
Qed.

(** C8 on the document whose only select offers 1, 2 and 3. *)
Lemma setTicketQuantity_degrades_witness :
  let d := Dom.setSelects Dom.emptyDocument [Double.quantitySelect] in
  Dom.findIndex Dom.isQuantitySelect (Dom.selects d)
  = Some (O, Double.quantitySelect)
  /\ snd (Dom.setTicketQuantityScript 4 d)
     = {| Dom.q_success := true; Dom.q_quantity := Some 3 |}
  /\ snd (Engine.setTicketQuantity O (Some 4)
            (Double.start (Double.withDocument d Double.blank)))
     = Runtime.Ret true.
Proof.
  intro d.
  assert (Hsel : Dom.findIndex Dom.isQuantitySelect (Dom.selects d)
                 = Some (O, Double.quantitySelect)) by reflexivity.
  split; [exact Hsel|].
  destruct (@setTicketQuantity_degrades d O Double.quantitySelect Hsel)
    as [Hexact _].
  destruct (Hexact quantitySelect_offers)
    as (o & Ho & _ & _ & Hscript & _ & _ & Hrun).
  split.
  - rewrite Hscript. reflexivity.
  - erewrite Hrun; [reflexivity | reflexivity | reflexivity].
Defined.

(** The claim C8 as it stands fails on a page whose select of 1 to 3 comes
    after another select with [quantity] in its name: the first one
    decides, it offers no number, and the script fails without a look at
    the second select: the document is left as it was and
    [setTicketQuantity] returns [false]. *)
Lemma setTicketQuantity_degrades_counterexample :
  let kind :=
    {| Dom.sel_id := "quantity-kind"; Dom.sel_name := EmptyString;
       Dom.sel_className := EmptyString;
       Dom.sel_options :=
         [{| Dom.opt_value := "adult"; Dom.opt_textContent := "Adult" |};
          {| Dom.opt_value := "student"; Dom.opt_textContent := "Student" |}];
       Dom.sel_value := "adult" |} in
  let d := Dom.setSelects Dom.emptyDocument [kind; Double.quantitySelect] in
  let run :=
    Engine.setTicketQuantity O (Some 4)
      (Double.start (Double.withDocument d Double.blank)) in
  In Double.quantitySelect (Dom.selects d)
  /\ Dom.isQuantitySelect Double.quantitySelect = true
  /\ map Dom.opt_value (Dom.sel_options Double.quantitySelect)
     = ["1"; "2"; "3"]
  /\ Dom.setTicketQuantityScript 4 d
     = (d, {| Dom.q_success := false; Dom.q_quantity := None |})
  /\ snd run = Runtime.Ret false
  /\ Double.document (Runtime.world (fst run)) = d
  /\ ~ (exists s',
          run = (s', Runtime.Ret true)
          /\ Dom.q_quantity (snd (Dom.setTicketQuantityScript 4 d)) = Some 3).
Proof.
  intros kind d run.
  assert (Hrun : snd run = Runtime.Ret false) by (vm_compute; reflexivity).
  split; [right; left; reflexivity|].
  split; [reflexivity|].
  split; [reflexivity|].
  split; [vm_compute; reflexivity|].
  split; [exact Hrun|].
  split; [vm_compute; reflexivity|].
  intros (s' & Hs & _). rewrite Hs in Hrun. discriminate Hrun.
Qed.

(* ================================================================== *)
(** * Facts about strings *)
(* ================================================================== *)

Section StringFacts.

Import Js Shape.

Lemma includes_eq (hay needle : string) :
  includes hay needle
  = if String.prefix needle hay then true
    else match hay with
         | EmptyString => false
         | String _ r => includes r needle
         end.
Proof. destruct hay; reflexivity. Qed.

Lemma prefix_append (needle rest : string) :
  String.prefix needle (needle ++ rest) = true.
Proof.
  induction needle as [|c r IH]; simpl.
  - now destruct rest.
  - destruct (ascii_dec c c); [exact IH | congruence].
Qed.

Lemma prefix_split (needle hay : string) :
  String.prefix needle hay = true -> exists rest, hay = needle ++ rest.
Proof.
  revert hay. induction needle as [|c r IH]; intros hay H.
  - now exists hay.
  - destruct hay as [|d hay]; simpl in H; [discriminate|].
    destruct (ascii_dec c d) as [->|]; [|discriminate].
    destruct (IH hay H) as [rest ->]. now exists rest.
Qed.

Lemma append_assoc (a b c : string) : (a ++ b) ++ c = a ++ (b ++ c).
Proof. induction a; simpl; congruence. Qed.

Lemma append_empty (a : string) : a ++ "" = a.
Proof. induction a; simpl; congruence. Qed.

(** [includes] finds the needle exactly when it occurs in the string. *)
Lemma includes_iff (hay needle : string) :
  includes hay needle = true
  <-> exists before after, hay = before ++ needle ++ after.
Proof.
  split.
  - induction hay as [|c r IH]; rewrite includes_eq;
      destruct (String.prefix needle _) eqn:Hp; intro H.
    + destruct (prefix_split _ _ Hp) as [rest ->]. now exists "", rest.
    + discriminate.
    + destruct (prefix_split _ _ Hp) as [rest ->]. now exists "", rest.
    + destruct (IH H) as (before & after & ->).
      now exists (String c before), after.
  - intros (before & after & ->).
    induction before as [|c r IH]; rewrite includes_eq.
    + simpl. now rewrite prefix_append.
    + change (String c r ++ needle ++ after)
        with (String c (r ++ needle ++ after)).
      destruct (String.prefix needle (String c (r ++ needle ++ after)));
        [reflexivity | exact IH].
Qed.

Lemma mapString_append (f : ascii -> ascii) (a b : string) :
  mapString f (a ++ b) = mapString f a ++ mapString f b.
Proof. induction a; simpl; congruence. Qed.

Lemma lower_upper (c : ascii) : lowerAscii (upperAscii c) = lowerAscii c.
Proof. destruct c as [[] [] [] [] [] [] [] []]; reflexivity. Qed.

Lemma lower_lower (c : ascii) : lowerAscii (lowerAscii c) = lowerAscii c.
Proof. destruct c as [[] [] [] [] [] [] [] []]; reflexivity. Qed.

Lemma isSpace_lower (c : ascii) : isSpace (lowerAscii c) = isSpace c.
Proof. destruct c as [[] [] [] [] [] [] [] []]; reflexivity. Qed.

Lemma lower_space (c : ascii) : isSpace c = true -> lowerAscii c = c.
Proof. destruct c as [[] [] [] [] [] [] [] []]; (reflexivity || discriminate). Qed.

Lemma toLowerCase_upper (s : string) :
  toLowerCase (toUpperCase s) = toLowerCase s.
Proof.
  unfold toLowerCase, toUpperCase.
  induction s as [|c r IH]; [reflexivity|].
  cbn [mapString]. now rewrite IH, lower_upper.
Qed.

Lemma toLowerCase_idem (s : string) :
  toLowerCase (toLowerCase s) = toLowerCase s.
Proof.
  unfold toLowerCase.
  induction s as [|c r IH]; [reflexivity|].
  cbn [mapString]. now rewrite IH, lower_lower.
Qed.

Lemma toLowerCase_spaces (s : string) :
  allSpaces s = true -> toLowerCase s = s.
Proof.
  unfold toLowerCase.
  induction s as [|c r IH]; [reflexivity|].
  cbn [mapString allSpaces]. intro H. apply andb_prop in H as [Hc Hr].
  now rewrite (IH Hr), (lower_space _ Hc).
Qed.

Lemma trimStart_spaces (s : string) : allSpaces s = true -> trimStart s = "".
Proof.
  induction s as [|c r IH]; simpl; [reflexivity|].
  intro H. apply andb_prop in H as [-> Hr]. now apply IH.
Qed.

Lemma trimEnd_spaces (s : string) : allSpaces s = true -> trimEnd s = "".
Proof.
  induction s as [|c r IH]; simpl; [reflexivity|].
  intro H. apply andb_prop in H as [-> Hr]. now rewrite IH.
Qed.

Lemma trimStart_padded (before s : string) :
  allSpaces before = true -> trimStart (before ++ s) = trimStart s.
Proof.
  induction before as [|c r IH]; simpl; [reflexivity|].
  intro H. apply andb_prop in H as [-> Hr]. now apply IH.
Qed.

Lemma trimEnd_padded (s after : string) :
  allSpaces after = true -> trimEnd (s ++ after) = trimEnd s.
Proof.
  intro H. induction s as [|c r IH]; simpl.
  - now apply trimEnd_spaces.
  - now rewrite IH.
Qed.

Lemma trimStart_append (s after : string) :
  trimStart (s ++ after)
  = if allSpaces s then trimStart after else trimStart s ++ after.
Proof.
  induction s as [|c r IH]; simpl; [reflexivity|].
  destruct (isSpace c); simpl; [exact IH | reflexivity].
Qed.

Lemma trim_padded (before s after : string) :
  allSpaces before = true -> allSpaces after = true ->
  trim (before ++ s ++ after) = trim s.
Proof.
  intros Hb Ha. unfold trim.
  rewrite trimStart_padded by exact Hb. rewrite trimStart_append.
  destruct (allSpaces s) eqn:Hs.
  - now rewrite !trimStart_spaces.
  - now apply trimEnd_padded.
Qed.

(** What [trimStart] leaves does not start with white space. *)
Lemma trimStart_head (s : string) :
  match trimStart s with
  | EmptyString => True
  | String c _ => isSpace c = false
  end.
Proof.
  induction s as [|c r IH]; simpl; [exact I|].
  destruct (isSpace c) eqn:Hc; [exact IH | exact Hc].
Qed.

Lemma trimStart_fixed (s : string) :
  match s with
  | EmptyString => True
  | String c _ => isSpace c = false
  end ->
  trimStart s = s.
Proof. destruct s as [|c r]; simpl; [reflexivity|]. now intros ->. Qed.

(** [trimEnd] keeps the head of a string that does not start with white
    space. *)
Lemma trimEnd_head (s : string) :
  match s with
  | EmptyString => True
  | String c _ => isSpace c = false
  end ->
  match trimEnd s with
  | EmptyString => s = ""
  | String c _ => isSpace c = false
  end.
Proof.
  destruct s as [|c r]; simpl; [reflexivity|].
  intro Hc. destruct (trimEnd r); [now rewrite Hc | exact Hc].
Qed.

Lemma trimEnd_idem (s : string) : trimEnd (trimEnd s) = trimEnd s.
Proof.
  induction s as [|c r IH]; simpl; [reflexivity|].
  destruct (trimEnd r) as [|d r'] eqn:Hr.
  - destruct (isSpace c) eqn:Hc; simpl; [reflexivity | now rewrite Hc].
  - simpl in *. now rewrite IH.
Qed.

Lemma trim_idem (s : string) : trim (trim s) = trim s.
Proof.
  unfold trim.
  rewrite (trimStart_fixed (trimEnd (trimStart s))).
  - apply trimEnd_idem.
  - pose proof (trimEnd_head (trimStart s) (trimStart_head s)) as H.
    destruct (trimEnd (trimStart s)); [exact I | exact H].
Qed.

Lemma toLowerCase_trimStart (s : string) :
  toLowerCase (trimStart s) = trimStart (toLowerCase s).
Proof.
  unfold toLowerCase.
  induction s as [|c r IH]; [reflexivity|].
  cbn [mapString trimStart]. rewrite isSpace_lower.
  destruct (isSpace c); [exact IH | reflexivity].
Qed.

Lemma toLowerCase_trimEnd (s : string) :
  toLowerCase (trimEnd s) = trimEnd (toLowerCase s).
Proof.
  unfold toLowerCase.
  induction s as [|c r IH]; [reflexivity|].
  cbn [mapString trimEnd]. rewrite <- IH, isSpace_lower.
  destruct (trimEnd r); cbn [mapString]; [destruct (isSpace c)|]; reflexivity.
Qed.

Lemma toLowerCase_trim (s : string) :
  toLowerCase (trim s) = trim (toLowerCase s).
Proof.
  unfold trim. now rewrite toLowerCase_trimEnd, toLowerCase_trimStart.
Qed.

Lemma orString_some (s : string) : orString (Some s) "" = s.
Proof.
  unfold orString, truthyString.
  destruct (s =? "")%string eqn:H; simpl; [|reflexivity].
  apply String.eqb_eq in H. now subst.
Qed.

End StringFacts.

(* ================================================================== *)
(** * The matcher: normal forms, the earlier matcher, disabled rules *)
(* ================================================================== *)

Section MatcherNormalForms.

Import Js Shape Matcher.

Lemma normalizeTitle_variant (t t' before after : string) :
  toLowerCase t' = toLowerCase t ->
  allSpaces before = true -> allSpaces after = true ->
  normalizeTitle (Some (before ++ t' ++ after)) = normalizeTitle (Some t).
Proof.
  intros Hcase Hb Ha. unfold normalizeTitle. rewrite !orString_some.
  unfold toLowerCase at 1. rewrite !mapString_append.
  fold (toLowerCase before) (toLowerCase t') (toLowerCase after).
  rewrite (toLowerCase_spaces _ Hb), (toLowerCase_spaces _ Ha), Hcase.
  now apply trim_padded.
Qed.

Lemma normalizeTitle_idem (t : string) :
  normalizeTitle (Some (normalizeTitle (Some t))) = normalizeTitle (Some t).
Proof.
  unfold normalizeTitle. rewrite !orString_some.
  now rewrite toLowerCase_trim, toLowerCase_idem, trim_idem.
Qed.

(** A rule that a query finds is a rule of the configuration. *)
Lemma getFilmSettings_in (filmTitle : string) (screeningTime : option string)
    (config : option AutoPurchaseConfig) (r : FilmRule) :
  getFilmSettings filmTitle screeningTime config = Some r ->
  In r (rulesOf config).
Proof.
  unfold getFilmSettings, rulesOf.
  destruct config as [c|]; [|discriminate].
  destruct (films c) as [fs|]; [|discriminate].
  destruct (find (exactMatch _ _) fs) as [e|] eqn:He.
  - intros [= <-]. now apply find_some in He.
  - intro Ht. now apply find_some in Ht.
Qed.

Lemma shouldAutoPurchase_disabled (filmTitle : string)
    (screeningTime : option string) (config : option AutoPurchaseConfig) :
  (forall f, In f (rulesOf config) -> f_autoPurchase f = false) ->
  shouldAutoPurchase filmTitle screeningTime config = false.
Proof.
  intro Hoff. unfold shouldAutoPurchase.
  destruct (getFilmSettings filmTitle screeningTime config) as [r|] eqn:Hr;
    [|reflexivity].
  apply Hoff. eapply getFilmSettings_in; eauto.
Qed.

Lemma find_ext_in (A : Type) (f g : A -> bool) (l : list A) :
  (forall x, In x l -> f x = g x) -> find f l = find g l.
Proof.
  induction l as [|x l IH]; intro H; simpl; [reflexivity|].
  rewrite <- (H x (or_introl eq_refl)).
  destruct (f x); [reflexivity|]. apply IH. intros y Hy. apply H. now right.
Qed.

Lemma find_never (A : Type) (f : A -> bool) (l : list A) :
  (forall x, In x l -> f x = false) -> find f l = None.
Proof.
  induction l as [|x l IH]; intro H; simpl; [reflexivity|].
  rewrite (H x (or_introl eq_refl)). apply IH. intros y Hy. apply H. now right.
Qed.

End MatcherNormalForms.

(** X1.  The matcher compares normal forms: a query whose title and time
    differ from another's only in the case of their letters and in white
    space around them finds the same rule and gets the same decision, and
    normalizing a normal form changes nothing. *)
Theorem getFilmSettings_ignores_case_and_padding
    (filmTitle filmTitle' screeningTime screeningTime' : string)
    (before after before' after' : string)
    (config : option AutoPurchaseConfig) :
  Js.toLowerCase filmTitle' = Js.toLowerCase filmTitle ->
  Js.toLowerCase screeningTime' = Js.toLowerCase screeningTime ->
  Shape.allSpaces before = true -> Shape.allSpaces after = true ->
  Shape.allSpaces before' = true -> Shape.allSpaces after' = true ->
  Matcher.getFilmSettings (before ++ filmTitle' ++ after)
    (Some (before' ++ screeningTime' ++ after')) config
  = Matcher.getFilmSettings filmTitle (Some screeningTime) config
  /\ Matcher.shouldAutoPurchase (before ++ filmTitle' ++ after)
       (Some (before' ++ screeningTime' ++ after')) config
     = Matcher.shouldAutoPurchase filmTitle (Some screeningTime) config
  /\ Matcher.normalizeTitle (Some (Matcher.normalizeTitle (Some filmTitle)))
     = Matcher.normalizeTitle (Some filmTitle).
Proof.
  intros Ht Htime Hb Ha Hb' Ha'.
  assert (Hsame :
    Matcher.getFilmSettings (before ++ filmTitle' ++ after)
      (Some (before' ++ screeningTime' ++ after')) config
    = Matcher.getFilmSettings filmTitle (Some screeningTime) config).
  { unfold Matcher.getFilmSettings.
    destruct config as [c|]; [|reflexivity].
    destruct (films c) as [fs|]; [|reflexivity].
    rewrite !orString_some.
    rewrite (@normalizeTitle_variant filmTitle filmTitle' before after
               Ht Hb Ha).
    now rewrite (@normalizeTitle_variant screeningTime screeningTime'
                   before' after' Htime Hb' Ha'). }
  split; [exact Hsame|]. split; [|apply normalizeTitle_idem].
  unfold Matcher.shouldAutoPurchase. now rewrite Hsame.
Qed.

(** X1 on a title in capitals between a tab and a line end. *)
Lemma getFilmSettings_ignores_case_and_padding_witness :
  let rule := {| f_title := "Atropia"; f_screeningTime := Some "Jan 23 7:00 PM";
                 f_autoPurchase := true |} in
  let config := Some {| enabled := true; films := Some [rule];
                        settings := None |} in
  let tab := String (ascii_of_nat 9) "" in
  let lf := String (ascii_of_nat 10) "" in
  Matcher.getFilmSettings (tab ++ "ATROPIA" ++ lf)
    (Some (" " ++ "jan 23 7:00 pm" ++ "")) config
  = Some rule.
Proof.
  intros rule config tab lf.
  rewrite (proj1 (@getFilmSettings_ignores_case_and_padding
                    "Atropia" "ATROPIA" "Jan 23 7:00 PM" "jan 23 7:00 pm"
                    tab lf " " "" config
                    eq_refl eq_refl eq_refl eq_refl eq_refl eq_refl)).
  reflexivity.
Defined.

(** X2.  On a configuration none of whose rules has a screening time, the
    matcher finds the rule that the earlier matcher finds by the title
    alone: what it returns the earlier one returns, and a rule of the
    queried title that the earlier one returns it returns as well. *)
Theorem getFilmSettings_agrees_with_legacy
    (filmTitle : string) (screeningTime : option string)
    (config : option AutoPurchaseConfig) :
  (forall f, In f (Matcher.rulesOf config) ->
     Js.truthyString (f_screeningTime f) = false) ->
  (forall r,
     Matcher.getFilmSettings filmTitle screeningTime config = Some r ->
     Legacy.getFilmSettings filmTitle config = Some r)
  /\ (forall r,
        Legacy.getFilmSettings filmTitle config = Some r ->
        Matcher.ruleTitle r = Matcher.normalizeTitle (Some filmTitle) ->
        Matcher.getFilmSettings filmTitle screeningTime config = Some r).
Proof.
  intro Hnotime.
  unfold Matcher.getFilmSettings, Legacy.getFilmSettings, Matcher.rulesOf in *.
  destruct config as [c|]; [|split; intros; discriminate].
  destruct (films c) as [fs|]; [|split; intros; discriminate].
  set (nTitle := Matcher.normalizeTitle (Some filmTitle)).
  set (nTime := Matcher.normalizeTitle (Some (Js.orString screeningTime ""))).
  assert (Htitle : find (Matcher.titleOnlyMatch nTitle) fs
                   = find (Legacy.sameTitle nTitle) fs).
  { apply find_ext_in. intros f Hf.
    unfold Matcher.titleOnlyMatch, Legacy.sameTitle.
    now rewrite (Hnotime f Hf). }
  assert (Hmatcher :
    match find (Matcher.exactMatch nTitle nTime) fs with
    | Some exact => Some exact
    | None => find (Matcher.titleOnlyMatch nTitle) fs
    end = find (Legacy.sameTitle nTitle) fs).
  { destruct (nTime =? "")%string eqn:Hempty.
    - assert (Hexact : find (Matcher.exactMatch nTitle nTime) fs
                       = find (Legacy.sameTitle nTitle) fs).
      { apply find_ext_in. intros f Hf.
        unfold Matcher.exactMatch, Legacy.sameTitle.
        fold (Matcher.ruleTime f).
        rewrite (ruleTime_absent f (Hnotime f Hf)).
        apply String.eqb_eq in Hempty. rewrite Hempty. simpl.
        apply andb_true_r. }
      rewrite Hexact, Htitle.
      now destruct (find (Legacy.sameTitle nTitle) fs).
    - rewrite find_never; [exact Htitle|].
      intros f Hf. unfold Matcher.exactMatch. fold (Matcher.ruleTime f).
      rewrite (ruleTime_absent f (Hnotime f Hf)).
      rewrite (String.eqb_sym "" nTime), Hempty. apply andb_false_r. }
  rewrite Hmatcher. split.
  - intros r Hr. now rewrite Hr.
  - intros r Hr Hsame.
    destruct (find (Legacy.sameTitle nTitle) fs) as [e|] eqn:He;
      [exact Hr|].
    apply find_some in Hr as [Hin _].
    pose proof (find_none _ _ He r Hin) as Hno.
    unfold Legacy.sameTitle in Hno. unfold Matcher.ruleTitle in Hsame.
    rewrite Hsame, String.eqb_refl in Hno. discriminate.
Qed.

(** X2 on a list of two titles. *)
Lemma getFilmSettings_agrees_with_legacy_witness :
  let rule := {| f_title := "Atropia"; f_screeningTime := None;
                 f_autoPurchase := true |} in
  let other := {| f_title := "Sorry, Baby"; f_screeningTime := Some "";
                  f_autoPurchase := false |} in
  let config := Some {| enabled := true; films := Some [other; rule];
                        settings := None |} in
  Legacy.getFilmSettings " atropia" config = Some rule.
Proof.
  intros rule other config.
  apply (proj1 (@getFilmSettings_agrees_with_legacy
                  " atropia" (Some "Jan 23 7:00 PM") config
                  ltac:(intros f [<-|[<-|[]]]; reflexivity))).
  reflexivity.
Defined.

(** X3.  The earlier matcher also takes a rule one of whose title and the
    queried title occurs in the other; the matcher of the engine returns
    nothing unless a rule has the queried title itself. *)
Theorem legacy_getFilmSettings_by_containment
    (filmTitle : string) (screeningTime : option string)
    (config : option AutoPurchaseConfig) (f : FilmRule) :
  In f (Matcher.rulesOf config) ->
  (exists before after,
      Matcher.normalizeTitle (Some filmTitle)
      = before ++ Matcher.ruleTitle f ++ after)
  \/ (exists before after,
         Matcher.ruleTitle f
         = before ++ Matcher.normalizeTitle (Some filmTitle) ++ after) ->
  (exists r, Legacy.getFilmSettings filmTitle config = Some r
             /\ In r (Matcher.rulesOf config))
  /\ ((forall g, In g (Matcher.rulesOf config) ->
         Matcher.ruleTitle g <> Matcher.normalizeTitle (Some filmTitle)) ->
      Matcher.getFilmSettings filmTitle screeningTime config = None).
Proof.
  intros Hin Hoccurs.
  unfold Matcher.getFilmSettings, Legacy.getFilmSettings, Matcher.rulesOf in *.
  destruct config as [c|]; [|destruct Hin].
  destruct (films c) as [fs|]; [|destruct Hin].
  set (nTitle := Matcher.normalizeTitle (Some filmTitle)) in *.
  split.
  - destruct (find (Legacy.sameTitle nTitle) fs) as [e|] eqn:He.
    + exists e. split; [reflexivity|]. now apply find_some in He.
    + destruct (find (Legacy.overlaps nTitle) fs) as [o|] eqn:Ho.
      * exists o. split; [reflexivity|]. now apply find_some in Ho.
      * pose proof (find_none _ _ Ho f Hin) as Hno.
        unfold Legacy.overlaps in Hno. apply orb_false_elim in Hno as [H1 H2].
        destruct Hoccurs as [Hocc|Hocc];
          apply includes_iff in Hocc; unfold Matcher.ruleTitle in Hocc;
          congruence.
  - intro Hother. rewrite find_never.
    + apply find_never. intros g Hg. unfold Matcher.titleOnlyMatch.
      destruct (String.eqb_spec (Matcher.normalizeTitle (Some (f_title g)))
                  nTitle) as [Heq|]; [|apply andb_false_r].
      now destruct (Hother g Hg).
    + intros g Hg. unfold Matcher.exactMatch.
      destruct (String.eqb_spec (Matcher.normalizeTitle (Some (f_title g)))
                  nTitle) as [Heq|]; [|reflexivity].
      now destruct (Hother g Hg).
Qed.

(** X3 on a rule for a title of which the queried one is a part. *)
Lemma legacy_getFilmSettings_by_containment_witness :
  let rule := {| f_title := "Zodiac Killer Project"; f_screeningTime := None;
                 f_autoPurchase := true |} in
  let config := Some {| enabled := true; films := Some [rule];
                        settings := None |} in
  (exists r, Legacy.getFilmSettings "Zodiac" config = Some r
             /\ In r (Matcher.rulesOf config))
  /\ Matcher.getFilmSettings "Zodiac" None config = None.
Proof.
  intros rule config.
  destruct (@legacy_getFilmSettings_by_containment "Zodiac" None config rule
              (or_introl eq_refl)
              (or_intror (ex_intro _ "" (ex_intro _ " killer project"
                                           eq_refl))))
    as [Hlegacy Hengine].
  split; [exact Hlegacy|].
  apply Hengine. intros g [<-|[]]. vm_compute. discriminate.
Defined.

(* ================================================================== *)
(** * Screenings that are not to be bought *)
(* ================================================================== *)

(** X4.  When the matcher says not to buy, [attemptPurchase] writes its
    opening lines, leaves the world as it is and returns a failure: that
    the screening is not in the list when no rule is found, that buying is
    disabled for it when the rule found does not ask for it. *)
Theorem attemptPurchase_declines (E : Runtime.Env) (fuel : nat)
    (page : Runtime.Page) (filmTitle : string)
    (screeningTime : option string) (config : AutoPurchaseConfig)
    (sendNotification : option (list ChangeEvent -> Runtime.M E unit))
    (s : Runtime.St E) :
  Matcher.shouldAutoPurchase filmTitle screeningTime (Some config) = false ->
  Engine.attemptPurchase fuel page filmTitle screeningTime (Some config)
    sendNotification s
  = ({| Runtime.world := Runtime.world s;
        Runtime.console :=
          (Runtime.console s
           ++ Runtime.LogPurchaseStart filmTitle
              :: (if Js.truthyString screeningTime
                  then [Runtime.LogScreening (Js.orString screeningTime "")]
                  else []))%list |},
     Runtime.Ret
       {| success := false;
          reason :=
            match Matcher.getFilmSettings filmTitle screeningTime
                    (Some config) with
            | None => "Film screening not found in auto-purchase list"
            | Some _ => "Auto-purchase disabled for this screening"
            end;
          res_url := None |}).
Proof.
  unfold Matcher.shouldAutoPurchase, Engine.attemptPurchase.
  destruct (Matcher.getFilmSettings filmTitle screeningTime (Some config))
    as [rule|]; [intros ->|intros _];
    destruct (Js.truthyString screeningTime);
    unfold Runtime.bind, Runtime.log, Runtime.ret, Engine.failed; simpl;
    rewrite <- ?app_assoc; reflexivity.
Qed.

(** X4 on a rule that is switched off. *)
Lemma attemptPurchase_declines_witness :
  let config := {| enabled := true;
                   films := Some [{| f_title := "Atropia";
                                     f_screeningTime := None;
                                     f_autoPurchase := false |}];
                   settings := None |} in
  Engine.attemptPurchase 40 O "Atropia" (Some "Jan 23 7:00 PM") (Some config) None
    Still.start
  = (@Runtime.Build_St Still.env 0
       [Runtime.LogPurchaseStart "Atropia";
        Runtime.LogScreening "Jan 23 7:00 PM"],
     Runtime.Ret {| success := false;
                    reason := "Auto-purchase disabled for this screening";
                    res_url := None |}).
Proof.
  intro config.
  rewrite (@attemptPurchase_declines Still.env 40 O "Atropia"
             (Some "Jan 23 7:00 PM") config None Still.start eq_refl).
  reflexivity.
Defined.

Section NothingEnabled.

Variable E : Runtime.Env.
Variable sendEmailNotification : list ChangeEvent -> Runtime.M E unit.

(** A change for which no rule asks to buy is passed over. *)
Lemma purchaseChange_skip (fuel : nat) (page : Runtime.Page)
    (config : AutoPurchaseConfig) (change : ChangeEvent) :
  (forall f, In f (Matcher.rulesOf (Some config)) ->
     f_autoPurchase f = false) ->
  Monitor.purchaseChange sendEmailNotification fuel page config change
  = Runtime.ret tt.
Proof.
  intro Hoff. unfold Monitor.purchaseChange.
  now rewrite (shouldAutoPurchase_disabled _ _ _ Hoff), andb_false_r.
Qed.

End NothingEnabled.

(** X5.  With a configuration none of whose rules asks to buy, the
    auto-purchase block of the monitor goes through the changes of a cycle
    without a line on the console and without a call to the browser. *)
Theorem purchaseChanges_nothing_enabled (E : Runtime.Env)
    (sendEmailNotification : list ChangeEvent -> Runtime.M E unit)
    (fuel : nat) (page : Runtime.Page) (config : AutoPurchaseConfig)
    (changes : list ChangeEvent) (s : Runtime.St E) :
  (forall f, In f (Matcher.rulesOf (Some config)) ->
     f_autoPurchase f = false) ->
  Monitor.purchaseChanges sendEmailNotification fuel page config changes s
  = (s, Runtime.Ret tt).
Proof.
  intro Hoff. induction changes as [|change rest IH]; [reflexivity|].
  cbn [Monitor.purchaseChanges].
  rewrite (@purchaseChange_skip E sendEmailNotification fuel page config
             change Hoff).
  exact IH.
Qed.

(** X5 on a new screening of a film whose rule is switched off. *)
Lemma purchaseChanges_nothing_enabled_witness :
  let config := {| enabled := true;
                   films := Some [{| f_title := "Atropia";
                                     f_screeningTime := None;
                                     f_autoPurchase := false |}];
                   settings := None |} in
  let found := {| ev_type := NEW_AVAILABLE; ev_title := "Atropia";
                  ev_screeningTime := "Jan 23 7:00 PM";
                  ev_status := Some AVAILABLE;
                  ev_buttonText := "Order tickets"; ev_url := "" |} in
  Monitor.purchaseChanges (fun _ => Runtime.ret tt) 40 O config [found]
    Still.start
  = (Still.start, Runtime.Ret tt).
Proof.
  intros config found.
  apply (@purchaseChanges_nothing_enabled Still.env (fun _ => Runtime.ret tt)
           40 O config [found] Still.start).
  intros f [<-|[]]. reflexivity.
Defined.

(** X6.  The configuration that the generator writes asks to buy nothing:
    whatever the screenings it lists, the matcher says not to buy for every
    query, and the auto-purchase block of the monitor does nothing with
    it. *)
Theorem generatedConfig_buys_nothing (E : Runtime.Env)
    (sendEmailNotification : list ChangeEvent -> Runtime.M E unit)
    (screenings : list (string * string)) :
  (forall filmTitle screeningTime,
     Matcher.shouldAutoPurchase filmTitle screeningTime
       (Some (Generator.generatedConfig screenings)) = false)
  /\ (forall fuel page changes (s : Runtime.St E),
        Monitor.purchaseChanges sendEmailNotification fuel page
          (Generator.generatedConfig screenings) changes s
        = (s, Runtime.Ret tt)).
Proof.
  assert (Hoff : forall f,
    In f (Matcher.rulesOf (Some (Generator.generatedConfig screenings))) ->
    f_autoPurchase f = false).
  { simpl. unfold Generator.filmsOf. intros f Hf.
    apply in_map_iff in Hf as (screening & <- & _). reflexivity. }
  split.
  - intros. now apply shouldAutoPurchase_disabled.
  - intros fuel page changes.
    induction changes as [|change rest IH]; intro s; [reflexivity|].
    cbn [Monitor.purchaseChanges].
    rewrite (@purchaseChange_skip E sendEmailNotification fuel page
               (Generator.generatedConfig screenings) change Hoff).
    apply IH.
Qed.

(* ================================================================== *)
(** * Properties of the schedule extraction *)
(* ================================================================== *)

Section ExtractorFacts.

Import Extractor Shape.

Lemma define_in (tickets : ScheduleSnapshot) (key : string)
    (record : ScreeningRecord) (k : string) (r : ScreeningRecord) :
  In (k, r) (define tickets key record) ->
  In (k, r) tickets \/ (k, r) = (key, record).
Proof.
  induction tickets as [|[k0 r0] rest IH]; simpl.
  - intros [H|[]]; auto.
  - destruct (String.eqb_spec k0 key) as [->|Hne]; simpl.
    + intros [H|H]; auto.
    + intros [H|H]; auto. destruct (IH H); auto.
Qed.

Lemma define_keys (tickets : ScheduleSnapshot) (key : string)
    (record : ScreeningRecord) (k : string) :
  In k (keys (define tickets key record)) ->
  In k (keys tickets) \/ k = key.
Proof.
  induction tickets as [|[k0 r0] rest IH]; simpl.
  - intros [H|[]]; auto.
  - destruct (String.eqb_spec k0 key) as [->|Hne]; simpl.
    + intros [H|H]; auto.
    + intros [H|H]; auto. destruct (IH H); auto.
Qed.

Lemma define_nodup (tickets : ScheduleSnapshot) (key : string)
    (record : ScreeningRecord) :
  NoDup (keys tickets) -> NoDup (keys (define tickets key record)).
Proof.
  induction tickets as [|[k0 r0] rest IH]; simpl; intro H.
  - constructor; [intros []|constructor].
  - inversion H as [|? ? Hnotin Hrest]; subst.
    destruct (String.eqb_spec k0 key) as [->|Hne]; simpl.
    + now constructor.
    + constructor; [|now apply IH].
      intro Hin. apply define_keys in Hin as [Hin|Hin]; auto.
Qed.

Lemma lookup_define_same (tickets : ScheduleSnapshot) (key : string)
    (record : ScreeningRecord) :
  lookup (define tickets key record) key = Some record.
Proof.
  induction tickets as [|[k0 r0] rest IH]; simpl.
  - now rewrite String.eqb_refl.
  - destruct (String.eqb_spec k0 key) as [->|Hne]; simpl.
    + now rewrite String.eqb_refl.
    + destruct (String.eqb_spec k0 key); [contradiction | exact IH].
Qed.

Lemma lookup_define_other (tickets : ScheduleSnapshot) (key : string)
    (record : ScreeningRecord) (k : string) :
  k <> key -> lookup (define tickets key record) k = lookup tickets k.
Proof.
  intro Hk. induction tickets as [|[k0 r0] rest IH]; simpl.
  - destruct (String.eqb_spec key k); [congruence | reflexivity].
  - destruct (String.eqb_spec k0 key) as [->|Hne]; simpl.
    + destruct (String.eqb_spec key k); [congruence | reflexivity].
    + now rewrite IH.
Qed.

Lemma assign_nodup (tickets : ScheduleSnapshot) (key : string)
    (record : ScreeningRecord) :
  NoDup (keys tickets) -> NoDup (keys (assign tickets key record)).
Proof.
  unfold assign. destruct (key =? "__proto__")%string; [auto|].
  apply define_nodup.
Qed.

Lemma assign_in (tickets : ScheduleSnapshot) (key : string)
    (record : ScreeningRecord) (k : string) (r : ScreeningRecord) :
  In (k, r) (assign tickets key record) ->
  In (k, r) tickets \/ (k, r) = (key, record).
Proof.
  unfold assign. destruct (key =? "__proto__")%string; [auto|].
  apply define_in.
Qed.

Lemma lookup_assign_other (tickets : ScheduleSnapshot) (key : string)
    (record : ScreeningRecord) (k : string) :
  k <> key -> lookup (assign tickets key record) k = lookup tickets k.
Proof.
  intro Hk. unfold assign. destruct (key =? "__proto__")%string;
    [reflexivity|]. now apply lookup_define_other.
Qed.

Lemma extractFrom_cons (href : string) (index : nat) (desc : ScheduleDesc)
    (rest : list ScheduleDesc) (tickets : ScheduleSnapshot) :
  extractFrom href index (desc :: rest) tickets
  = extractFrom href (S index) rest (after href index desc tickets).
Proof.
  unfold after. simpl. destruct (listedTitle desc) as [title|]; [|reflexivity].
  now destruct (entryOf href index desc title).
Qed.

Lemma extractFrom_app (href : string) (l1 l2 : list ScheduleDesc) :
  forall (index : nat) (tickets : ScheduleSnapshot),
    extractFrom href index (l1 ++ l2)%list tickets
    = extractFrom href (index + List.length l1) l2
        (extractFrom href index l1 tickets).
Proof.
  induction l1 as [|desc l1 IH]; intros index tickets.
  - simpl. now rewrite Nat.add_0_r.
  - change ((desc :: l1) ++ l2)%list with (desc :: (l1 ++ l2))%list.
    rewrite !extractFrom_cons, IH. simpl List.length.
    now rewrite Nat.add_succ_r.
Qed.

Lemma extractFrom_nodup (href : string) (descs : list ScheduleDesc) :
  forall (index : nat) (tickets : ScheduleSnapshot),
    NoDup (keys tickets) ->
    NoDup (keys (extractFrom href index descs tickets)).
Proof.
  induction descs as [|desc rest IH]; intros index tickets H; [exact H|].
  rewrite extractFrom_cons. apply IH. unfold after.
  destruct (listedTitle desc); [now apply assign_nodup | exact H].
Qed.

(** Every entry of the result was in the object or is the entry of a
    listed description. *)
Lemma extractFrom_in (href : string) (descs : list ScheduleDesc)
    (k : string) (r : ScreeningRecord) :
  forall (index : nat) (tickets : ScheduleSnapshot),
    In (k, r) (extractFrom href index descs tickets) ->
    In (k, r) tickets
    \/ exists j desc title,
         nth_error descs j = Some desc
         /\ listedTitle desc = Some title
         /\ (k, r) = entryOf href (index + j) desc title.
Proof.
  induction descs as [|desc rest IH]; intros index tickets H; [now left|].
  rewrite extractFrom_cons in H. apply IH in H as [H|H].
  - unfold after in H. destruct (listedTitle desc) as [title|] eqn:Ht;
      [|now left].
    apply assign_in in H as [H|H]; [now left|]. right.
    exists O, desc, title. rewrite Nat.add_0_r.
    rewrite H. now destruct (entryOf href index desc title).
  - right. destruct H as (j & d & title & Hj & Ht & He).
    exists (S j), d, title. now rewrite Nat.add_succ_r.
Qed.

(** An object lists every key once. *)
Lemma extractTicketInfoScript_nodup (page : SchedulePage) :
  NoDup (keys (extractTicketInfoScript page)).
Proof. apply extractFrom_nodup. constructor. Qed.

Lemma lookup_in (state : ScheduleSnapshot) (k : string) (r : ScreeningRecord) :
  NoDup (keys state) -> In (k, r) state -> lookup state k = Some r.
Proof.
  induction state as [|[k0 r0] rest IH]; simpl; [intros _ []|].
  intros Hnd [H|H].
  - inversion H; subst. now rewrite String.eqb_refl.
  - inversion Hnd as [|? ? Hnotin Hrest]; subst.
    destruct (String.eqb_spec k0 k) as [->|Hne]; [|now apply IH].
    destruct Hnotin. change k with (fst (k, r)). now apply in_map.
Qed.

End ExtractorFacts.

Section RowFacts.

Import Extractor Shape.

Lemma lastSome_app (A B : Type) (f : A -> option B) (l1 l2 : list A) :
  lastSome f (l1 ++ l2)%list
  = match lastSome f l2 with
    | Some y => Some y
    | None => lastSome f l1
    end.
Proof.
  induction l1 as [|x l1 IH]; simpl.
  - now destruct (lastSome f l2).
  - rewrite IH. now destruct (lastSome f l2).
Qed.

Lemma fold_look (buttons : list ActionButton) :
  forall found,
    fold_left look buttons found
    = match lastSome recognised buttons with
      | Some now => now
      | None => found
      end.
Proof.
  induction buttons as [|b rest IH]; intro found; simpl; [reflexivity|].
  rewrite IH. unfold look.
  destruct (lastSome recognised rest); [reflexivity|].
  now destruct (recognised b).
Qed.

Lemma fold_cells (cells : list (list ActionButton)) :
  forall found,
    fold_left (fun found cell => fold_left look (filter notFavorite cell) found)
      cells found
    = match lastSome recognised (filter notFavorite (List.concat cells)) with
      | Some now => now
      | None => found
      end.
Proof.
  induction cells as [|cell rest IH]; intro found; simpl; [reflexivity|].
  rewrite IH, fold_look, filter_app, lastSome_app.
  now destruct (lastSome recognised (filter notFavorite (List.concat rest))).
Qed.

Lemma lastSome_found (A B : Type) (f : A -> option B) (l : list A) (y : B) :
  lastSome f l = Some y -> exists x, In x l /\ f x = Some y.
Proof.
  induction l as [|x l IH]; simpl; [discriminate|].
  destruct (lastSome f l) as [z|].
  - intros [= <-]. destruct (IH eq_refl) as (x0 & Hin & Hx). eauto.
  - intro Hx. eauto.
Qed.

Lemma recognised_classify (button : ActionButton) (st : Status)
    (text : string) :
  recognised button = Some (st, text) ->
  text = Js.trim (ab_textContent button)
  /\ classify text = Some st
  /\ text <> EmptyString
  /\ hasLetter text = true.
Proof.
  unfold recognised.
  destruct (String.eqb_spec (Js.trim (ab_textContent button)) "") as [He|He];
    simpl; [discriminate|].
  destruct (hasLetter (Js.trim (ab_textContent button))) eqn:Hl;
    [|discriminate].
  destruct (classify (Js.trim (ab_textContent button))) eqn:Hc;
    [|discriminate].
  intros [= <- <-]. auto.
Qed.

Lemma classify_known (text : string) : classify text <> Some UNKNOWN.
Proof.
  unfold classify.
  repeat match goal with
         | |- context [if ?b then _ else _] => destruct b
         end; discriminate.
Qed.

(** The status of a row is justified by the label kept with it. *)
Lemma rowStatus_justified (cells : list (list ActionButton)) :
  rowStatus cells = (UNKNOWN, EmptyString)
  \/ classify (snd (rowStatus cells)) = Some (fst (rowStatus cells)).
Proof.
  unfold rowStatus. rewrite fold_cells.
  destruct (lastSome recognised _) as [[st text]|] eqn:Hlast; [|now left].
  right. apply lastSome_found in Hlast as (b & _ & Hb).
  now apply recognised_classify in Hb.
Qed.

End RowFacts.

(** X7.  The status of a row is decided by the last of its buttons, in the
    order of the cells, that is no favourite button and whose label reads
    as an action; the row is [UNKNOWN] exactly when it has none.  Inside
    a label "sold out" goes before the wait list, and the wait list before
    the words of ordering. *)
Theorem rowStatus_last_recognised (cells : list (list Extractor.ActionButton)) :
  Extractor.rowStatus cells
  = match Shape.lastSome Extractor.recognised
            (filter Extractor.notFavorite (List.concat cells)) with
    | Some found => found
    | None => (UNKNOWN, EmptyString)
    end
  /\ (fst (Extractor.rowStatus cells) = UNKNOWN
      <-> Shape.lastSome Extractor.recognised
            (filter Extractor.notFavorite (List.concat cells)) = None)
  /\ (forall button st text,
        Extractor.recognised button = Some (st, text) ->
        text = Js.trim (Extractor.ab_textContent button)
        /\ (st = SOLD_OUT
            <-> Js.includes (Js.toUpperCase text) "SOLD OUT" = true)
        /\ (st = AVAILABLE ->
            Js.includes (Js.toUpperCase text) "WAITLIST" = false
            /\ Js.includes (Js.toUpperCase text) "WAIT LIST" = false)).
Proof.
  split; [|split].
  - unfold Extractor.rowStatus. apply fold_cells.
  - unfold Extractor.rowStatus. rewrite fold_cells.
    destruct (Shape.lastSome Extractor.recognised _) as [[st text]|] eqn:Hlast.
    + split; [|discriminate]. simpl. intros ->.
      apply lastSome_found in Hlast as (b & _ & Hb).
      apply recognised_classify in Hb as (_ & Hc & _).
      now destruct (classify_known text).
    + split; reflexivity.
  - intros button st text Hb.
    apply recognised_classify in Hb as (Ht & Hc & _). split; [exact Ht|].
    unfold Extractor.classify in Hc.
    destruct (Js.includes (Js.toUpperCase text) "SOLD OUT").
    + injection Hc as <-. split; [tauto | discriminate].
    + destruct (Js.includes (Js.toUpperCase text) "WAITLIST");
        destruct (Js.includes (Js.toUpperCase text) "WAIT LIST");
        simpl in Hc.
      1-3: injection Hc as <-; split; [split|]; discriminate.
      destruct (_ || _) in Hc; [|discriminate].
      injection Hc as <-. split; [split; discriminate | auto].
Qed.

Section TimeFacts.

Import Js Extractor Shape.

Lemma squeeze_idem (s : string) :
  forall inRun, squeeze inRun (squeeze inRun s) = squeeze inRun s.
Proof.
  induction s as [|c r IH]; intro inRun; [reflexivity|].
  cbn [squeeze]. destruct (isSpace c) eqn:Hc.
  - destruct inRun; [apply IH|].
    cbn [squeeze]. change (isSpace " ") with true. cbv iota.
    now rewrite IH.
  - cbn [squeeze]. now rewrite Hc, IH.
Qed.

Lemma squeeze_empty (s : string) (inRun : bool) :
  squeeze inRun s = "" -> allSpaces s = true.
Proof.
  revert inRun. induction s as [|c r IH]; intro inRun; [reflexivity|].
  cbn [squeeze allSpaces]. destruct (isSpace c).
  - destruct inRun; [apply IH | discriminate].
  - discriminate.
Qed.

(** A string that [trimEnd] keeps is empty, or a character that is no white
    space, or goes on with a string that [trimEnd] keeps and that is not
    empty. *)
Lemma trimEnd_fixed_inv (c : ascii) (r : string) :
  trimEnd (String c r) = String c r ->
  (r = "" /\ isSpace c = false) \/ (trimEnd r = r /\ r <> "").
Proof.
  cbn [trimEnd]. destruct (trimEnd r) as [|d r'] eqn:Hr.
  - destruct (isSpace c); [discriminate|]. intros [= <-]. now left.
  - intros [= <-]. right. split; [reflexivity | discriminate].
Qed.

Lemma trimEnd_cons (c : ascii) (r : string) :
  trimEnd r = r -> r <> "" -> trimEnd (String c r) = String c r.
Proof.
  intros Hr Hne. cbn [trimEnd]. rewrite Hr.
  destruct r; [contradiction | reflexivity].
Qed.

Lemma trimEnd_squeeze (s : string) :
  forall inRun, trimEnd s = s -> trimEnd (squeeze inRun s) = squeeze inRun s.
Proof.
  induction s as [|c r IH]; intros inRun H; [reflexivity|].
  destruct (trimEnd_fixed_inv H) as [[-> Hc]|[Hr Hne]].
  - cbn [squeeze]. rewrite Hc. cbn [squeeze trimEnd]. now rewrite Hc.
  - assert (Hkept : forall b, squeeze b r <> "").
    { intros b Hb. apply squeeze_empty in Hb.
      apply trimEnd_spaces in Hb. congruence. }
    cbn [squeeze]. destruct (isSpace c).
    + destruct inRun; [now apply IH|].
      apply trimEnd_cons; [now apply IH | apply Hkept].
    + apply trimEnd_cons; [now apply IH | apply Hkept].
Qed.

Lemma squeeze_head (s : string) :
  match s with
  | EmptyString => True
  | String c _ => isSpace c = false
  end ->
  match squeeze false s with
  | EmptyString => True
  | String c _ => isSpace c = false
  end.
Proof.
  destruct s as [|c r]; [auto|]. cbn [squeeze]. intro Hc.
  rewrite Hc. exact Hc.
Qed.

Lemma trim_head (s : string) :
  match trim s with
  | EmptyString => True
  | String c _ => isSpace c = false
  end.
Proof.
  unfold trim.
  pose proof (trimEnd_head (trimStart s) (trimStart_head s)) as H.
  destruct (trimEnd (trimStart s)); [exact I | exact H].
Qed.

(** The screening time that the page script reads is in normal form. *)
Lemma listedTime_normal (desc : ScheduleDesc) : normalTime (listedTime desc).
Proof.
  unfold normalTime, listedTime.
  destruct (sd_date desc) as [text|]; [|split; reflexivity].
  split; [|apply squeeze_idem].
  unfold trim at 1.
  rewrite (trimStart_fixed (squeeze false (trim text)))
    by (apply squeeze_head, trim_head).
  apply trimEnd_squeeze. unfold trim. apply trimEnd_idem.
Qed.

Lemma listedTitle_shape (desc : ScheduleDesc) (title : string) :
  listedTitle desc = Some title ->
  trim title = title /\ (2 <= String.length title)%nat.
Proof.
  unfold listedTitle. destruct (sd_h3 desc) as [h3|]; [|discriminate].
  destruct (String.eqb_spec (trim h3) "") as [|_]; simpl; [discriminate|].
  destruct (Nat.ltb_spec (String.length (trim h3)) 2) as [|Hlen];
    [discriminate|].
  intros [= <-]. split; [apply trim_idem | exact Hlen].
Qed.

Lemma entryOf_record (href : string) (index : nat) (desc : ScheduleDesc)
    (t : string) :
  title (snd (entryOf href index desc t)) = t
  /\ screeningTime (snd (entryOf href index desc t)) = listedTime desc
  /\ url (snd (entryOf href index desc t)) = href.
Proof. unfold entryOf. now destruct (sd_row desc). Qed.

End TimeFacts.

(** X8.  Every record that [extractTicketInfo] returns comes from a
    description of the page with a title: its title is trimmed and at least
    two characters long, its screening time has no white space at its ends
    and none inside but single spaces, its address is that of the page, and
    its status is [UNKNOWN] with no label or with the note that no row was
    found, or else the status that its label reads as. *)
Theorem extractTicketInfo_records (page : Extractor.SchedulePage)
    (key : string) (record : ScreeningRecord) :
  In (key, record) (Extractor.extractTicketInfoScript page) ->
  (exists index desc,
      nth_error (Extractor.sd_descs page) index = Some desc
      /\ Extractor.listedTitle desc = Some (title record)
      /\ (key, record)
         = Extractor.entryOf (Extractor.sd_href page) index desc
             (title record))
  /\ Js.trim (title record) = title record
  /\ (2 <= String.length (title record))%nat
  /\ Shape.normalTime (screeningTime record)
  /\ url record = Extractor.sd_href page
  /\ ((status record = UNKNOWN
       /\ (buttonText record = EmptyString
           \/ buttonText record = "No row container found"))
      \/ Extractor.classify (buttonText record) = Some (status record)).
Proof.
  intro Hin. unfold Extractor.extractTicketInfoScript in Hin.
  apply extractFrom_in in Hin as [[]|(j & desc & t & Hj & Ht & He)].
  simpl in He.
  pose proof (entryOf_record (Extractor.sd_href page) j desc t)
    as (Htitle & Htime & Hurl).
  rewrite <- He in Htitle, Htime, Hurl. simpl in Htitle, Htime, Hurl.
  subst t. destruct (listedTitle_shape _ Ht) as [Htrim Hlen].
  split; [now exists j, desc|].
  repeat (split; [assumption|]).
  split; [rewrite Htime; apply listedTime_normal|].
  split; [assumption|].
  unfold Extractor.entryOf in He. destruct (Extractor.sd_row desc) as [cells|].
  - injection He as _ ->. simpl.
    destruct (rowStatus_justified cells) as [Hnone|Hsome].
    + left. rewrite Hnone. simpl. auto.
    + now right.
  - injection He as _ ->. simpl. left. auto.
Qed.

(** X8 on a screening with an order button after its favourite button. *)
Lemma extractTicketInfo_records_witness :
  let fav := {| Extractor.ab_className := "sd_fav_btn";
                Extractor.ab_textContent := "Get reminders" |} in
  let order := {| Extractor.ab_className := "sd_btn";
                  Extractor.ab_textContent := " Order Tickets " |} in
  let desc := {| Extractor.sd_h3 := Some " Atropia ";
                 Extractor.sd_date := Some "Jan 23   7:00 PM ";
                 Extractor.sd_row := Some [[]; [fav]; [order]] |} in
  let page := {| Extractor.sd_descs := [desc];
                 Extractor.sd_href := Monitor.SCHEDULE_URL |} in
  let record := {| title := "Atropia"; screeningTime := "Jan 23 7:00 PM";
                   status := AVAILABLE; buttonText := "Order Tickets";
                   url := Monitor.SCHEDULE_URL |} in
  Extractor.extractTicketInfoScript page
  = [("Atropia_Jan 23 7:00 PM", record)]
  /\ Shape.normalTime (screeningTime record).
Proof.
  intros fav order desc page record.
  split; [reflexivity|].
  exact (proj1 (proj2 (proj2 (proj2
    (@extractTicketInfo_records page "Atropia_Jan 23 7:00 PM" record
       (or_introl eq_refl)))))).
Defined.

Section OverwriteFacts.

Import Extractor.

(** Descriptions that give other keys leave the entry of a key alone. *)
Lemma extractFrom_keeps (href : string) (k : string)
    (descs : list ScheduleDesc) :
  forall (index : nat) (tickets : ScheduleSnapshot),
    (forall j d t,
        nth_error descs j = Some d -> listedTitle d = Some t ->
        fst (entryOf href (index + j) d t) <> k) ->
    lookup (extractFrom href index descs tickets) k = lookup tickets k.
Proof.
  induction descs as [|desc rest IH]; intros index tickets Hother;
    [reflexivity|].
  rewrite extractFrom_cons, IH.
  - unfold after. destruct (listedTitle desc) as [t|] eqn:Ht; [|reflexivity].
    apply lookup_assign_other. intro Heq.
    apply (Hother O desc t eq_refl Ht). now rewrite Nat.add_0_r.
  - intros j d t Hj Ht. rewrite Nat.add_succ_l, <- Nat.add_succ_r.
    now apply (Hother (S j) d t).
Qed.

(** An entry of a snapshot does not emit against the snapshot itself. *)
Lemma emits_self (state : ScheduleSnapshot) (entry : string * ScreeningRecord) :
  NoDup (keys state) -> In entry state -> Differ.emits state entry = false.
Proof.
  destruct entry as [k r]. intros Hnd Hin.
  unfold Differ.emits, Differ.eventKind, get. simpl.
  rewrite (@lookup_in state k r Hnd Hin). now destruct (status r).
Qed.

Lemma filter_nothing (A : Type) (f : A -> bool) (l : list A) :
  (forall x, In x l -> f x = false) -> filter f l = [].
Proof.
  induction l as [|x rest IH]; intro Hnone; [reflexivity|].
  simpl. rewrite (Hnone x (or_introl eq_refl)).
  apply IH. intros y Hy. apply Hnone. now right.
Qed.

End OverwriteFacts.

(** X9.  When several descriptions of the page give the same key, the
    record of the last of them is the one returned under it: a listed
    description after which no description gives its key has its own
    record in the result. *)
Theorem extractTicketInfo_last_wins (page : Extractor.SchedulePage)
    (before : list Extractor.ScheduleDesc) (desc : Extractor.ScheduleDesc)
    (later : list Extractor.ScheduleDesc) (t : string) :
  let entry :=
    Extractor.entryOf (Extractor.sd_href page) (List.length before) desc t in
  Extractor.sd_descs page = (before ++ desc :: later)%list ->
  Extractor.listedTitle desc = Some t ->
  fst entry <> "__proto__" ->
  (forall j d t',
      nth_error later j = Some d -> Extractor.listedTitle d = Some t' ->
      fst (Extractor.entryOf (Extractor.sd_href page)
             (S (List.length before) + j) d t') <> fst entry) ->
  lookup (Extractor.extractTicketInfoScript page) (fst entry)
  = Some (snd entry).
Proof.
  intros entry Hdescs Ht Hproto Hlater.
  unfold Extractor.extractTicketInfoScript.
  rewrite Hdescs, extractFrom_app, extractFrom_cons. simpl plus.
  rewrite extractFrom_keeps by exact Hlater.
  unfold Extractor.after. rewrite Ht. fold entry. unfold Extractor.assign.
  destruct (String.eqb_spec (fst entry) "__proto__"); [contradiction|].
  apply lookup_define_same.
Qed.

(** X9 on a screening that the page lists twice, sold out first. *)
Lemma extractTicketInfo_last_wins_witness :
  let row label := Some [[{| Extractor.ab_className := "sd_btn";
                             Extractor.ab_textContent := label |}]] in
  let listed label := {| Extractor.sd_h3 := Some "Atropia";
                         Extractor.sd_date := Some "Jan 23 7:00 PM";
                         Extractor.sd_row := row label |} in
  let page := {| Extractor.sd_descs := [listed "Sold Out";
                                        listed "Order Tickets"];
                 Extractor.sd_href := Monitor.SCHEDULE_URL |} in
  lookup (Extractor.extractTicketInfoScript page) "Atropia_Jan 23 7:00 PM"
  = Some {| title := "Atropia"; screeningTime := "Jan 23 7:00 PM";
            status := AVAILABLE; buttonText := "Order Tickets";
            url := Monitor.SCHEDULE_URL |}.
Proof.
  intros row listed page.
  apply (@extractTicketInfo_last_wins page [listed "Sold Out"]
           (listed "Order Tickets") [] "Atropia" eq_refl eq_refl).
  - vm_compute. discriminate.
  - intros [|j] d t' Hj; discriminate.
Defined.

(** X10.  A snapshot compared with itself gives no change: once a cycle
    has stored what it has read, reading the same again reports nothing. *)
Theorem detectChanges_same_snapshot (state : ScheduleSnapshot) :
  NoDup (keys state) -> Differ.detectChanges state state = [].
Proof.
  intro Hnd. unfold Differ.detectChanges. rewrite fold_visit.
  unfold Differ.diff_spec. rewrite filter_nothing; [reflexivity|].
  intros entry Hin. now apply emits_self.
Qed.

(** X10 on a snapshot with an available and a sold out screening. *)
Lemma detectChanges_same_snapshot_witness :
  let screening (name : string) (st : Status) :=
    (name, {| title := name; screeningTime := "7:00 PM"; status := st;
              buttonText := "Order tickets"; url := "" |}) in
  Differ.detectChanges [screening "A" AVAILABLE; screening "B" SOLD_OUT]
    [screening "A" AVAILABLE; screening "B" SOLD_OUT]
  = [].
Proof.
  intro screening.
  apply (@detectChanges_same_snapshot
           [screening "A" AVAILABLE; screening "B" SOLD_OUT]).
  repeat constructor; simpl; intuition discriminate.
Defined.

(** X11.  What [extractTicketInfo] returns lists every key once, and two
    readings of the same page give no change between them. *)
Theorem extractTicketInfo_rescan_silent (page : Extractor.SchedulePage) :
  NoDup (keys (Extractor.extractTicketInfoScript page))
  /\ Differ.detectChanges (Extractor.extractTicketInfoScript page)
       (Extractor.extractTicketInfoScript page) = [].
Proof.
  pose proof (extractTicketInfoScript_nodup page) as Hnd.
  split; [exact Hnd|].
  unfold Differ.detectChanges. rewrite fold_visit.
  unfold Differ.diff_spec. rewrite filter_nothing; [reflexivity|].
  intros entry Hin. now apply emits_self.
Qed.

(** X12.  Every change that the differ reports on a reading of the schedule
    is of a kind that the auto-purchase block considers, and the
    configuration generated from the same page has a rule for it: the
    matcher finds a rule of the normalized title and time of the change. *)
Theorem generatedConfig_covers_changes (page : Extractor.SchedulePage)
    (previous : ScheduleSnapshot) (change : ChangeEvent) :
  In change
     (Differ.detectChanges previous (Extractor.extractTicketInfoScript page)) ->
  Monitor.isAvailability (ev_type change) = true
  /\ ev_status change = Some AVAILABLE
  /\ exists rule,
       Matcher.getFilmSettings (ev_title change)
         (Some (ev_screeningTime change))
         (Some (Generator.generatedConfig (Generator.scrapeScript page)))
       = Some rule
       /\ Matcher.ruleTitle rule
          = Matcher.normalizeTitle (Some (ev_title change))
       /\ Matcher.ruleTime rule
          = Matcher.queryTime (Some (ev_screeningTime change)).
Proof.
  intro Hin. unfold Differ.detectChanges in Hin.
  rewrite fold_visit in Hin. simpl in Hin. unfold Differ.diff_spec in Hin.
  apply in_map_iff in Hin as ([k r] & <- & Hentry).
  apply filter_In in Hentry as [Hentry Hemits].
  unfold Differ.emits, Differ.eventOf, Differ.eventKind in *. simpl in *.
  assert (Hkind : Monitor.isAvailability
                    match
                      match get previous k, status r with
                      | Undefined, AVAILABLE => Some NEW_AVAILABLE
                      | Own p, AVAILABLE =>
                          match status p with
                          | SOLD_OUT => Some NOW_AVAILABLE
                          | _ => None
                          end
                      | _, _ => None
                      end
                    with
                    | Some t => t
                    | None => NEW_AVAILABLE
                    end = true
                  /\ status r = AVAILABLE).
  { destruct (get previous k) as [p| |]; destruct (status r);
      try discriminate; try destruct (status p); try discriminate;
      split; reflexivity. }
  destruct Hkind as [Hkind Hstatus].
  split; [exact Hkind|]. split; [now rewrite Hstatus|].
  unfold Extractor.extractTicketInfoScript in Hentry.
  apply extractFrom_in in Hentry as [[]|(j & desc & t & Hj & Ht & He)].
  pose proof (entryOf_record (Extractor.sd_href page) (0 + j) desc t)
    as (Htitle & Htime & _).
  rewrite <- He in Htitle, Htime. simpl in Htitle, Htime.
  set (rule := {| f_title := title r; f_screeningTime := Some (screeningTime r);
                  f_autoPurchase := false |}).
  assert (Hrule : In rule (Generator.filmsOf (Generator.scrapeScript page))).
  { unfold Generator.filmsOf. apply in_map_iff.
    exists (title r, screeningTime r). split; [reflexivity|].
    unfold Generator.scrapeScript. apply in_flat_map.
    exists desc. split; [eapply nth_error_In; eauto|].
    rewrite Ht, Htitle, Htime. now left. }
  unfold Matcher.getFilmSettings. cbn [Generator.generatedConfig films].
  set (nTitle := Matcher.normalizeTitle (Some (title r))).
  set (nTime := Matcher.normalizeTitle
                  (Some (Js.orString (Some (screeningTime r)) ""))).
  destruct (find (Matcher.exactMatch nTitle nTime)
              (Generator.filmsOf (Generator.scrapeScript page)))
    as [found|] eqn:Hfind.
  - exists found. apply find_some in Hfind as [_ Hm].
    apply exactMatch_iff in Hm as [H1 H2]. auto.
  - pose proof (find_none _ _ Hfind rule Hrule) as Hno.
    unfold Matcher.exactMatch, rule in Hno. cbn [f_title f_screeningTime] in Hno.
    fold nTitle nTime in Hno. now rewrite !String.eqb_refl in Hno.
Qed.

(** X12 on the first reading of a page with one screening to order. *)
Lemma generatedConfig_covers_changes_witness :
  let order := {| Extractor.ab_className := "sd_btn";
                  Extractor.ab_textContent := "Order Tickets" |} in
  let desc := {| Extractor.sd_h3 := Some "Atropia";
                 Extractor.sd_date := Some "Jan 23 7:00 PM";
                 Extractor.sd_row := Some [[order]] |} in
  let page := {| Extractor.sd_descs := [desc];
                 Extractor.sd_href := Monitor.SCHEDULE_URL |} in
  let change := {| ev_type := NEW_AVAILABLE; ev_title := "Atropia";
                   ev_screeningTime := "Jan 23 7:00 PM";
                   ev_status := Some AVAILABLE;
                   ev_buttonText := "Order Tickets";
                   ev_url := Monitor.SCHEDULE_URL |} in
  Monitor.isAvailability (ev_type change) = true
  /\ ev_status change = Some AVAILABLE
  /\ exists rule,
       Matcher.getFilmSettings "Atropia" (Some "Jan 23 7:00 PM")
         (Some (Generator.generatedConfig (Generator.scrapeScript page)))
       = Some rule
       /\ Matcher.ruleTitle rule = Matcher.normalizeTitle (Some "Atropia")
       /\ Matcher.ruleTime rule
          = Matcher.queryTime (Some "Jan 23 7:00 PM").
Proof.
  intros order desc page change.
  exact (@generatedConfig_covers_changes page [] change (or_introl eq_refl)).
Defined.

(* ================================================================== *)
(** * What the engine returns *)
(* ================================================================== *)

Section Yields.

Import Runtime Outcomes.

Variable E : Env.













End Yields.


(* ================================================================== *)
(** * Checks that let no exception out, and the end of a wait *)
(* ================================================================== *)

Section QuietChecks.

Import Runtime Observe.

Variable E : Env.







(** A poll that gives up has reached its deadline. *)
Lemma pollContexts_gives_up (page : Page) (patterns : list string)
    (label : string) (waitMs deadline : Z) :
  forall (fuel : nat) (s s' : St E),
    Engine.pollContexts fuel page patterns label waitMs deadline s
    = (s', Ret false) ->
    deadline <= now E (world s').
Proof.
  induction fuel as [|fuel IH]; intros s s' Hrun; [discriminate|].
  cbn [Engine.pollContexts] in Hrun.
  apply bind_inv in Hrun as [(s1 & ctxs & H1 & Hrun)|[(e & _ & H)|[_ H]]];
    try discriminate.
  apply bind_inv in Hrun as [(s2 & done & H2 & Hrun)|[(e & _ & H)|[_ H]]];
    try discriminate.
  destruct done.
  - apply bind_inv in Hrun as [(s3 & [] & H3 & Hrun)|[(e & _ & H)|[_ H]]];
      discriminate.
  - apply bind_inv in Hrun as [(s3 & t & H3 & Hrun)|[(e & _ & H)|[_ H]]];
      try discriminate.
    unfold dateNow in H3. inversion H3; subst s3 t; clear H3.
    destruct (deadline <=? now E (world s2)) eqn:Hd.
    + inversion Hrun; subst. now apply Z.leb_le.
    + apply bind_inv in Hrun
        as [(s3 & [] & H3 & Hrun)|[(e & _ & H)|[_ H]]]; try discriminate.
      apply (IH _ _ Hrun).
Qed.

End QuietChecks.


(** X15.  [clickFirstMatchingAnyContext] gives up only when the time to
    wait has passed: when it returns [false], the clock stands at the time
    of the call plus [waitMs] or later. *)
Theorem clickFirstMatchingAnyContext_waits (E : Runtime.Env) (fuel : nat)
    (page : Runtime.Page) (patterns : list string) (label : string)
    (optionsWaitMs : option Z) (s s' : Runtime.St E) :
  Engine.clickFirstMatchingAnyContext fuel page patterns label optionsWaitMs s
  = (s', Runtime.Ret false) ->
  Runtime.now E (Runtime.world s) + Js.orZ optionsWaitMs 0
  <= Runtime.now E (Runtime.world s').
Proof.
  unfold Engine.clickFirstMatchingAnyContext. intro Hrun.
  apply bind_inv in Hrun as [(s1 & t & H1 & Hrun)|[(e & _ & H)|[_ H]]];
    try discriminate.
  unfold Runtime.dateNow in H1. inversion H1; subst s1 t; clear H1.
  now apply pollContexts_gives_up in Hrun.
Qed.

(** X15 on a page without the control, with a wait of a second. *)
Lemma clickFirstMatchingAnyContext_waits_witness :
  let run :=
    Engine.clickFirstMatchingAnyContext 40 O
      Engine.TEXT_PATTERNS_buyAdditional "Buy additional tickets" (Some 1000)
      Still.start in
  snd run = Runtime.Ret false
  /\ 0 + 1000 <= Runtime.now Still.env (Runtime.world (fst run)).
Proof.
  intro run.
  assert (Hrun : run = (fst run, Runtime.Ret false))
    by (vm_compute; reflexivity).
  split; [now rewrite Hrun|].
  exact (@clickFirstMatchingAnyContext_waits Still.env 40 O
           Engine.TEXT_PATTERNS_buyAdditional "Buy additional tickets"
           (Some 1000) Still.start (fst run) Hrun).
Defined.

(* ================================================================== *)
(** * Properties of the page scripts *)
(* ================================================================== *)

Section ScriptFacts.

Import Dom.

Lemma findIndex_some {A : Type} (p : A -> bool) (l : list A) :
  forall (i : nat) (x : A),
    findIndex p l = Some (i, x) ->
    nth_error l i = Some x /\ p x = true
    /\ forall j y, (j < i)%nat -> nth_error l j = Some y -> p y = false.
Proof.
  induction l as [|a r IH]; intros i x; simpl; [discriminate|].
  destruct (p a) eqn:Ha.
  - intros [= <- <-]. repeat split; auto. intros j y Hj. inversion Hj.
  - destruct (findIndex p r) as [[i' y']|]; [|discriminate].
    intros [= <- <-]. destruct (IH i' y' eq_refl) as (Hn & Hp & Hbefore).
    repeat split; auto.
    intros [|j] y Hj; simpl; [now intros [= <-]|].
    apply Hbefore. now apply Nat.succ_lt_mono.
Qed.

Lemma findIndex_none_inv {A : Type} (p : A -> bool) (l : list A) :
  findIndex p l = None -> forall x, In x l -> p x = false.
Proof.
  induction l as [|a r IH]; simpl; [intros _ x []|].
  destruct (p a) eqn:Ha; [discriminate|].
  destruct (findIndex p r) as [[i y]|]; [discriminate|].
  intros _ x [<-|Hx]; auto.
Qed.

Lemma findIndex_found {A : Type} (p : A -> bool) (l : list A) (x : A) :
  In x l -> p x = true -> findIndex p l <> None.
Proof.
  intros Hin Hp Hnone.
  rewrite (findIndex_none_inv _ _ Hnone x Hin) in Hp. discriminate.
Qed.

Lemma findIndex_setNth {A : Type} (p : A -> bool) (x' : A) (l : list A) :
  forall (i : nat) (x : A),
    findIndex p l = Some (i, x) -> p x' = true ->
    findIndex p (setNth i x' l) = Some (i, x').
Proof.
  induction l as [|a r IH]; intros i x; simpl; [discriminate|].
  destruct (p a) eqn:Ha.
  - intros [= <- <-] Hx. simpl. now rewrite Hx.
  - destruct (findIndex p r) as [[i' y']|] eqn:Hr; [|discriminate].
    intros [= <- <-] Hx. simpl. rewrite Ha.
    now rewrite (IH i' y' eq_refl Hx).
Qed.

Lemma nth_error_setNth {A : Type} (x' : A) (l : list A) :
  forall (i : nat) (x : A),
    nth_error l i = Some x -> nth_error (setNth i x' l) i = Some x'.
Proof.
  induction l as [|a r IH]; intros [|i] x; simpl; try discriminate; auto.
  apply IH.
Qed.

Lemma degrade_found (options : list OptionEl) (o : OptionEl) (q : Z) :
  forall n : nat,
    degrade options n = Some (o, q) ->
    In o options /\ offers q o = true /\ 1 <= q <= Z.of_nat n.
Proof.
  induction n as [|m IH]; [discriminate|]. cbn [degrade].
  destruct (find (offers (Z.of_nat (S m))) options) as [o'|] eqn:Hfind.
  - intros [= <- <-]. apply find_some in Hfind as [Hin Ho].
    repeat split; auto; lia.
  - intro H. destruct (IH H) as (Hin & Ho & Hq). repeat split; auto; lia.
Qed.

Lemma quantityInput_some (desired : Z) (count : nat) (i : NumberInput)
    (qty : Z) :
  quantityInput desired count i = Some qty ->
  in_disabled i = false /\ 1 <= qty <= desired.
Proof.
  unfold quantityInput.
  destruct (_ && _ && _); [discriminate|].
  destruct (_ || _ || _); [|discriminate].
  destruct (in_disabled i); [discriminate|].
  unfold actualQty.
  destruct (in_max i =? "")%string.
  - simpl. destruct (Z.leb_spec 1 desired); [|discriminate].
    intros [= <-]. split; [reflexivity | lia].
  - destruct (parseInt (in_max i)) as [m|]; simpl; [|discriminate].
    destruct (Z.leb_spec 1 (Z.min desired m)); [|discriminate].
    intros [= <-]. split; [reflexivity | lia].
Qed.

Lemma firstQuantityInput_some (desired : Z) (count : nat)
    (inputs : list NumberInput) :
  forall (index i : nat) (input : NumberInput) (qty : Z),
    firstQuantityInput desired count index inputs = Some (i, input, qty) ->
    (index <= i)%nat
    /\ nth_error inputs (i - index) = Some input
    /\ in_disabled input = false /\ 1 <= qty <= desired.
Proof.
  induction inputs as [|a rest IH]; intros index i input qty; simpl;
    [discriminate|].
  destruct (quantityInput desired count a) as [q|] eqn:Hq.
  - intros [= <- <- <-]. rewrite Nat.sub_diag.
    destruct (quantityInput_some _ _ _ Hq) as [Hd [Hlow Hhigh]].
    repeat split; auto.
  - intro H. destruct (IH _ _ _ _ H) as (Hle & Hn & Hd & Hlow & Hhigh).
    repeat split; auto; [lia|].
    replace (i - index)%nat with (S (i - S index)) by lia. exact Hn.
Qed.

Lemma checkBoxes_boxes (boxes : list Checkbox) :
  forall index,
    fst (checkBoxes index boxes)
    = map (fun box => if toCheck box then check box else box) boxes.
Proof.
  induction boxes as [|box rest IH]; intro index; simpl; [reflexivity|].
  specialize (IH (S index)).
  destruct (checkBoxes (S index) rest) as [rest' clicks]. simpl in IH.
  destruct (toCheck box); simpl; now rewrite IH.
Qed.

Lemma checkBoxes_quiet (boxes : list Checkbox) :
  forall index,
    existsb toCheck boxes = false -> checkBoxes index boxes = (boxes, []).
Proof.
  induction boxes as [|box rest IH]; intros index H; simpl; [reflexivity|].
  simpl in H. apply orb_false_elim in H as [Hbox Hrest].
  now rewrite (IH (S index) Hrest), Hbox.
Qed.

Lemma toCheck_settled (boxes : list Checkbox) :
  existsb toCheck
    (map (fun box => if toCheck box then check box else box) boxes) = false.
Proof.
  induction boxes as [|box rest IH]; simpl; [reflexivity|].
  rewrite IH, orb_false_r.
  destruct (toCheck box) eqn:Hbox; [|exact Hbox].
  unfold toCheck, check. simpl. now rewrite andb_false_r.
Qed.

End ScriptFacts.

(** X16.  For a quantity of at least one, the quantity script either fails
    and leaves the document as it was, or sets a quantity between one and
    the desired one on a single control: on the first quantity select,
    whose value becomes the value of one of its options that offers that
    quantity, with one [change] event, or, when the page has no quantity
    select, on a number input that is not disabled, whose value becomes the
    decimal numeral of that quantity, with one [input] and one [change]
    event.  The other properties of the control and the rest of the
    document stay as they were, and a page with a quantity select never
    has a number input written. *)
Theorem setTicketQuantityScript_outcome (desired : Z) (d : Dom.Document) :
  let out := Dom.setTicketQuantityScript desired d in
  let withEvents (selects : list Dom.SelectEl)
      (inputs : list Dom.NumberInput) (es : list Dom.DomEvent) :=
    {| Dom.selects := selects; Dom.numberInputs := inputs;
       Dom.checkboxes := Dom.checkboxes d; Dom.radios := Dom.radios d;
       Dom.modalText := Dom.modalText d; Dom.filmDescs := Dom.filmDescs d;
       Dom.elements := Dom.elements d; Dom.buttonTexts := Dom.buttonTexts d;
       Dom.events := (Dom.events d ++ es)%list |} in
  1 <= desired ->
  (Dom.q_success (snd out) = false ->
   fst out = d /\ Dom.q_quantity (snd out) = None)
  /\ (Dom.q_success (snd out) = true ->
      exists q,
        Dom.q_quantity (snd out) = Some q /\ 1 <= q <= desired
        /\ ((exists i s o,
                Dom.findIndex Dom.isQuantitySelect (Dom.selects d)
                = Some (i, s)
                /\ nth_error (Dom.selects d) i = Some s
                /\ In o (Dom.sel_options s) /\ Dom.offers q o = true
                /\ fst out
                   = withEvents
                       (Dom.setNth i
                          {| Dom.sel_id := Dom.sel_id s;
                             Dom.sel_name := Dom.sel_name s;
                             Dom.sel_className := Dom.sel_className s;
                             Dom.sel_options := Dom.sel_options s;
                             Dom.sel_value := Dom.opt_value o |}
                          (Dom.selects d))
                       (Dom.numberInputs d) [Dom.SelectChanged i]
                /\ (exists s',
                      nth_error (Dom.selects (fst out)) i = Some s'
                      /\ Dom.sel_value s' = Dom.opt_value o))
            \/ (exists i input,
                   Dom.findIndex Dom.isQuantitySelect (Dom.selects d) = None
                   /\ nth_error (Dom.numberInputs d) i = Some input
                   /\ Dom.in_disabled input = false
                   /\ fst out
                      = withEvents (Dom.selects d)
                          (Dom.setNth i
                             {| Dom.in_id := Dom.in_id input;
                                Dom.in_name := Dom.in_name input;
                                Dom.in_disabled := Dom.in_disabled input;
                                Dom.in_max := Dom.in_max input;
                                Dom.in_value := Js.ofZ q |}
                             (Dom.numberInputs d))
                          [Dom.InputInput i; Dom.InputChanged i]
                   /\ (exists input',
                         nth_error (Dom.numberInputs (fst out)) i
                         = Some input'
                         /\ Dom.in_value input' = Js.ofZ q))))
  /\ (Dom.findIndex Dom.isQuantitySelect (Dom.selects d) <> None ->
      Dom.numberInputs (fst out) = Dom.numberInputs d).
Proof.
  intros out withEvents Hdesired. subst out withEvents.
  unfold Dom.setTicketQuantityScript.
  destruct (Dom.findIndex Dom.isQuantitySelect (Dom.selects d))
    as [[i s]|] eqn:Hselect.
  - pose proof (findIndex_some _ _ Hselect) as Hat.
    unfold Dom.pickQuantity.
    destruct (find (Dom.offers desired) (Dom.sel_options s)) as [o|] eqn:Ho.
    + apply find_some in Ho as [Hin Hoffers]. simpl.
      split; [discriminate|]. split; [|reflexivity].
      intros _. exists desired. split; [reflexivity|]. split; [lia|].
      left. exists i, s, o. repeat split; try tauto.
      eexists. split; [eapply nth_error_setNth; apply (proj1 Hat) | reflexivity].
    + destruct (Dom.degrade (Dom.sel_options s) (Z.to_nat (desired - 1)))
        as [[o q]|] eqn:Hdegrade; simpl.
      * apply degrade_found in Hdegrade as (Hin & Hoffers & Hq).
        split; [discriminate|]. split; [|reflexivity].
        intros _. exists q. split; [reflexivity|]. split; [lia|].
        left. exists i, s, o. repeat split; try tauto.
        eexists. split; [eapply nth_error_setNth; apply (proj1 Hat) | reflexivity].
      * split; [auto|]. split; [discriminate | reflexivity].
  - destruct (Dom.firstQuantityInput desired
                (List.length (Dom.numberInputs d)) 0 (Dom.numberInputs d))
      as [[[i input] q]|] eqn:Hinput; simpl.
    + apply firstQuantityInput_some in Hinput as (_ & Hn & Hd & Hq).
      rewrite Nat.sub_0_r in Hn.
      split; [discriminate|]. split; [|intro H; now destruct H].
      intros _. exists q. split; [reflexivity|]. split; [exact Hq|].
      right. exists i, input. repeat split; try tauto.
      eexists. split; [eapply nth_error_setNth; exact Hn | reflexivity].
    + split; [auto|]. split; [discriminate | intro H; now destruct H].
Qed.

(** X16 on a select that offers one and two tickets when three are
    asked for, beside a number input. *)
Lemma setTicketQuantityScript_outcome_witness :
  let option value := {| Dom.opt_value := value;
                         Dom.opt_textContent := value |} in
  let select := {| Dom.sel_id := "ticketQuantity"; Dom.sel_name := "";
                   Dom.sel_className := "";
                   Dom.sel_options := [option "1"; option "2"];
                   Dom.sel_value := "1" |} in
  let input := {| Dom.in_id := "quantity"; Dom.in_name := "";
                  Dom.in_disabled := false; Dom.in_max := "";
                  Dom.in_value := "1" |} in
  let d := Dom.setNumberInputs (Dom.setSelects Dom.emptyDocument [select])
             [input] in
  Dom.q_quantity (snd (Dom.setTicketQuantityScript 3 d)) = Some 2
  /\ Dom.numberInputs (fst (Dom.setTicketQuantityScript 3 d)) = [input].
Proof.
  intros option select input d.
  split; [reflexivity|].
  apply (proj2 (proj2 (@setTicketQuantityScript_outcome 3 d
                         ltac:(discriminate)))).
  discriminate.
Defined.

(** [parseInt] on the values a [max] attribute can hold, and the number
    input whose [max] is written in hexadecimal: the quantity set is the
    lesser of 20 and 16. *)
Example parseInt_values :
  Dom.parseInt "10" = Some 10
  /\ Dom.parseInt "  4 tickets" = Some 4
  /\ Dom.parseInt "0x10" = Some 16
  /\ Dom.parseInt "-0XfF" = Some (-255)
  /\ Dom.parseInt "0x" = None
  /\ Dom.parseInt "08" = Some 8
  /\ Dom.parseInt "many" = None
  /\ (let input := {| Dom.in_id := "quantity"; Dom.in_name := "";
                      Dom.in_disabled := false; Dom.in_max := "0x10";
                      Dom.in_value := "1" |} in
      Dom.setTicketQuantityScript 20
        (Dom.setNumberInputs Dom.emptyDocument [input])
      = (Dom.dispatch
           (Dom.setNumberInputs Dom.emptyDocument
              [{| Dom.in_id := "quantity"; Dom.in_name := "";
                  Dom.in_disabled := false; Dom.in_max := "0x10";
                  Dom.in_value := "16" |}])
           [Dom.InputInput 0; Dom.InputChanged 0],
         {| Dom.q_success := true; Dom.q_quantity := Some 16 |})).
Proof. vm_compute. repeat split. Qed.

(** X17.  The terms script checks boxes and never unchecks one, leaves
    disabled boxes alone, and is done in one pass: run again on the
    document it has left, it clicks nothing and reports [false]. *)
Theorem checkTermsCheckboxesScript_settles (d : Dom.Document) :
  let out := Dom.checkTermsCheckboxesScript d in
  Dom.checkTermsCheckboxesScript (fst out) = (fst out, false)
  /\ Dom.checkboxes (fst out)
     = map (fun box => if Dom.toCheck box then Dom.check box else box)
           (Dom.checkboxes d)
  /\ (forall i box,
        nth_error (Dom.checkboxes d) i = Some box ->
        exists box',
          nth_error (Dom.checkboxes (fst out)) i = Some box'
          /\ (Dom.cb_checked box = true -> box' = box)
          /\ (Dom.cb_disabled box = true -> box' = box)
          /\ Dom.cb_disabled box' = Dom.cb_disabled box)
  /\ (snd out = false -> Dom.events (fst out) = Dom.events d).
Proof.
  intro out. subst out. unfold Dom.checkTermsCheckboxesScript.
  pose proof (checkBoxes_boxes (Dom.checkboxes d) 0) as Hboxes.
  pose proof (@checkBoxes_quiet (Dom.checkboxes d) 0) as Hquiet.
  destruct (Dom.checkBoxes 0 (Dom.checkboxes d)) as [boxes clicks].
  simpl in Hboxes. subst boxes. simpl.
  split; [|split; [reflexivity|split]].
  - rewrite checkBoxes_quiet by apply toCheck_settled.
    rewrite toCheck_settled. unfold Dom.dispatch, Dom.setCheckboxes. simpl.
    now rewrite app_nil_r.
  - intros i box Hbox.
    exists (if Dom.toCheck box then Dom.check box else box).
    split;
      [exact (map_nth_error
                (fun box => if Dom.toCheck box then Dom.check box else box)
                i (Dom.checkboxes d) Hbox)|].
    destruct (Dom.toCheck box) eqn:Hto; [|auto].
    unfold Dom.toCheck in Hto.
    apply andb_prop in Hto as [Hto Hunchecked].
    apply andb_prop in Hto as [Henabled _].
    apply negb_true_iff in Hunchecked, Henabled.
    repeat split; [congruence | congruence].
  - intro Hnone. specialize (Hquiet Hnone). injection Hquiet as _ ->.
    apply app_nil_r.
Qed.

(** X18.  The saved-payment script reports [true] exactly when the page
    has an enabled radio button whose label names a card; it clicks at
    most the first of these, and run again on the document it has left it
    reports the same and changes nothing. *)
Theorem selectSavedPaymentScript_settles (d : Dom.Document) :
  let out := Dom.selectSavedPaymentScript d in
  Dom.selectSavedPaymentScript (fst out) = (fst out, snd out)
  /\ (snd out = true
      <-> exists r, In r (Dom.radios d) /\ Dom.isSavedCard r = true)
  /\ (fst out = d
      \/ exists i r,
           Dom.findIndex Dom.isSavedCard (Dom.radios d) = Some (i, r)
           /\ Dom.rd_checked r = false
           /\ fst out
              = Dom.dispatch
                  (Dom.setRadios d (Dom.setNth i (Dom.pick r) (Dom.radios d)))
                  [Dom.RadioClicked i]).
Proof.
  intro out. subst out. unfold Dom.selectSavedPaymentScript.
  destruct (Dom.findIndex Dom.isSavedCard (Dom.radios d)) as [[i r]|] eqn:Hr.
  - destruct (findIndex_some _ _ Hr) as (Hnth & Hcard & _).
    destruct (Dom.rd_checked r) eqn:Hchecked; simpl.
    + rewrite Hr, Hchecked. split; [reflexivity|]. split; [|now left].
      split; [|reflexivity]. intros _. exists r.
      split; [eapply nth_error_In; eauto | exact Hcard].
    + rewrite (findIndex_setNth _ (Dom.pick r) _ Hr) by exact Hcard.
      simpl. split; [reflexivity|]. split.
      * split; [|reflexivity]. intros _. exists r.
        split; [eapply nth_error_In; eauto | exact Hcard].
      * right. now exists i, r.
  - simpl. rewrite Hr. split; [reflexivity|]. split; [|now left].
    split; [discriminate|]. intros (r & Hin & Hcard).
    now rewrite (findIndex_none_inv _ _ Hr r Hin) in Hcard.
Qed.

(* ================================================================== *)
(** * Slugs and sold-out labels *)
(* ================================================================== *)

Section SlugFacts.

Import Js Shape Engine.

Lemma dropDashes_eq (c : ascii) (r : string) :
  dropDashes (String c r)
  = if Ascii.eqb c "-" then dropDashes r else String c r.
Proof. destruct c as [[] [] [] [] [] [] [] []]; reflexivity. Qed.

Lemma dashRuns_chars (s : string) :
  forall inRun, allChars slugChar (dashRuns inRun s) = true.
Proof.
  induction s as [|c r IH]; intro inRun; [reflexivity|].
  cbn [dashRuns]. destruct (isAlnum c) eqn:Hc.
  - cbn [allChars]. unfold slugChar at 1. now rewrite Hc, IH.
  - destruct inRun; [apply IH|]. cbn [allChars]. now rewrite IH.
Qed.

Lemma dropDashes_chars (p : ascii -> bool) (s : string) :
  allChars p s = true -> allChars p (dropDashes s) = true.
Proof.
  induction s as [|c r IH]; [auto|]. rewrite dropDashes_eq.
  cbn [allChars]. intro H. apply andb_prop in H as [Hc Hr].
  destruct (Ascii.eqb c "-"); [now apply IH|].
  cbn [allChars]. now rewrite Hc, Hr.
Qed.

Lemma dropDashes_head (s : string) : noLeadingDash (dropDashes s).
Proof.
  induction s as [|c r IH]; [exact I|]. rewrite dropDashes_eq.
  destruct (Ascii.eqb c "-") eqn:Hc; [exact IH | exact Hc].
Qed.

Lemma dropEndDashes_chars (p : ascii -> bool) (s : string) :
  allChars p s = true -> allChars p (dropEndDashes s) = true.
Proof.
  induction s as [|c r IH]; [auto|]. cbn [allChars dropEndDashes].
  intro H. apply andb_prop in H as [Hc Hr]. specialize (IH Hr).
  destruct (dropEndDashes r) as [|c' r'].
  - destruct (Ascii.eqb c "-"); [reflexivity|]. cbn [allChars].
    now rewrite Hc.
  - cbn [allChars] in *. now rewrite Hc, IH.
Qed.

Lemma dropEndDashes_head (s : string) :
  noLeadingDash s -> noLeadingDash (dropEndDashes s).
Proof.
  destruct s as [|c r]; [auto|]. cbn [dropEndDashes noLeadingDash].
  intro Hc. destruct (dropEndDashes r); [now rewrite Hc | exact Hc].
Qed.

Lemma substring_chars (p : ascii -> bool) (s : string) :
  forall n m, allChars p s = true -> allChars p (substring n m s) = true.
Proof.
  induction s as [|c r IH]; intros [|n] [|m] H; simpl; auto;
    cbn [allChars] in H; apply andb_prop in H as [Hc Hr]; auto.
  cbn [allChars]. now rewrite Hc, IH.
Qed.

Lemma substring_length (s : string) :
  forall m, (String.length (substring 0 m s) <= m)%nat.
Proof.
  induction s as [|c r IH]; intros [|m]; simpl; auto with arith.
Qed.

Lemma substring_head (s : string) (m : nat) :
  noLeadingDash s -> noLeadingDash (substring 0 m s).
Proof. destruct s as [|c r]; destruct m; simpl; auto. Qed.

Lemma substring_whole (s : string) :
  forall m, (String.length s <= m)%nat -> substring 0 m s = s.
Proof.
  induction s as [|c r IH]; intros [|m] H; simpl in *; auto.
  - inversion H.
  - f_equal. apply IH. now apply Nat.succ_le_mono.
Qed.

(** A string is white space followed by what [trimStart] leaves. *)
Lemma trimStart_split (s : string) :
  exists gap, s = gap ++ trimStart s /\ allSpaces gap = true.
Proof.
  induction s as [|c r IH]; [now exists ""|]. cbn [trimStart].
  destruct (isSpace c) eqn:Hc.
  - destruct IH as (gap & Hr & Hgap). exists (String c gap). simpl.
    rewrite Hc, Hgap. split; [now rewrite <- Hr | reflexivity].
  - now exists "".
Qed.

(** [sold\s*out] at the start of the string. *)
Lemma soldOut_here (s : string) :
  String.prefix "sold" s
  && String.prefix "out" (trimStart (substring 4 (String.length s) s)) = true
  <-> exists gap rest,
        s = "sold" ++ gap ++ "out" ++ rest /\ allSpaces gap = true.
Proof.
  split.
  - intro H. apply andb_prop in H as [Hsold Hout].
    apply prefix_split in Hsold as [tail ->].
    change (substring 4 (String.length ("sold" ++ tail)) ("sold" ++ tail))
      with (substring 0 (4 + String.length tail) tail) in Hout.
    rewrite substring_whole in Hout by auto with arith.
    apply prefix_split in Hout as [rest Hrest].
    destruct (trimStart_split tail) as (gap & Htail & Hgap).
    exists gap, rest. split; [|exact Hgap].
    rewrite Htail at 1. now rewrite Hrest.
  - intros (gap & rest & -> & Hgap).
    change (substring 4 (String.length ("sold" ++ gap ++ "out" ++ rest))
              ("sold" ++ gap ++ "out" ++ rest))
      with (substring 0 (4 + String.length (gap ++ "out" ++ rest))
              (gap ++ "out" ++ rest)).
    rewrite substring_whole by auto with arith.
    rewrite trimStart_padded by exact Hgap.
    rewrite prefix_append. cbn [andb].
    replace (trimStart ("out" ++ rest)) with ("out" ++ rest) by reflexivity.
    apply prefix_append.
Qed.

Lemma soldOutAt_step (c : ascii) (r : string) :
  soldOutAt (String c r)
  = (String.prefix "sold" (String c r)
     && String.prefix "out"
          (trimStart (substring 4 (String.length (String c r)) (String c r))))
    || soldOutAt r.
Proof. reflexivity. Qed.

End SlugFacts.

(** X19.  A slug holds nothing but lower-case letters, digits and dashes,
    has at most 48 characters and does not start with a dash; so the name
    of a screenshot file has no path separator from the title. *)
Theorem slugify_shape (title : string) :
  Shape.allChars Shape.slugChar (Engine.slugify title) = true
  /\ (String.length (Engine.slugify title) <= 48)%nat
  /\ Shape.noLeadingDash (Engine.slugify title).
Proof.
  unfold Engine.slugify. split; [|split].
  - apply substring_chars, dropEndDashes_chars, dropDashes_chars,
      dashRuns_chars.
  - apply substring_length.
  - apply substring_head, dropEndDashes_head, dropDashes_head.
Qed.

(** X20.  A label counts as sold out exactly when, in lower case, it holds
    "sold" and then "out" with nothing but white space between the two. *)
Theorem isSoldOut_iff (text : string) :
  Engine.isSoldOut text = true
  <-> exists before gap rest,
        Js.toLowerCase text = before ++ "sold" ++ gap ++ "out" ++ rest
        /\ Shape.allSpaces gap = true.
Proof.
  unfold Engine.isSoldOut. generalize (Js.toLowerCase text) as lower.
  induction lower as [|c r IH].
  - split.
    + intro H. discriminate H.
    + intros (before & gap & rest & H & _).
      destruct before; discriminate H.
  - rewrite soldOutAt_step, orb_true_iff, soldOut_here, IH. split.
    + intros [(gap & rest & H & Hgap)|(before & gap & rest & H & Hgap)].
      * now exists EmptyString, gap, rest.
      * exists (String c before), gap, rest. subst r.
        split; [reflexivity | exact Hgap].
    + intros (before & gap & rest & H & Hgap).
      destruct before as [|b before]; simpl in H.
      * left. now exists gap, rest.
      * injection H as _ H. right. now exists before, gap, rest.
Qed.

(* ================================================================== *)
(** * The console is written, never read *)
(* ================================================================== *)

Section WriteOnly.

Import Runtime Outcomes.

Variable E : Env.

Lemma wo_ret {A : Type} (a : A) : writeOnly (@ret E A a).
Proof.
  intro w. exists w, [], (Ret a). intro c. unfold ret.
  now rewrite app_nil_r.
Qed.

Lemma wo_throw {A : Type} (e : Exn) : writeOnly (@throw E A e).
Proof.
  intro w. exists w, [], (Throw e). intro c. unfold throw.
  now rewrite app_nil_r.
Qed.

Lemma wo_spin {A : Type} : writeOnly (@spin E A).
Proof.
  intro w. exists w, [], Spin. intro c. unfold spin. now rewrite app_nil_r.
Qed.

Lemma wo_read {A : Type} (f : World E -> A) :
  writeOnly (fun s : St E => (s, Ret (f (world s)))).
Proof.
  intro w. exists w, [], (Ret (f w)). intro c. simpl. now rewrite app_nil_r.
Qed.

Lemma wo_perform {A : Type} (op : Op A) : writeOnly (@perform E A op).
Proof.
  intro w. destruct (call E op w) as [w' r] eqn:Hcall.
  exists w', [], (match r with inl e => Throw e | inr a => Ret a end).
  intro c. unfold perform. simpl. rewrite Hcall. now rewrite app_nil_r.
Qed.

Lemma wo_log (line : Log) : writeOnly (@log E line).
Proof. intro w. exists w, [line], (Ret tt). intro c. reflexivity. Qed.

Lemma wo_tryThen {A B : Type} (m : M E A) (h : Exn -> M E B)
    (k : A -> M E B) :
  writeOnly m -> (forall e, writeOnly (h e)) -> (forall a, writeOnly (k a)) ->
  writeOnly (tryThen m h k).
Proof.
  intros Hm Hh Hk w. destruct (Hm w) as (w1 & l1 & [a|e|] & H1).
  - destruct (Hk a w1) as (w2 & l2 & o2 & H2).
    exists w2, (l1 ++ l2)%list, o2. intro c. unfold tryThen.
    now rewrite H1, H2, app_assoc.
  - destruct (Hh e w1) as (w2 & l2 & o2 & H2).
    exists w2, (l1 ++ l2)%list, o2. intro c. unfold tryThen.
    now rewrite H1, H2, app_assoc.
  - exists w1, l1, Spin. intro c. unfold tryThen. now rewrite H1.
Qed.

Lemma wo_bind {A B : Type} (m : M E A) (k : A -> M E B) :
  writeOnly m -> (forall a, writeOnly (k a)) -> writeOnly (bind m k).
Proof.
  intros Hm Hk w. destruct (Hm w) as (w1 & l1 & [a|e|] & H1).
  - destruct (Hk a w1) as (w2 & l2 & o2 & H2).
    exists w2, (l1 ++ l2)%list, o2. intro c. unfold bind.
    now rewrite H1, H2, app_assoc.
  - exists w1, l1, (Throw e). intro c. unfold bind. now rewrite H1.
  - exists w1, l1, Spin. intro c. unfold bind. now rewrite H1.
Qed.

Lemma wo_tryCatch {A : Type} (m : M E A) (h : Exn -> M E A) :
  writeOnly m -> (forall e, writeOnly (h e)) -> writeOnly (tryCatch m h).
Proof.
  intros Hm Hh. apply wo_tryThen; auto. intro a. apply wo_ret.
Qed.

Lemma wo_orDefault {A : Type} (m : M E A) (d : A) :
  writeOnly m -> writeOnly (orDefault m d).
Proof. intro Hm. apply wo_tryCatch; auto. intro e. apply wo_ret. Qed.

Lemma wo_evaluate {A : Type} (p : Page)
    (script : Dom.Document -> Dom.Document * A) :
  writeOnly (@evaluate E A p script).
Proof.
  unfold evaluate. apply wo_bind; [apply wo_perform|].
  intro d. destruct (script d) as [d' a].
  apply wo_bind; [apply wo_perform|]. intros _. apply wo_ret.
Qed.

Lemma wo_orAwait (acted : bool) (action : M E bool) :
  writeOnly action -> writeOnly (orAwait acted action).
Proof. destruct acted; simpl; auto. intros _. apply wo_ret. Qed.

End WriteOnly.

(** Takes a goal [writeOnly m] apart along the shape of [m]. *)
Ltac wo_step :=
  lazymatch goal with
  | H : Outcomes.writeOnly ?m |- Outcomes.writeOnly ?m => exact H
  | |- Outcomes.writeOnly (Runtime.ret _) => apply wo_ret
  | |- Outcomes.writeOnly (Runtime.throw _) => apply wo_throw
  | |- Outcomes.writeOnly Runtime.spin => apply wo_spin
  | |- Outcomes.writeOnly (Runtime.perform _) => apply wo_perform
  | |- Outcomes.writeOnly Runtime.dateNow =>
      apply (@wo_read _ _ (fun w => Runtime.now _ w))
  | |- Outcomes.writeOnly (Runtime.pageUrl ?p) =>
      apply (@wo_read _ _ (fun w => Runtime.urlOf _ w p))
  | |- Outcomes.writeOnly (Runtime.pageFrames ?p) =>
      apply (@wo_read _ _ (fun w => Runtime.framesOf _ w p))
  | |- Outcomes.writeOnly (Runtime.pageMainFrame ?p) =>
      apply (@wo_read _ _ (fun w => Runtime.mainFrameOf _ w p))
  | |- Outcomes.writeOnly (Runtime.existsSync ?path) =>
      apply (@wo_read _ _ (fun w => Runtime.fileExists _ w path))
  | |- Outcomes.writeOnly (Runtime.evaluate _ _) => apply wo_evaluate
  | |- Outcomes.writeOnly (Runtime.log _) => apply wo_log
  | |- Outcomes.writeOnly (Runtime.orDefault _ _) => apply wo_orDefault
  | |- Outcomes.writeOnly (Runtime.orAwait _ _) => apply wo_orAwait
  | |- Outcomes.writeOnly (Runtime.tryCatch _ _) =>
      apply wo_tryCatch; [| intro]
  | |- Outcomes.writeOnly (Runtime.tryThen _ _ _) =>
      apply wo_tryThen; [| intro | intro]
  | |- Outcomes.writeOnly (Runtime.bind _ _) => apply wo_bind; [| intro]
  | |- Outcomes.writeOnly (if ?b then _ else _) => destruct b
  | |- Outcomes.writeOnly (match ?x with _ => _ end) => destruct x
  end.

Ltac wo := repeat wo_step.

Section WriteOnlyEngine.

Import Runtime Outcomes Engine.

Variable E : Env.

Lemma wo_waitForPageSettled (page : Page) (waitMs : Z) :
  writeOnly (@waitForPageSettled E page waitMs).
Proof. unfold waitForPageSettled. wo. Qed.

Lemma wo_clickFirstTarget (locator : Locator) (label : string)
    (quiet : bool) (positions : list nat) :
  writeOnly (@clickFirstTarget E locator label quiet positions).
Proof.
  induction positions as [|i rest IH]; cbn [clickFirstTarget]; wo.
Qed.

Lemma wo_clickFirstMatching (context : Context) (patterns : list string)
    (label : string) (quiet : bool) :
  writeOnly (@clickFirstMatching E context patterns label quiet).
Proof.
  induction patterns as [|pattern rest IH]; cbn [clickFirstMatching]; wo.
  apply wo_clickFirstTarget.
Qed.

Lemma wo_contexts (page : Page) : writeOnly (@contexts E page).
Proof. unfold contexts. wo. Qed.

Lemma wo_clickInContexts (ctxs : list Context) (patterns : list string)
    (label : string) (quiet : bool) :
  writeOnly (@clickInContexts E ctxs patterns label quiet).
Proof.
  induction ctxs as [|context rest IH]; cbn [clickInContexts]; wo.
  apply wo_clickFirstMatching.
Qed.

Lemma wo_pollContexts (page : Page) (patterns : list string)
    (label : string) (waitMs deadline : Z) (fuel : nat) :
  writeOnly (@pollContexts E fuel page patterns label waitMs deadline).
Proof.
  induction fuel as [|fuel IH]; cbn [pollContexts]; wo.
  - apply wo_contexts.
  - apply wo_clickInContexts.
Qed.

Lemma wo_clickFirstMatchingAnyContext (fuel : nat) (page : Page)
    (patterns : list string) (label : string) (optionsWaitMs : option Z) :
  writeOnly
    (@clickFirstMatchingAnyContext E fuel page patterns label optionsWaitMs).
Proof. unfold clickFirstMatchingAnyContext. wo. apply wo_pollContexts. Qed.

Lemma wo_clickByTextContent (page : Page) (searchText label : string) :
  writeOnly (@clickByTextContent E page searchText label).
Proof. unfold clickByTextContent. wo. Qed.

Lemma wo_dumpVisibleButtons (page : Page) (label : string) :
  writeOnly (@dumpVisibleButtons E page label).
Proof. unfold dumpVisibleButtons. wo. Qed.

Lemma wo_checkTermsCheckboxes (page : Page) :
  writeOnly (@checkTermsCheckboxes E page).
Proof. unfold checkTermsCheckboxes. wo. Qed.

Lemma wo_setTicketQuantity (page : Page) (quantity : option Z) :
  writeOnly (@setTicketQuantity E page quantity).
Proof. unfold setTicketQuantity. wo. Qed.

Lemma wo_selectSavedPayment (page : Page) :
  writeOnly (@selectSavedPayment E page).
Proof. unfold selectSavedPayment. wo. Qed.

Lemma wo_firstVisible (page : Page) (sel : string) :
  writeOnly (@firstVisible E page sel).
Proof. unfold firstVisible. wo. Qed.

Lemma wo_detectLogin (page : Page) : writeOnly (@detectLogin E page).
Proof. unfold detectLogin. wo; apply wo_firstVisible. Qed.

Lemma wo_detectQueue (page : Page) : writeOnly (@detectQueue E page).
Proof. unfold detectQueue. wo; apply wo_firstVisible. Qed.

Lemma wo_detectConfirmation (page : Page) :
  writeOnly (@detectConfirmation E page).
Proof. unfold detectConfirmation. wo; apply wo_firstVisible. Qed.

Lemma wo_detectBlockingError (page : Page) :
  writeOnly (@detectBlockingError E page).
Proof. unfold detectBlockingError. wo. Qed.

Lemma wo_clickOrderTicketsButton (page : Page) (filmTitle : string) :
  writeOnly (@clickOrderTicketsButton E page filmTitle).
Proof. unfold clickOrderTicketsButton. wo. Qed.

Lemma wo_debugScreenshot (debug : bool) (slug : string) (runId : Z)
    (currentPage : Page) (label : string) :
  writeOnly (@debugScreenshot E debug slug runId currentPage label).
Proof. unfold debugScreenshot. wo. Qed.

Lemma wo_purchaseError (runId : Z) (currentPage : Page) (error : Exn) :
  writeOnly (@purchaseError E runId currentPage error).
Proof. unfold purchaseError. wo. Qed.

Lemma wo_leave (page : Page) (result : string -> CheckoutResult) :
  writeOnly (@leave E page result).
Proof. unfold leave. wo. Qed.

Variable helpers : option (Helpers E).
Hypothesis Hhelpers : quietHelpers helpers.

Lemma wo_checkoutActions (fuel : nat) (page : Page) (settings : Settings)
    (settleMs step : Z) :
  writeOnly (checkoutActions fuel page settings helpers settleMs step).
Proof.
  unfold checkoutActions.
  apply wo_bind; [wo; apply wo_checkTermsCheckboxes|]. intro actedA.
  apply wo_bind; [apply wo_clickFirstMatchingAnyContext|]. intro final.
  apply wo_bind.
  { destruct final; [|apply wo_ret].
    apply wo_bind; [apply wo_waitForPageSettled|]. intros _.
    apply wo_bind; [apply wo_detectConfirmation|]. intros [|]; wo. }
  intros [result|actedB]; [apply wo_ret|].
  apply wo_bind; [apply wo_orAwait, wo_setTicketQuantity|]. intro actedC.
  apply wo_bind; [apply wo_orAwait, wo_selectSavedPayment|]. intro actedD.
  apply wo_bind; [apply wo_orAwait, wo_clickFirstMatchingAnyContext|].
  intros [|]; cbn [negb].
  - apply wo_bind; [apply wo_waitForPageSettled|]. intros _.
    destruct helpers as [h|]; [|apply wo_ret].
    apply wo_bind; [|intros _; apply wo_ret].
    destruct (Engine.debug h); [apply Hhelpers | apply wo_ret].
  - apply wo_bind.
    + destruct (_ || _); [apply wo_dumpVisibleButtons | apply wo_ret].
    + intros _. wo.
Qed.

Lemma wo_checkoutStep (fuel : nat) (page : Page) (settings : Settings)
    (settleMs step : Z) :
  writeOnly (checkoutStep fuel page settings helpers settleMs step).
Proof.
  unfold checkoutStep.
  apply wo_bind; [apply wo_log|]. intros _.
  apply wo_bind; [apply wo_detectQueue|]. intros [|]; [apply wo_leave|].
  apply wo_bind; [apply wo_detectLogin|]. intros [|]; [apply wo_leave|].
  apply wo_bind; [apply wo_detectConfirmation|].
  intros [|]; [apply wo_leave|].
  apply wo_bind; [apply wo_detectBlockingError|].
  intros [|]; [apply wo_leave|].
  apply wo_checkoutActions.
Qed.

Lemma wo_checkoutLoop (fuel : nat) (page : Page) (settings : Settings)
    (settleMs : Z) (remaining : nat) :
  forall step,
    writeOnly
      (checkoutLoop fuel page settings helpers settleMs remaining step).
Proof.
  induction remaining as [|n IH]; intro step; cbn [checkoutLoop];
    [apply wo_ret|].
  apply wo_bind; [apply wo_checkoutStep|].
  intros [result|]; [apply wo_ret | apply IH].
Qed.

Lemma wo_openCheckout (fuel : nat) (page : Page) (settleMs waitMs : Z) :
  writeOnly (@openCheckout E fuel page settleMs waitMs).
Proof.
  unfold openCheckout.
  apply wo_bind; [apply wo_log|]. intros _.
  apply wo_bind; [apply wo_perform|]. intros _.
  apply wo_bind; [apply wo_clickByTextContent|]. intro byText.
  apply wo_bind.
  - destruct (negb byText);
      [apply wo_clickFirstMatchingAnyContext | apply wo_ret].
  - intros [|]; [|apply wo_log].
    apply wo_bind; [apply wo_waitForPageSettled|]. intros _. apply wo_log.
Qed.

Lemma wo_runCheckoutFlow (fuel : nat) (page : Page) (settings : Settings) :
  writeOnly (runCheckoutFlow fuel page settings helpers).
Proof.
  unfold runCheckoutFlow.
  apply wo_bind; [apply wo_openCheckout|]. intros _.
  apply wo_bind; [apply wo_checkoutLoop|]. intros [result|]; wo.
Qed.

End WriteOnlyEngine.

Section WriteOnlyAttempt.

Import Runtime Outcomes Engine.

Variable E : Env.
Variable sendNotification : option (list ChangeEvent -> M E unit).
Hypothesis Hsend : quietHook sendNotification.

Lemma wo_checkout (fuel : nat) (page : Page) (filmTitle : string)
    (settings : Settings) (debug : bool) (slug : string) (runId : Z)
    (purchasePage : Page) (openedNewPage : bool) :
  writeOnly
    (checkout fuel page filmTitle settings debug slug runId sendNotification
       purchasePage openedNewPage).
Proof.
  unfold checkout.
  apply wo_bind; [apply wo_waitForPageSettled|]. intros _.
  apply wo_bind; [apply wo_debugScreenshot|]. intros _.
  apply wo_bind; [apply wo_log|]. intros _.
  apply wo_bind.
  { apply wo_runCheckoutFlow. intro label. apply wo_debugScreenshot. }
  intro checkoutResult.
  apply wo_bind; [destruct (_ && _ && _); wo|]. intros _.
  destruct sendNotification as [send|]; [|apply wo_ret].
  destruct (match notifyOnPurchaseUpdates settings with
            | Some b => b
            | None => true
            end); [|apply wo_ret].
  apply wo_bind; [destruct (Js.truthyString _); wo|]. intro address.
  apply wo_bind; [apply Hsend|]. intros _. apply wo_ret.
Qed.

(** [attemptPurchase] from [const runId = Date.now()] on. *)
Lemma wo_purchase (fuel : nat) (page : Page) (filmTitle : string)
    (settings : Settings) :
  writeOnly
    (bind dateNow (fun runId =>
       let slug := Js.orString (Some (slugify filmTitle)) "film" in
       let debug :=
         match debugScreenshots settings with
         | Some b => b
         | None => false
         end in
       tryThen
         (bind (log LogStep1)
               (fun _ => clickOrderTicketsButton page filmTitle))
         (purchaseError runId page)
         (fun orderResult =>
            match orderResult with
            | OrderFailed why => ret (failed why)
            | OrderReady purchasePage openedNewPage =>
                tryCatch
                  (checkout fuel page filmTitle settings debug slug runId
                     sendNotification purchasePage openedNewPage)
                  (purchaseError runId purchasePage)
            end))).
Proof.
  apply wo_bind; [apply (@wo_read _ _ (fun w => now E w))|]. intro runId.
  cbv zeta. apply wo_tryThen.
  - apply wo_bind; [apply wo_log|]. intros _.
    apply wo_clickOrderTicketsButton.
  - intro e. apply wo_purchaseError.
  - intros [why|purchasePage openedNewPage]; [apply wo_ret|].
    apply wo_tryCatch; [apply wo_checkout|].
    intro e. apply wo_purchaseError.
Qed.

End WriteOnlyAttempt.

(** X21.  The screening time of an attempt serves to find the rule and is
    written to the console; the purchase itself does not depend on it: two
    attempts for the same film from the same world, for two screening times
    that both have a rule to buy, end in the same world with the same
    result. *)
Theorem attemptPurchase_ignores_screening_time (E : Runtime.Env)
    (fuel : nat) (page : Runtime.Page) (filmTitle : string)
    (time1 time2 : option string) (config : AutoPurchaseConfig)
    (sendNotification : option (list ChangeEvent -> Runtime.M E unit))
    (rule1 rule2 : FilmRule) (s : Runtime.St E) :
  let run time :=
    Engine.attemptPurchase fuel page filmTitle time (Some config) sendNotification s
  in
  Outcomes.quietHook sendNotification ->
  Matcher.getFilmSettings filmTitle time1 (Some config) = Some rule1 ->
  f_autoPurchase rule1 = true ->
  Matcher.getFilmSettings filmTitle time2 (Some config) = Some rule2 ->
  f_autoPurchase rule2 = true ->
  snd (run time1) = snd (run time2)
  /\ Runtime.world (fst (run time1)) = Runtime.world (fst (run time2)).
Proof.
  intros run Hsend Hr1 Ha1 Hr2 Ha2. subst run. cbv beta.
  destruct s as [w c].
  pose proof (@wo_purchase E sendNotification Hsend fuel page filmTitle
                match settings config with
                | Some st => st
                | None => noSettings
                end w) as (w' & lines & o & Hrun).
  unfold Engine.attemptPurchase. rewrite Hr1, Hr2, Ha1, Ha2. cbn [negb].
  rewrite !(bind_Ret (Runtime.log (Runtime.LogPurchaseStart filmTitle)) _
              eq_refl).
  destruct (Js.truthyString time1); destruct (Js.truthyString time2);
    repeat first
      [ rewrite (bind_Ret (Runtime.log (Runtime.LogScreening
                                          (Js.orString time1 ""))) _ eq_refl)
      | rewrite (bind_Ret (Runtime.log (Runtime.LogScreening
                                          (Js.orString time2 ""))) _ eq_refl)
      | rewrite !(bind_Ret (Runtime.ret tt) _ eq_refl) ];
    cbn [Runtime.world Runtime.console]; cbv zeta in Hrun |- *;
    rewrite !Hrun; split; reflexivity.
Qed.

(** X21 on a film with a rule for each of two screenings. *)
Lemma attemptPurchase_ignores_screening_time_witness :
  let rule time := {| f_title := "Film"; f_screeningTime := Some time;
                      f_autoPurchase := true |} in
  let config := {| enabled := true;
                   films := Some [rule "Jan 23 7:00 PM";
                                  rule "Jan 24 9:00 PM"];
                   settings := None |} in
  let s := Double.start
             (Double.withDocument (Double.schedule ["Order tickets"])
                Double.blank) in
  let run time :=
    Engine.attemptPurchase 40 O "Film" (Some time) (Some config) None s in
  snd (run "Jan 23 7:00 PM") = snd (run "Jan 24 9:00 PM")
  /\ Runtime.world (fst (run "Jan 23 7:00 PM"))
     = Runtime.world (fst (run "Jan 24 9:00 PM")).
Proof.
  intros rule config s run.
  exact (@attemptPurchase_ignores_screening_time Double.env 40 O "Film"
           (Some "Jan 23 7:00 PM") (Some "Jan 24 9:00 PM") config None
           (rule "Jan 23 7:00 PM") (rule "Jan 24 9:00 PM") s
           I eq_refl eq_refl eq_refl eq_refl).
Defined.

(* ================================================================== *)
(** * How often the final purchase control is clicked *)
(* ================================================================== *)

Section FinalClicks.

Import Runtime Clicks.

Variable E : Env.

Lemma finalClicks_app (c l : list Log) :
  finalClicks (c ++ l) = (finalClicks c + finalClicks l)%nat.
Proof. unfold finalClicks. now rewrite filter_app, length_app. Qed.

Lemma adds_weaken {A : Type} (n n' : nat) (m : M E A) :
  (n <= n')%nat -> adds n m -> adds n' m.
Proof. intros Hn Hm s. specialize (Hm s). lia. Qed.

Lemma adds_ret {A : Type} (a : A) : adds 0 (@ret E A a).
Proof. intro s. simpl. lia. Qed.

Lemma adds_throw {A : Type} (e : Exn) : adds 0 (@throw E A e).
Proof. intro s. simpl. lia. Qed.

Lemma adds_spin {A : Type} : adds 0 (@spin E A).
Proof. intro s. simpl. lia. Qed.

Lemma adds_read {A : Type} (f : World E -> A) :
  adds 0 (fun s : St E => (s, Ret (f (world s)))).
Proof. intro s. simpl. lia. Qed.

Lemma adds_perform {A : Type} (op : Op A) : adds 0 (@perform E A op).
Proof.
  intro s. unfold perform. destruct (call E op (world s)). simpl. lia.
Qed.

Lemma adds_log (line : Log) :
  isFinalClick line = false -> adds 0 (@log E line).
Proof.
  intros Hline s. unfold log. cbn [fst console]. rewrite finalClicks_app.
  assert (Hnone : finalClicks [line] = 0%nat)
    by (unfold finalClicks; cbn [filter]; now rewrite Hline).
  lia.
Qed.

Lemma adds_tryThen {A B : Type} (n k : nat) (m : M E A) (h : Exn -> M E B)
    (f : A -> M E B) :
  adds n m -> (forall e, adds k (h e)) -> (forall a, adds k (f a)) ->
  adds (n + k) (tryThen m h f).
Proof.
  intros Hm Hh Hf s. unfold tryThen. specialize (Hm s).
  destruct (m s) as [s1 [a|e|]]; simpl in *.
  - specialize (Hf a s1). lia.
  - specialize (Hh e s1). lia.
  - lia.
Qed.

Lemma adds_bind {A B : Type} (n k : nat) (m : M E A) (f : A -> M E B) :
  adds n m -> (forall a, adds k (f a)) -> adds (n + k) (bind m f).
Proof.
  intros Hm Hf s. unfold bind. specialize (Hm s).
  destruct (m s) as [s1 [a|e|]]; simpl in *; [|lia|lia].
  specialize (Hf a s1). lia.
Qed.

Lemma adds_after {A B : Type} (k : nat) (m : M E A) (f : A -> M E B) :
  adds 0 m -> (forall a, adds k (f a)) -> adds k (bind m f).
Proof. apply (@adds_bind A B 0 k). Qed.

Lemma adds_before {A B : Type} (n : nat) (m : M E A) (f : A -> M E B) :
  adds n m -> (forall a, adds 0 (f a)) -> adds n (bind m f).
Proof.
  intros Hm Hf. apply (@adds_weaken B (n + 0) n); [lia|].
  now apply adds_bind.
Qed.

Lemma adds_tryCatch {A : Type} (k : nat) (m : M E A) (h : Exn -> M E A) :
  adds 0 m -> (forall e, adds k (h e)) -> adds k (tryCatch m h).
Proof.
  intros Hm Hh. apply (@adds_tryThen A A 0 k); auto.
  intro a. apply (@adds_weaken A 0 k); [lia | apply adds_ret].
Qed.

Lemma adds_orDefault {A : Type} (m : M E A) (d : A) :
  adds 0 m -> adds 0 (orDefault m d).
Proof. intro Hm. apply adds_tryCatch; auto. intro e. apply adds_ret. Qed.

Lemma adds_evaluate {A : Type} (p : Page)
    (script : Dom.Document -> Dom.Document * A) :
  adds 0 (@evaluate E A p script).
Proof.
  unfold evaluate. apply adds_after; [apply adds_perform|].
  intro d. destruct (script d) as [d' a].
  apply adds_after; [apply adds_perform|]. intros _. apply adds_ret.
Qed.

Lemma adds_orAwait (n : nat) (acted : bool) (action : M E bool) :
  adds n action -> adds n (orAwait acted action).
Proof.
  destruct acted; simpl; auto. intros _.
  apply (@adds_weaken bool 0 n); [lia | apply adds_ret].
Qed.

Lemma once_adds (m : M E bool) : clicksOnce m -> adds 1 m.
Proof.
  intros Hm s. specialize (Hm s). destruct (isFalse (snd (m s))); lia.
Qed.

Lemma once_quiet (m : M E bool) : adds 0 m -> clicksOnce m.
Proof.
  intros Hm s. specialize (Hm s). destruct (isFalse (snd (m s))); lia.
Qed.

Lemma once_after {A : Type} (m : M E A) (k : A -> M E bool) :
  adds 0 m -> (forall a, clicksOnce (k a)) -> clicksOnce (bind m k).
Proof.
  intros Hm Hk s. unfold bind. specialize (Hm s).
  destruct (m s) as [s1 [a|e|]]; simpl in *; [|lia|lia].
  specialize (Hk a s1). destruct (isFalse (snd (k a s1))); lia.
Qed.

(** [if (await m) { kt } else { kf }], where [kt] does not return
    [false]. *)
Lemma once_chain (m kt kf : M E bool) :
  clicksOnce m -> adds 0 kt -> (forall s, isFalse (snd (kt s)) = false) ->
  clicksOnce kf ->
  clicksOnce (bind m (fun done => if done then kt else kf)).
Proof.
  intros Hm Hkt Htrue Hkf s. unfold bind. specialize (Hm s).
  destruct (m s) as [s1 [[|]|e|]]; simpl in *; [| |lia|lia].
  - specialize (Hkt s1). rewrite Htrue. lia.
  - specialize (Hkf s1). destruct (isFalse (snd (kf s1))); lia.
Qed.

(** The click itself, with its line. *)
Lemma once_click (locator : Locator) (i : nat) (label text : string)
    (quiet : bool) :
  clicksOnce
    (bind (@perform E unit (Click locator i))
          (fun _ => bind (if quiet then ret tt else log (LogClicked label text))
                         (fun _ => ret true))).
Proof.
  intro s. unfold bind, perform.
  destruct (call E (Click locator i) (world s)) as [w [e|[]]]; simpl;
    [lia|].
  destruct quiet; cbn [fst snd console isFalse ret log]; [lia|].
  rewrite finalClicks_app.
  assert (Hone : (finalClicks [LogClicked label text] <= 1)%nat)
    by (unfold finalClicks; cbn [filter];
        destruct (isFinalClick (LogClicked label text)); simpl; lia).
  lia.
Qed.

End FinalClicks.

(** Takes a goal [adds 0 m] apart along the shape of [m]. *)
Ltac quiet_step :=
  lazymatch goal with
  | H : Clicks.adds O ?m |- Clicks.adds O ?m => exact H
  | |- Clicks.adds O (Runtime.ret _) => apply adds_ret
  | |- Clicks.adds O (Runtime.throw _) => apply adds_throw
  | |- Clicks.adds O Runtime.spin => apply adds_spin
  | |- Clicks.adds O (Runtime.perform _) => apply adds_perform
  | |- Clicks.adds O Runtime.dateNow =>
      apply (@adds_read _ _ (fun w => Runtime.now _ w))
  | |- Clicks.adds O (Runtime.pageUrl ?p) =>
      apply (@adds_read _ _ (fun w => Runtime.urlOf _ w p))
  | |- Clicks.adds O (Runtime.pageFrames ?p) =>
      apply (@adds_read _ _ (fun w => Runtime.framesOf _ w p))
  | |- Clicks.adds O (Runtime.pageMainFrame ?p) =>
      apply (@adds_read _ _ (fun w => Runtime.mainFrameOf _ w p))
  | |- Clicks.adds O (Runtime.evaluate _ _) => apply adds_evaluate
  | |- Clicks.adds O (Runtime.log _) =>
      apply adds_log; first [reflexivity | assumption]
  | |- Clicks.adds O (Runtime.orDefault _ _) => apply adds_orDefault
  | |- Clicks.adds O (Runtime.orAwait _ _) => apply adds_orAwait
  | |- Clicks.adds O (Runtime.tryCatch _ _) =>
      apply adds_tryCatch; [| intro]
  | |- Clicks.adds O (Runtime.bind _ _) => apply adds_after; [| intro]
  | |- Clicks.adds O (if ?b then _ else _) => destruct b
  | |- Clicks.adds O (match ?x with _ => _ end) => destruct x
  end.

Ltac quiet := repeat quiet_step.

Section FinalClicksEngine.

Import Runtime Clicks Engine.

Variable E : Env.

Lemma quiet_waitForPageSettled (page : Page) (waitMs : Z) :
  adds 0 (@waitForPageSettled E page waitMs).
Proof. unfold waitForPageSettled. quiet. Qed.

Lemma quiet_contexts (page : Page) : adds 0 (@contexts E page).
Proof. unfold contexts. quiet. Qed.

Lemma quiet_dumpVisibleButtons (page : Page) (label : string) :
  adds 0 (@dumpVisibleButtons E page label).
Proof. unfold dumpVisibleButtons. quiet. Qed.

Lemma quiet_checkTermsCheckboxes (page : Page) :
  adds 0 (@checkTermsCheckboxes E page).
Proof. unfold checkTermsCheckboxes. quiet. Qed.

Lemma quiet_setTicketQuantity (page : Page) (quantity : option Z) :
  adds 0 (@setTicketQuantity E page quantity).
Proof. unfold setTicketQuantity. quiet. Qed.

Lemma quiet_selectSavedPayment (page : Page) :
  adds 0 (@selectSavedPayment E page).
Proof. unfold selectSavedPayment. quiet. Qed.

Lemma quiet_firstVisible (page : Page) (sel : string) :
  adds 0 (@firstVisible E page sel).
Proof. unfold firstVisible. quiet. Qed.

Lemma quiet_detectLogin (page : Page) : adds 0 (@detectLogin E page).
Proof. unfold detectLogin. quiet; apply quiet_firstVisible. Qed.

Lemma quiet_detectQueue (page : Page) : adds 0 (@detectQueue E page).
Proof. unfold detectQueue. quiet; apply quiet_firstVisible. Qed.

Lemma quiet_detectConfirmation (page : Page) :
  adds 0 (@detectConfirmation E page).
Proof. unfold detectConfirmation. quiet; apply quiet_firstVisible. Qed.

Lemma quiet_detectBlockingError (page : Page) :
  adds 0 (@detectBlockingError E page).
Proof. unfold detectBlockingError. quiet. Qed.

Lemma quiet_clickOrderTicketsButton (page : Page) (filmTitle : string) :
  adds 0 (@clickOrderTicketsButton E page filmTitle).
Proof. unfold clickOrderTicketsButton. quiet. Qed.

Lemma quiet_debugScreenshot (debug : bool) (slug : string) (runId : Z)
    (currentPage : Page) (label : string) :
  adds 0 (@debugScreenshot E debug slug runId currentPage label).
Proof. unfold debugScreenshot. quiet. Qed.

Lemma quiet_purchaseError (runId : Z) (currentPage : Page) (error : Exn) :
  adds 0 (@purchaseError E runId currentPage error).
Proof. unfold purchaseError. quiet. Qed.

Lemma quiet_leave (page : Page) (result : string -> CheckoutResult) :
  adds 0 (@leave E page result).
Proof. unfold leave. quiet. Qed.

(** ** Clicks for another label *)

Section OtherLabel.

Variable label : string.
Hypothesis Hlabel : (label =? "Complete purchase")%string = false.

Lemma quiet_clickByTextContent (page : Page) (searchText : string) :
  adds 0 (@clickByTextContent E page searchText label).
Proof. unfold clickByTextContent. quiet. Qed.

Lemma quiet_clickFirstTarget (locator : Locator) (quiet : bool)
    (positions : list nat) :
  adds 0 (@clickFirstTarget E locator label quiet positions).
Proof.
  induction positions as [|i rest IH]; cbn [clickFirstTarget]; quiet.
Qed.

Lemma quiet_clickFirstMatching (context : Context) (patterns : list string)
    (quiet : bool) :
  adds 0 (@clickFirstMatching E context patterns label quiet).
Proof.
  induction patterns as [|pattern rest IH]; cbn [clickFirstMatching]; quiet.
  apply quiet_clickFirstTarget.
Qed.

Lemma quiet_clickInContexts (ctxs : list Context) (patterns : list string)
    (quiet : bool) :
  adds 0 (@clickInContexts E ctxs patterns label quiet).
Proof.
  induction ctxs as [|context rest IH]; cbn [clickInContexts]; quiet.
  apply quiet_clickFirstMatching.
Qed.

Lemma quiet_pollContexts (page : Page) (patterns : list string)
    (waitMs deadline : Z) (fuel : nat) :
  adds 0 (@pollContexts E fuel page patterns label waitMs deadline).
Proof.
  induction fuel as [|fuel IH]; cbn [pollContexts]; quiet.
  - apply quiet_contexts.
  - apply quiet_clickInContexts.
Qed.

Lemma quiet_clickFirstMatchingAnyContext (fuel : nat) (page : Page)
    (patterns : list string) (optionsWaitMs : option Z) :
  adds 0
    (@clickFirstMatchingAnyContext E fuel page patterns label optionsWaitMs).
Proof.
  unfold clickFirstMatchingAnyContext. quiet. apply quiet_pollContexts.
Qed.

End OtherLabel.

(** ** Clicks for any label *)

Lemma once_clickFirstTarget (locator : Locator) (label : string)
    (quiet : bool) (positions : list nat) :
  clicksOnce (@clickFirstTarget E locator label quiet positions).
Proof.
  induction positions as [|i rest IH]; cbn [clickFirstTarget].
  - apply once_quiet, adds_ret.
  - apply once_after; [quiet|]. intro visible.
    destruct (negb visible); [exact IH|].
    apply once_after; [quiet|]. intro disabled.
    destruct disabled; [exact IH|].
    apply once_after; [quiet|]. intro raw. cbv zeta.
    destruct (_ && _); [exact IH|]. apply once_click.
Qed.

Lemma once_clickFirstMatching (context : Context) (patterns : list string)
    (label : string) (quiet : bool) :
  clicksOnce (@clickFirstMatching E context patterns label quiet).
Proof.
  induction patterns as [|pattern rest IH]; cbn [clickFirstMatching].
  - apply once_quiet, adds_ret.
  - apply once_after; [quiet|]. intro count.
    apply once_chain; [apply once_clickFirstTarget | apply adds_ret
                      | reflexivity | exact IH].
Qed.

Lemma once_clickInContexts (ctxs : list Context) (patterns : list string)
    (label : string) (quiet : bool) :
  clicksOnce (@clickInContexts E ctxs patterns label quiet).
Proof.
  induction ctxs as [|context rest IH]; cbn [clickInContexts].
  - apply once_quiet, adds_ret.
  - apply once_chain; [apply once_clickFirstMatching | apply adds_ret
                      | reflexivity | exact IH].
Qed.

Lemma once_pollContexts (page : Page) (patterns : list string)
    (label : string) (waitMs deadline : Z) (fuel : nat) :
  clicksOnce (@pollContexts E fuel page patterns label waitMs deadline).
Proof.
  induction fuel as [|fuel IH]; cbn [pollContexts].
  - apply once_quiet, adds_spin.
  - apply once_after; [apply quiet_contexts|]. intro ctxs.
    apply once_chain.
    + apply once_clickInContexts.
    + quiet.
    + intro s. unfold bind. now destruct (0 <? waitMs).
    + apply once_after; [quiet|]. intro t.
      destruct (deadline <=? t); [apply once_quiet, adds_ret|].
      apply once_after; [quiet|]. intros _. exact IH.
Qed.

Lemma once_clickFirstMatchingAnyContext (fuel : nat) (page : Page)
    (patterns : list string) (label : string) (optionsWaitMs : option Z) :
  clicksOnce
    (@clickFirstMatchingAnyContext E fuel page patterns label optionsWaitMs).
Proof.
  unfold clickFirstMatchingAnyContext. apply once_after; [quiet|].
  intro t. apply once_pollContexts.
Qed.

End FinalClicksEngine.

Section FinalClicksFlow.

Import Runtime Clicks Engine.

Variable E : Env.
Variable helpers : option (Helpers E).
Hypothesis Hhelpers : quietHelpers helpers.

Lemma adds_checkoutActions (fuel : nat) (page : Page) (settings : Settings)
    (settleMs step : Z) :
  adds 1 (checkoutActions fuel page settings helpers settleMs step).
Proof.
  unfold checkoutActions.
  apply adds_after; [quiet; apply quiet_checkTermsCheckboxes|].
  intro actedA.
  apply adds_before;
    [apply once_adds, once_clickFirstMatchingAnyContext|].
  intro final.
  apply adds_after.
  { destruct final; [|apply adds_ret].
    apply adds_after; [apply quiet_waitForPageSettled|]. intros _.
    apply adds_after; [apply quiet_detectConfirmation|].
    intros [|]; quiet. }
  intros [result|actedB]; [apply adds_ret|].
  apply adds_after; [apply adds_orAwait, quiet_setTicketQuantity|].
  intro actedC.
  apply adds_after; [apply adds_orAwait, quiet_selectSavedPayment|].
  intro actedD.
  apply adds_after.
  { apply adds_orAwait.
    now apply (@quiet_clickFirstMatchingAnyContext E "Continue"). }
  intros [|]; cbn [negb].
  - apply adds_after; [apply quiet_waitForPageSettled|]. intros _.
    destruct helpers as [h|]; [|apply adds_ret].
    apply adds_after; [|intros _; apply adds_ret].
    destruct (Engine.debug h); [apply Hhelpers | apply adds_ret].
  - apply adds_after.
    + destruct (_ || _); [apply quiet_dumpVisibleButtons | apply adds_ret].
    + intros _. quiet.
Qed.

Lemma adds_checkoutStep (fuel : nat) (page : Page) (settings : Settings)
    (settleMs step : Z) :
  adds 1 (checkoutStep fuel page settings helpers settleMs step).
Proof.
  assert (Hleave : forall result, adds 1 (@leave E page result)).
  { intro result. apply (@adds_weaken _ _ 0 1); [lia | apply quiet_leave]. }
  unfold checkoutStep.
  apply adds_after; [quiet|]. intros _.
  apply adds_after; [apply quiet_detectQueue|]. intros [|]; [apply Hleave|].
  apply adds_after; [apply quiet_detectLogin|]. intros [|]; [apply Hleave|].
  apply adds_after; [apply quiet_detectConfirmation|].
  intros [|]; [apply Hleave|].
  apply adds_after; [apply quiet_detectBlockingError|].
  intros [|]; [apply Hleave|].
  apply adds_checkoutActions.
Qed.

Lemma adds_checkoutLoop (fuel : nat) (page : Page) (settings : Settings)
    (settleMs : Z) (remaining : nat) :
  forall step,
    adds remaining
      (checkoutLoop fuel page settings helpers settleMs remaining step).
Proof.
  induction remaining as [|n IH]; intro step; cbn [checkoutLoop];
    [apply adds_ret|].
  apply (@adds_bind _ _ _ 1 n); [apply adds_checkoutStep|].
  intros [result|]; [|apply IH].
  apply (@adds_weaken _ _ 0 n); [lia | apply adds_ret].
Qed.

Lemma quiet_openCheckout (fuel : nat) (page : Page) (settleMs waitMs : Z) :
  adds 0 (@openCheckout E fuel page settleMs waitMs).
Proof.
  unfold openCheckout.
  apply adds_after; [quiet|]. intros _.
  apply adds_after; [quiet|]. intros _.
  apply adds_after;
    [now apply (@quiet_clickByTextContent E "Buy additional tickets")|].
  intro byText.
  apply adds_after.
  - destruct (negb byText); [|apply adds_ret].
    now apply (@quiet_clickFirstMatchingAnyContext E
                 "Buy additional tickets").
  - intros [|]; [|quiet].
    apply adds_after; [apply quiet_waitForPageSettled|]. intros _. quiet.
Qed.

Lemma adds_runCheckoutFlow (fuel : nat) (page : Page) (settings : Settings) :
  adds (Z.to_nat (Js.orZ (maxSteps settings) 12))
    (runCheckoutFlow fuel page settings helpers).
Proof.
  unfold runCheckoutFlow.
  apply adds_after; [apply quiet_openCheckout|]. intros _.
  apply adds_before; [apply adds_checkoutLoop|].
  intros [result|]; quiet.
Qed.

End FinalClicksFlow.

Section FinalClicksAttempt.

Import Runtime Clicks Engine.

Variable E : Env.
Variable sendNotification : option (list ChangeEvent -> M E unit).
Hypothesis Hsend : quietHook sendNotification.

Lemma adds_checkout (fuel : nat) (page : Page) (filmTitle : string)
    (settings : Settings) (debug : bool) (slug : string) (runId : Z)
    (purchasePage : Page) (openedNewPage : bool) :
  adds (Z.to_nat (Js.orZ (maxSteps settings) 12))
    (checkout fuel page filmTitle settings debug slug runId sendNotification
       purchasePage openedNewPage).
Proof.
  unfold checkout.
  apply adds_after; [apply quiet_waitForPageSettled|]. intros _.
  apply adds_after; [apply quiet_debugScreenshot|]. intros _.
  apply adds_after; [quiet|]. intros _.
  apply adds_before.
  { apply adds_runCheckoutFlow. intro label. apply quiet_debugScreenshot. }
  intro checkoutResult.
  apply adds_after; [destruct (_ && _ && _); quiet|]. intros _.
  destruct sendNotification as [send|]; [|apply adds_ret].
  destruct (match notifyOnPurchaseUpdates settings with
            | Some b => b
            | None => true
            end); [|apply adds_ret].
  apply adds_after; [destruct (Js.truthyString _); quiet|]. intro address.
  apply adds_after; [apply Hsend|]. intros _. apply adds_ret.
Qed.

Lemma adds_attemptPurchase (fuel : nat) (page : Page) (filmTitle : string)
    (screeningTime : option string) (config : AutoPurchaseConfig) :
  adds (Z.to_nat
          (Js.orZ (maxSteps match settings config with
                            | Some st => st
                            | None => noSettings
                            end) 12))
    (attemptPurchase fuel page filmTitle screeningTime (Some config)
       sendNotification).
Proof.
  set (bound := Z.to_nat _).
  assert (Hnone : forall r : CheckoutResult, adds bound (@ret E _ r)).
  { intro r. apply (@adds_weaken _ _ 0 bound); [lia | apply adds_ret]. }
  assert (Herror : forall runId p e,
            adds bound (@purchaseError E runId p e)).
  { intros. apply (@adds_weaken _ _ 0 bound); [lia|].
    apply quiet_purchaseError. }
  unfold attemptPurchase.
  apply adds_after; [quiet|]. intros _.
  apply adds_after; [quiet|]. intros _.
  destruct (Matcher.getFilmSettings _ _ _) as [filmSettings|];
    [|apply Hnone].
  destruct (negb (f_autoPurchase filmSettings)); [apply Hnone|].
  apply adds_after; [quiet|]. intro runId.
  apply (@adds_tryThen _ _ _ 0 bound).
  - apply adds_after; [quiet|]. intros _.
    apply quiet_clickOrderTicketsButton.
  - intro e. apply Herror.
  - intros [why|purchasePage openedNewPage]; [apply Hnone|].
    unfold tryCatch.
    apply (@adds_weaken _ _ (bound + 0) bound); [lia|].
    apply adds_tryThen; [apply adds_checkout | | intro a; apply adds_ret].
    intro e. apply quiet_purchaseError.
Qed.

End FinalClicksAttempt.

(** X22.  A turn of the checkout loop clicks the final purchase control at
    most once, and the opening of the checkout, the order control and the
    error handling never do; so the console of an attempt shows at most
    [maxSteps] clicks for "Complete purchase" (twelve when [maxSteps] is
    not set). *)
Theorem final_clicks_bounded (E : Runtime.Env) (fuel : nat)
    (page : Runtime.Page) (filmTitle : string)
    (screeningTime : option string) (config : AutoPurchaseConfig)
    (sendNotification : option (list ChangeEvent -> Runtime.M E unit))
    (s : Runtime.St E) :
  let run :=
    Engine.attemptPurchase fuel page filmTitle screeningTime (Some config)
      sendNotification s in
  let limit :=
    Js.orZ (maxSteps match settings config with
                     | Some st => st
                     | None => noSettings
                     end) 12 in
  Clicks.quietHook sendNotification ->
  (Clicks.finalClicks (Runtime.console (fst run))
   <= Clicks.finalClicks (Runtime.console s) + Z.to_nat limit)%nat
  /\ (forall (helpers : option (Engine.Helpers E)) (turnSettings : Settings)
             (settleMs step : Z),
        Clicks.quietHelpers helpers ->
        Clicks.adds 1
          (Engine.checkoutStep fuel page turnSettings helpers settleMs step)).
Proof.
  intros run limit Hsend. split.
  - apply (@adds_attemptPurchase E sendNotification Hsend).
  - intros helpers st settleMs step Hhelpers. now apply adds_checkoutStep.
Qed.

(** X22 on a checkout whose final control stays in place and never leads
    to a confirmation: the control is clicked in each of the twelve
    turns. *)
Lemma final_clicks_bounded_witness :
  let w := {| Double.clock := 0;
              Double.address := "https://festival.sundance.org/checkout";
              Double.document := Double.schedule ["Order tickets"];
              Double.fields := [];
              Double.controls := [("complete\s+purchase", "Complete Purchase")];
              Double.filled := []; Double.pressed := [];
              Double.clickError := None; Double.shots := [];
              Double.file := None |} in
  let run :=
    Engine.attemptPurchase 40 O "Film" None (Some Double.config) None
      (Double.start w) in
  Clicks.finalClicks (Runtime.console (fst run)) = 12%nat
  /\ (Clicks.finalClicks (Runtime.console (fst run)) <= 0 + 12)%nat.
Proof.
  intros w run. split; [vm_compute; reflexivity|].
  exact (proj1 (@final_clicks_bounded Double.env 40 O "Film" None
                  Double.config None (Double.start w) I)).
Defined.

(* ================================================================== *)
(** * Purchase notifications switched off *)
(* ================================================================== *)

Section NotificationsOff.

Import Runtime Engine.

Variable E : Env.

Lemma bind_ext {A B : Type} (m : M E A) (k k' : A -> M E B) (s : St E) :
  (forall a s1, k a s1 = k' a s1) -> bind m k s = bind m k' s.
Proof.
  intro Hk. unfold bind. destruct (m s) as [s1 [a|e|]]; auto.
Qed.

Lemma tryThen_ext {A B : Type} (m : M E A) (h : Exn -> M E B)
    (k k' : A -> M E B) (s : St E) :
  (forall a s1, k a s1 = k' a s1) -> tryThen m h k s = tryThen m h k' s.
Proof.
  intro Hk. unfold tryThen. destruct (m s) as [s1 [a|e|]]; auto.
Qed.

Lemma tryCatch_ext {A : Type} (m m' : M E A) (h : Exn -> M E A) (s : St E) :
  m s = m' s -> tryCatch m h s = tryCatch m' h s.
Proof. intro Hm. unfold tryCatch, tryThen. now rewrite Hm. Qed.

Lemma checkout_unnotified (fuel : nat) (page : Page) (filmTitle : string)
    (settings : Settings) (debug : bool) (slug : string) (runId : Z)
    (send : list ChangeEvent -> M E unit) (purchasePage : Page)
    (openedNewPage : bool) (s : St E) :
  notifyOnPurchaseUpdates settings = Some false ->
  checkout fuel page filmTitle settings debug slug runId (Some send)
    purchasePage openedNewPage s
  = checkout fuel page filmTitle settings debug slug runId None
      purchasePage openedNewPage s.
Proof.
  intro Hoff. unfold checkout. rewrite Hoff.
  repeat (apply bind_ext; intros).
  reflexivity.
Qed.

End NotificationsOff.

(** X23.  With [notifyOnPurchaseUpdates] set to [false], the notification
    hook plays no part: an attempt with a hook runs as the attempt without
    one. *)
Theorem attemptPurchase_notifications_off (E : Runtime.Env) (fuel : nat)
    (page : Runtime.Page) (filmTitle : string)
    (screeningTime : option string) (config : AutoPurchaseConfig)
    (purchaseSettings : Settings)
    (send : list ChangeEvent -> Runtime.M E unit) (s : Runtime.St E) :
  settings config = Some purchaseSettings ->
  notifyOnPurchaseUpdates purchaseSettings = Some false ->
  Engine.attemptPurchase fuel page filmTitle screeningTime (Some config) (Some send) s
  = Engine.attemptPurchase fuel page filmTitle screeningTime (Some config) None s.
Proof.
  intros Hsettings Hoff. unfold Engine.attemptPurchase. rewrite Hsettings.
  apply bind_ext; intros _ s1. apply bind_ext; intros _ s2.
  destruct (Matcher.getFilmSettings _ _ _) as [filmSettings|];
    [|reflexivity].
  destruct (negb (f_autoPurchase filmSettings)); [reflexivity|].
  apply bind_ext; intros runId s3. cbv zeta.
  apply tryThen_ext. intros [why|purchasePage openedNewPage] s4;
    [reflexivity|].
  apply tryCatch_ext. now apply checkout_unnotified.
Qed.

(** X23 on a purchase that is confirmed at once, with a hook that would
    write a line. *)
Lemma attemptPurchase_notifications_off_witness :
  let quiet := {| ticketQuantity := None;
                  notifyOnPurchaseUpdates := Some false;
                  debugScreenshots := None; debugButtonDump := None;
                  keepCheckoutOpen := None; maxSteps := None;
                  stepWaitMs := None; waitForBuyAdditionalMs := None;
                  payment := None |} in
  let config := {| enabled := true; films := Some [Double.rule];
                   settings := Some quiet |} in
  let w := {| Double.clock := 0;
              Double.address := "https://festival.sundance.org/receipt";
              Double.document := Double.schedule ["Order tickets"];
              Double.fields := []; Double.controls := [];
              Double.filled := []; Double.pressed := [];
              Double.clickError := None; Double.shots := [];
              Double.file := None |} in
  let send (changes : list ChangeEvent) : Runtime.M Double.env unit :=
    Runtime.log (Runtime.LogPurchased "sent") in
  snd (Engine.attemptPurchase 40 O "Film" None (Some config) (Some send)
         (Double.start w))
  = Runtime.Ret (Engine.purchaseConfirmed
                   "https://festival.sundance.org/receipt").
Proof.
  intros quiet config w send.
  rewrite (@attemptPurchase_notifications_off Double.env 40 O "Film" None
             config quiet send (Double.start w) eq_refl eq_refl).
  vm_compute. reflexivity.
Defined.
